(** * Omni CLI: the agent core and the tool approval gate

    A shallow embedding of [src/tools/index.ts] (tool registry and
    [executeTool]) and of [src/agent.ts] (the [Agent] class: [initialize],
    [chat], [saveCheckpoint], [restoreCheckpoint], [compact], [clear],
    [switchProvider], [refreshContext]).

    Conventions.
    - A JavaScript string is a [string]; its characters stand for UTF-16
      code units.  A JavaScript number that counts something is a [Z].
    - An [async] function is modelled by its result; a rejected promise or
      a thrown [Error] is the left summand of a sum, carrying the message.
    - What the code reads from its surroundings (the uuid generator, the
      clock, the context files on disk, the created provider, the stream
      the AI SDK yields) is an explicit argument of the operation.
    - Arrays are modelled by value.  The class never shares an array between
      the live conversation and a checkpoint ([saveCheckpoint] and
      [restoreCheckpoint] both spread into a new array) and never mutates a
      message object in place, so no aliasing is lost.
    - The observability hooks [onToken], [onToolCall], [onToolResult] and
      [onError] return nothing the code uses and are left out. *)

From Stdlib Require Import Ascii String ZArith Lia.
From stdpp Require Import base tactics option list strings numbers gmap.

Local Open Scope string_scope.
Local Open Scope Z_scope.

(** ** JavaScript primitives used by the code *)

Module Js.

(** The line feed character, ['\n']. *)
Definition nl : string := String "010"%char EmptyString.

(** [s.includes(sub)] *)
Fixpoint includes (s sub : string) {struct s} : bool :=
    String.prefix sub s ||
    match s with
    | EmptyString => false
    | String _ s' => includes s' sub
    end.

(** Relative index of [Array.prototype.slice]: negative indices count
    from the end, everything is clamped to [0 .. len]. *)
Definition rel_index (len i : Z) : Z :=
    if i <? 0 then Z.max (len + i) 0 else Z.min i len.

(** [l.slice(start, end)]; [end_ = None] is the one-argument form. *)
Definition slice {A} (start : Z) (end_ : option Z) (l : list A) : list A :=
    let len := Z.of_nat (length l) in
    let k := rel_index len start in
    let final := match end_ with
                 | None => len
                 | Some e => rel_index len e
                 end in
    take (Z.to_nat (final - k)) (drop (Z.to_nat k) l).

(** [s.slice(0, n)] on a string, for [n >= 0]. *)
Definition str_take (n : nat) (s : string) : string := String.substring 0 n s.

(** [l.join(sep)] on an array of strings. *)
Definition join (sep : string) (l : list string) : string := String.concat sep l.

(** [a || b] on an optional number: [undefined] and [0] are falsy. *)
Definition num_or (a : option Z) (b : Z) : Z :=
    match a with
    | Some n => if n =? 0 then b else n
    | None => b
    end.

(** [`${x}`] on an optional string. *)
Definition show_opt (x : option string) : string :=
    match x with
    | Some s => s
    | None => "undefined"
    end.

End Js.

(** ** Types ([src/types.ts]) *)

Definition Error := string.

Inductive ApprovalPolicy := untrusted | on_failure | on_request | never.

Inductive ApprovalType :=
  file_write | file_delete | shell_command | network_request | mcp_call.

Inductive ToolCategory :=
  cat_file | cat_shell | cat_web | cat_mcp | cat_memory | cat_system.

Record ToolResult := {
  success : bool;
  output : option string;
  error : option string;
}.

#[global] Instance ApprovalPolicy_eq_dec : EqDecision ApprovalPolicy.
Proof. solve_decision. Defined.
#[global] Instance ToolCategory_eq_dec : EqDecision ToolCategory.
Proof. solve_decision. Defined.
#[global] Instance ToolResult_eq_dec : EqDecision ToolResult.
Proof. solve_decision. Defined.

(** ** Tool registry and execution ([src/tools/index.ts]) *)

Module Tools.
Section WithArgs.

(** The argument object of a tool call ([Record<string, any>]) and
    [JSON.stringify] on it. *)
Context {Args : Type} (stringify : Args -> string).

Record ApprovalRequest := {
    request_id : string;
    request_type : ApprovalType;
    request_description : string;
    request_details : Args;
    request_timestamp : Z;
  }.

(** [execute] is the tool's outcome on the world as it is when the call
    is made: [inl msg] when it throws [Error(msg)]. *)
Record RegisteredTool := {
    name : string;
    category : ToolCategory;
    description : string;
    requiresApproval : bool;
    execute : Args -> Error + ToolResult;
  }.

Definition Registry := gmap string RegisteredTool.

Definition registerTool (tool : RegisteredTool) (toolRegistry : Registry) : Registry :=
    <[name tool := tool]> toolRegistry.

Definition getTool (toolRegistry : Registry) (toolName : string) : option RegisteredTool :=
    toolRegistry !! toolName.

(** The approver's answer.  An approver whose promise rejects is not
    modelled. *)
Definition Approver := ApprovalRequest -> bool.

Record ToolExecutionContext := {
    approvalPolicy : ApprovalPolicy;
    onApprovalRequest : option Approver;
  }.

(** What [executeTool] does to the outside, in order. *)
Inductive Effect :=
  | Prompted (request : ApprovalRequest)
  | Executed (toolName : string) (args : Args).

(** The request id ([`${Date.now()}-${Math.random()...}`]) and the
    [new Date()] of the request, as the surroundings supply them. *)
Record Stamp := {
    stamp_id : string;
    stamp_time : Z;
  }.

Definition needsApproval (tool : RegisteredTool) (context : ToolExecutionContext) : bool :=
    requiresApproval tool
    && negb (bool_decide (approvalPolicy context = never))
    && (bool_decide (approvalPolicy context = untrusted)
        || bool_decide (approvalPolicy context = on_request)).

Definition buildRequest (tool : RegisteredTool) (toolName : string) (args : Args)
      (stamp : Stamp) : ApprovalRequest :=
    {| request_id := stamp_id stamp;
       request_type :=
         if bool_decide (category tool = cat_file) && Js.includes toolName "write"
         then file_write
         else if bool_decide (category tool = cat_shell)
         then shell_command
         else mcp_call;
       request_description := name tool ++ ": " ++ stringify args;
       request_details := args;
       request_timestamp := stamp_time stamp |}.

(** The [try { ... } catch] block around [tool.execute(args)]. *)
Definition runTool (tool : RegisteredTool) (args : Args) : ToolResult :=
    match execute tool args with
    | inr result => result
    | inl message =>
        {| success := false; output := None;
           error := Some ("Tool execution failed: " ++ message) |}
    end.

Definition notApproved : ToolResult :=
    {| success := false; output := None;
       error := Some "Operation was not approved by user" |}.

Definition executeTool (toolRegistry : Registry) (stamp : Stamp)
      (toolName : string) (args : Args) (context : ToolExecutionContext)
      : list Effect * ToolResult :=
    match getTool toolRegistry toolName with
    | None =>
        ([], {| success := false; output := None;
                error := Some ("Unknown tool: " ++ toolName) |})
    | Some tool =>
        match needsApproval tool context, onApprovalRequest context with
        | true, Some approver =>
            let request := buildRequest tool toolName args stamp in
            if approver request
            then ([Prompted request; Executed toolName args], runTool tool args)
            else ([Prompted request], notApproved)
        | _, _ => ([Executed toolName args], runTool tool args)
        end
    end.

(** [createToolExecutor(context)] *)
Definition createToolExecutor (toolRegistry : Registry) (stamp : Stamp)
      (context : ToolExecutionContext) (toolName : string) (args : Args)
      : list Effect * string :=
    let '(effects, result) := executeTool toolRegistry stamp toolName args context in
    (effects,
     if success result
     then match output result with
          | Some o => if bool_decide (o = "") then "Success" else o
          | None => "Success"
          end
     else "Error: " ++ Js.show_opt (error result)).

Definition prompts (effects : list Effect) : list ApprovalRequest :=
    omap (fun e => match e with Prompted r => Some r | Executed _ _ => None end) effects.

Definition executions (effects : list Effect) : list (string * Args) :=
    omap (fun e => match e with Executed n a => Some (n, a) | Prompted _ => None end) effects.

End WithArgs.

Arguments ApprovalRequest : clear implicits.
Arguments RegisteredTool : clear implicits.
Arguments Registry : clear implicits.
Arguments Approver : clear implicits.
Arguments ToolExecutionContext : clear implicits.
Arguments Effect : clear implicits.

End Tools.

(** ** Messages, statistics, checkpoints and the session ([src/types.ts]) *)

Module Role.
Inductive t := system | user | assistant | tool.

#[global] Instance eq_dec : EqDecision t.
Proof. solve_decision. Defined.

(** [`${m.role}`] *)
Definition show (r : t) : string :=
    match r with
    | system => "system"
    | user => "user"
    | assistant => "assistant"
    | tool => "tool"
    end.
End Role.

(** The content of a [CoreMessage] is a string or an array of parts; the
    parts are kept as opaque strings. *)
Inductive Content :=
| StringContent (s : string)
| PartsContent (parts : list string).

Record Message := {
  role : Role.t;
  content : Content;
}.

Record SessionStats := {
  startTime : Z;
  promptTokens : Z;
  completionTokens : Z;
  totalTokens : Z;
  toolCalls : Z;
  fileReads : Z;
  fileWrites : Z;
  shellCommands : Z;
}.

Record CheckpointContext := {
  context_provider : string;
  context_model : string;
  context_workingDir : string;
}.

Record SessionCheckpoint := {
  checkpoint_id : string;
  tag : option string;
  timestamp : Z;
  checkpoint_messages : list Message;
  context : CheckpointContext;
  checkpoint_stats : SessionStats;
}.

Record Session := {
  session_id : string;
  checkpoints : list SessionCheckpoint;
  currentCheckpoint : Z;
  stats : SessionStats;
}.

Record LoadedContextFile := {
  file_path : string;
  file_content : string;
}.

Record ProviderInstance := {
  provider_name : string;
  provider_modelId : string;
}.

Record SandboxConfig := {
  mode : string;
}.

Record OmniConfig := {
  provider : string;
  model : string;
  sandbox : SandboxConfig;
  approvalPolicy : ApprovalPolicy;
  maxCheckpoints : option Z;
}.

#[global] Instance Content_eq_dec : EqDecision Content.
Proof. solve_decision. Defined.
#[global] Instance Message_eq_dec : EqDecision Message.
Proof. solve_decision. Defined.
#[global] Instance SessionStats_eq_dec : EqDecision SessionStats.
Proof. solve_decision. Defined.
#[global] Instance CheckpointContext_eq_dec : EqDecision CheckpointContext.
Proof. solve_decision. Defined.
#[global] Instance SessionCheckpoint_eq_dec : EqDecision SessionCheckpoint.
Proof. solve_decision. Defined.

(** ** The model connector (the AI SDK's [streamText]) *)

Module Connector.
Section WithArgs.

Context {Args : Type}.

(** [part.result] of a [tool-result] part: a string, [undefined], or
    another value, carried as its [JSON.stringify] image. *)
Inductive SdkValue :=
  | VString (s : string)
  | VUndefined
  | VJson (json : string).

(** The parts of [response.fullStream].  [other_part] is any part type
    the [switch] of [chat] has no case for. *)
Inductive StreamPart :=
  | text_delta (textDelta : string)
  | tool_call (toolName : string) (args : Args)
  | tool_result (toolName : string) (args : Args) (result : SdkValue)
  | other_part (type : string).

Record Usage := {
    usage_promptTokens : Z;
    usage_completionTokens : Z;
    usage_totalTokens : Z;
  }.

(** What [chat] sees of one [streamText] call: the call itself rejects,
    or the stream yields [parts] and then either fails (the iterator
    throws, or [response.usage] rejects) or ends with the usage. *)
Inductive StreamOutcome :=
  | StartFailed (e : Error)
  | Streamed (parts : list StreamPart) (final : Error + Usage).

(** One entry of the [tools] object given to [streamText].  The callback
    gets, besides the arguments, the clock and random source as they
    are when it runs. *)
Record ToolDefinition := {
    def_description : string;
    def_execute : Tools.Stamp -> Args -> list (Tools.Effect Args) * SdkValue;
  }.

Record Request := {
    request_model : ProviderInstance;
    request_messages : list Message;
    request_tools : gmap string ToolDefinition;
    maxSteps : Z;
  }.

Definition ModelConnector := Request -> list (Tools.Effect Args) * StreamOutcome.

End WithArgs.

Arguments SdkValue : clear implicits.
Arguments StreamPart : clear implicits.
Arguments StreamOutcome : clear implicits.
Arguments ToolDefinition : clear implicits.
Arguments Request : clear implicits.
Arguments ModelConnector : clear implicits.

End Connector.

(** ** The agent ([src/agent.ts]) *)

Module AgentCore.
Import Connector.
Section WithEnvironment.

Context {Args : Type} (stringify : Args -> string).

(** [formatContextForPrompt] lives in [src/config/index.ts] and
    [process.platform] in the runtime; both are parameters here. *)
Context (formatContextForPrompt : list LoadedContextFile -> string).
Context (platform : string).

(** The module-level [toolRegistry], as it is after
    [initializeBuiltInTools] and any later [registerTool]. *)
Context (toolRegistry : Tools.Registry Args).

Record AgentOptions := {
    onApprovalRequest : option (Tools.Approver Args);
  }.

Record AgentResponse := {
    response_content : string;
    response_toolCalls : list (string * Args * ToolResult);
    response_usage : Usage;
  }.

Record Agent := {
    config : OmniConfig;
    workspaceDir : string;
    agent_provider : option ProviderInstance;
    session : Session;
    messages : list Message;
    contextFiles : list LoadedContextFile;
    options : AgentOptions;
  }.

Definition set_messages (ms : list Message) (a : Agent) : Agent :=
    {| config := config a; workspaceDir := workspaceDir a;
       agent_provider := agent_provider a; session := session a;
       messages := ms; contextFiles := contextFiles a; options := options a |}.

Definition set_session (s : Session) (a : Agent) : Agent :=
    {| config := config a; workspaceDir := workspaceDir a;
       agent_provider := agent_provider a; session := s;
       messages := messages a; contextFiles := contextFiles a; options := options a |}.

Definition set_stats (st : SessionStats) (s : Session) : Session :=
    {| session_id := session_id s; checkpoints := checkpoints s;
       currentCheckpoint := currentCheckpoint s; stats := st |}.

Definition buildSystemPrompt (cfg : OmniConfig) (files : list LoadedContextFile)
      (dir : string) : string :=
    let contextSection := formatContextForPrompt files in
    "You are Omni, a powerful AI coding assistant running in the terminal.

## Capabilities
- Read, write, and edit files
- Execute shell commands
- Search the web for information
- Use MCP (Model Context Protocol) tools
- Help with coding, debugging, and system tasks

## Current Environment
- Working Directory: " ++ dir ++ "
- Sandbox Mode: " ++ mode (sandbox cfg) ++ "
- Platform: " ++ platform ++ "

## Guidelines
1. Be concise and direct in responses
2. Use tools to accomplish tasks rather than just explaining
3. Always verify file contents before editing
4. Ask for clarification when requirements are unclear
5. Respect sandbox restrictions

## Tool Usage
- Use read_file to examine file contents
- Use write_file to create or overwrite files
- Use edit_file for targeted changes
- Use shell for command execution
- Use web_search for current information

" ++ (if bool_decide (contextSection = "") then ""
      else Js.nl ++ "## Project Context" ++ Js.nl ++ contextSection) ++ "

When helping with code:
- Write clean, well-documented code
- Follow the project's existing style
- Consider edge cases and error handling
- Test your changes when possible".

Definition createInitialStats (now : Z) : SessionStats :=
    {| startTime := now; promptTokens := 0; completionTokens := 0;
       totalTokens := 0; toolCalls := 0; fileReads := 0; fileWrites := 0;
       shellCommands := 0 |}.

(** [new Agent(options)]: [uuid] is the [uuidv4()] drawn for the session,
    [now] the clock, [loaded] what [loadContextFiles] finds on disk. *)
Definition constructor (uuid : string) (now : Z) (loaded : list LoadedContextFile)
      (cfg : OmniConfig) (dir : string) (given : option ProviderInstance)
      (opts : AgentOptions) : Agent :=
    {| config := cfg; workspaceDir := dir; agent_provider := given;
       session := {| session_id := uuid; checkpoints := []; currentCheckpoint := 0;
                     stats := createInitialStats now |};
       messages := []; contextFiles := loaded; options := opts |}.

Definition systemMessageOf (a : Agent) (files : list LoadedContextFile) : Message :=
    {| role := Role.system;
       content := StringContent (buildSystemPrompt (config a) files (workspaceDir a)) |}.

(** [initialize()]: [created] is what [createProvider] yields; it is
    consulted only when no provider is set yet. *)
Definition initialize (created : Error + ProviderInstance) (a : Agent)
      : Agent * (Error + unit) :=
    let ready (p : ProviderInstance) :=
      ({| config := config a; workspaceDir := workspaceDir a;
          agent_provider := Some p; session := session a;
          messages := [systemMessageOf a (contextFiles a)];
          contextFiles := contextFiles a; options := options a |}, inr tt) in
    match agent_provider a with
    | Some p => ready p
    | None =>
        match created with
        | inl e => (a, inl e)
        | inr p => ready p
        end
    end.

(** [updateToolStats(toolName)] *)
Definition updateToolStats (toolName : string) (st : SessionStats) : SessionStats :=
    let st1 :=
      {| startTime := startTime st; promptTokens := promptTokens st;
         completionTokens := completionTokens st; totalTokens := totalTokens st;
         toolCalls := toolCalls st + 1; fileReads := fileReads st;
         fileWrites := fileWrites st; shellCommands := shellCommands st |} in
    if Js.includes toolName "read_file" || Js.includes toolName "list_directory" then
      {| startTime := startTime st1; promptTokens := promptTokens st1;
         completionTokens := completionTokens st1; totalTokens := totalTokens st1;
         toolCalls := toolCalls st1; fileReads := fileReads st1 + 1;
         fileWrites := fileWrites st1; shellCommands := shellCommands st1 |}
    else if Js.includes toolName "write_file" || Js.includes toolName "edit_file" then
      {| startTime := startTime st1; promptTokens := promptTokens st1;
         completionTokens := completionTokens st1; totalTokens := totalTokens st1;
         toolCalls := toolCalls st1; fileReads := fileReads st1;
         fileWrites := fileWrites st1 + 1; shellCommands := shellCommands st1 |}
    else if bool_decide (toolName = "shell") || Js.includes toolName "process" then
      {| startTime := startTime st1; promptTokens := promptTokens st1;
         completionTokens := completionTokens st1; totalTokens := totalTokens st1;
         toolCalls := toolCalls st1; fileReads := fileReads st1;
         fileWrites := fileWrites st1; shellCommands := shellCommands st1 + 1 |}
    else st1.

(** [buildToolDefinitions()].  Every entry of the registry is stored
    under its own name ([registerTool]), so the object built from
    [getAllTools()] has the registry's keys. *)
Definition buildToolDefinitions (a : Agent) : gmap string (ToolDefinition Args) :=
    (fun t : Tools.RegisteredTool Args =>
       {| def_description := Tools.description t;
          def_execute := fun stamp args =>
            let '(effects, result) :=
              Tools.executeTool stringify toolRegistry stamp (Tools.name t) args
                {| Tools.approvalPolicy := approvalPolicy (config a);
                   Tools.onApprovalRequest := onApprovalRequest (options a) |} in
            (effects,
             if success result
             then match output result with
                  | Some o => VString o
                  | None => VUndefined
                  end
             else VString ("Error: " ++ Js.show_opt (error result))) |})
    <$> toolRegistry.

(** The local variables of [chat] that the stream loop updates, together
    with the session statistics. *)
Record LoopState := {
    fullContent : string;
    seenToolCalls : list (string * Args * ToolResult);
    loop_stats : SessionStats;
  }.

(** [typeof part.result === 'string' ? part.result : JSON.stringify(part.result)] *)
Definition resultOutput (v : SdkValue) : option string :=
    match v with
    | VString s => Some s
    | VUndefined => None
    | VJson json => Some json
    end.

(** One iteration of [for await (const part of response.fullStream)]. *)
Definition processPart (st : LoopState) (part : StreamPart Args) : LoopState :=
    match part with
    | text_delta textDelta =>
        {| fullContent := fullContent st ++ textDelta;
           seenToolCalls := seenToolCalls st; loop_stats := loop_stats st |}
    | tool_call toolName _ =>
        {| fullContent := fullContent st; seenToolCalls := seenToolCalls st;
           loop_stats := updateToolStats toolName (loop_stats st) |}
    | tool_result toolName args v =>
        let result := {| success := true; output := resultOutput v; error := None |} in
        {| fullContent := fullContent st;
           seenToolCalls := seenToolCalls st ++ [(toolName, args, result)];
           loop_stats := loop_stats st |}
    | other_part _ => st
    end.

Definition addUsage (u : Usage) (st : SessionStats) : SessionStats :=
    {| startTime := startTime st;
       promptTokens := promptTokens st + usage_promptTokens u;
       completionTokens := completionTokens st + usage_completionTokens u;
       totalTokens := totalTokens st + usage_totalTokens u;
       toolCalls := toolCalls st; fileReads := fileReads st;
       fileWrites := fileWrites st; shellCommands := shellCommands st |}.

(** The argument object of the [streamText] call of [chat]. *)
Definition chatRequest (p : ProviderInstance) (a : Agent) : Request Args :=
    {| request_model := p;
       request_messages := messages a;
       request_tools := buildToolDefinitions a;
       maxSteps := 10 |}.

(** [this.messages.push({ role: 'user', content: userMessage })] *)
Definition pushUser (userMessage : string) (a : Agent) : Agent :=
    set_messages
      (messages a ++ [{| role := Role.user; content := StringContent userMessage |}]) a.

(** [chat(userMessage)] against the connector [streamText]. *)
Definition chat (streamText : ModelConnector Args) (userMessage : string) (a : Agent)
      : Agent * list (Tools.Effect Args) * (Error + AgentResponse) :=
    match agent_provider a with
    | None => (a, [], inl "Agent not initialized. Call initialize() first.")
    | Some p =>
        let a1 := pushUser userMessage a in
        let '(effects, outcome) := streamText (chatRequest p a1) in
        match outcome with
        | StartFailed e => (a1, effects, inl e)
        | Streamed parts final =>
            let st :=
              fold_left processPart parts
                {| fullContent := ""; seenToolCalls := [];
                   loop_stats := stats (session a1) |} in
            let a2 := set_session (set_stats (loop_stats st) (session a1)) a1 in
            match final with
            | inl e => (a2, effects, inl e)
            | inr u =>
                let a3 := set_session (set_stats (addUsage u (stats (session a2))) (session a2)) a2 in
                (set_messages
                   (messages a3 ++
                      [{| role := Role.assistant; content := StringContent (fullContent st) |}]) a3,
                 effects,
                 inr {| response_content := fullContent st;
                        response_toolCalls := seenToolCalls st;
                        response_usage := u |})
            end
        end
    end.

(** [saveCheckpoint(tag)]: [uuid] is the [uuidv4()] drawn for the
    checkpoint and [now] the clock. *)
Definition saveCheckpoint (uuid : string) (now : Z) (tag_ : option string) (a : Agent)
      : Agent * SessionCheckpoint :=
    let checkpoint :=
      {| checkpoint_id := uuid; tag := tag_; timestamp := now;
         checkpoint_messages := messages a;
         context := {| context_provider := provider (config a);
                       context_model := model (config a);
                       context_workingDir := workspaceDir a |};
         checkpoint_stats := stats (session a) |} in
    let pushed := (checkpoints (session a) ++ [checkpoint])%list in
    let current := Z.of_nat (length pushed) - 1 in
    let s :=
      if Z.of_nat (length pushed) >? Js.num_or (maxCheckpoints (config a)) 10
      then {| session_id := session_id (session a); checkpoints := drop 1 pushed;
              currentCheckpoint := current - 1; stats := stats (session a) |}
      else {| session_id := session_id (session a); checkpoints := pushed;
              currentCheckpoint := current; stats := stats (session a) |} in
    (set_session s a, checkpoint).

(** The predicate [c => c.id === idOrTag || c.tag === idOrTag]. *)
Definition matches (idOrTag : string) (c : SessionCheckpoint) : bool :=
    bool_decide (checkpoint_id c = idOrTag) || bool_decide (tag c = Some idOrTag).

(** [l.indexOf(x)]: [-1] when [x] is absent. *)
Fixpoint indexOf {A} `{EqDecision A} (x : A) (l : list A) : Z :=
    match l with
    | [] => -1
    | y :: l' =>
        if bool_decide (y = x) then 0
        else let i := indexOf x l' in if i <? 0 then -1 else i + 1
    end.

(** [restoreCheckpoint(idOrTag)] *)
Definition restoreCheckpoint (idOrTag : string) (a : Agent) : Agent * bool :=
    match List.find (matches idOrTag) (checkpoints (session a)) with
    | None => (a, false)
    | Some checkpoint =>
        let s :=
          {| session_id := session_id (session a);
             checkpoints := checkpoints (session a);
             currentCheckpoint := indexOf checkpoint (checkpoints (session a));
             stats := stats (session a) |} in
        (set_session s (set_messages (checkpoint_messages checkpoint) a), true)
    end.

(** One line of the summary built by [compact]. *)
Definition summaryLine (m : Message) : string :=
    Role.show (role m) ++ ": " ++
    match content m with
    | StringContent s => Js.str_take 200 s
    | PartsContent _ => "[complex content]"
    end.

Definition summaryMessage (oldMessages : list Message) : Message :=
    {| role := Role.system;
       content :=
         StringContent
           ("[Previous conversation summary]" ++ Js.nl ++
            Js.join Js.nl (summaryLine <$> oldMessages) ++ Js.nl ++
            "[End summary]") |}.

(** [compact()] *)
Definition compact (a : Agent) : Agent :=
    if Z.of_nat (length (messages a)) <=? 4 then a
    else
      match messages a with
      | [] => a
      | systemMessage :: _ =>
          let recentMessages := Js.slice (-4) None (messages a) in
          let oldMessages := Js.slice 1 (Some (-4)) (messages a) in
          if bool_decide (length oldMessages = 0%nat) then a
          else
            set_messages
              ([systemMessage; summaryMessage oldMessages] ++ recentMessages) a
      end.

(** [clear()]: [now] is the clock.  On an empty conversation the code
    stores [[undefined]], which is no list of messages: [None]. *)
Definition clear (now : Z) (a : Agent) : option Agent :=
    match messages a with
    | [] => None
    | systemMessage :: _ =>
        Some (set_session (set_stats (createInitialStats now) (session a))
                (set_messages [systemMessage] a))
    end.

(** [switchProvider(providerName, modelId)]: [created] is what
    [createProvider] yields. *)
Definition switchProvider (created : Error + ProviderInstance)
      (providerName : string) (modelId : option string) (a : Agent)
      : Agent * (Error + unit) :=
    match created with
    | inl e => (a, inl e)
    | inr p =>
        let cfg :=
          {| provider := providerName;
             model := match modelId with
                      | Some m => if bool_decide (m = "") then model (config a) else m
                      | None => model (config a)
                      end;
             sandbox := sandbox (config a);
             approvalPolicy := approvalPolicy (config a);
             maxCheckpoints := maxCheckpoints (config a) |} in
        ({| config := cfg; workspaceDir := workspaceDir a;
            agent_provider := Some p; session := session a;
            messages := messages a; contextFiles := contextFiles a;
            options := options a |}, inr tt)
    end.

(** [refreshContext()]: [loaded] is what [loadContextFiles] finds. *)
Definition refreshContext (loaded : list LoadedContextFile) (a : Agent)
      : Agent * list LoadedContextFile :=
    let a1 :=
      {| config := config a; workspaceDir := workspaceDir a;
         agent_provider := agent_provider a; session := session a;
         messages := messages a; contextFiles := loaded; options := options a |} in
    (match messages a1 with
     | first :: rest =>
         if bool_decide (role first = Role.system)
         then set_messages (systemMessageOf a1 loaded :: rest) a1
         else a1
     | [] => a1
     end, loaded).

(** [createAgent(options)] *)
Definition createAgent (uuid : string) (now : Z) (loaded : list LoadedContextFile)
      (created : Error + ProviderInstance)
      (cfg : OmniConfig) (dir : string) (given : option ProviderInstance)
      (opts : AgentOptions) : Error + Agent :=
    let agent := constructor uuid now loaded cfg dir given opts in
    match initialize created agent with
    | (agent', inr _) => inr agent'
    | (_, inl e) => inl e
    end.

(** *** Operations and reachable agents *)

(** One call on an agent, with everything the call takes from its
    surroundings. *)
Inductive Operation :=
  | op_initialize (created : Error + ProviderInstance)
  | op_chat (streamText : ModelConnector Args) (userMessage : string)
  | op_saveCheckpoint (uuid : string) (now : Z) (tag_ : option string)
  | op_restoreCheckpoint (idOrTag : string)
  | op_compact
  | op_clear (now : Z)
  | op_switchProvider (created : Error + ProviderInstance)
      (providerName : string) (modelId : option string)
  | op_refreshContext (loaded : list LoadedContextFile).

(** The agent after the call; [None] when the call leaves the agent
    outside the model ([clear] on an empty conversation). *)
Definition apply (op : Operation) (a : Agent) : option Agent :=
    match op with
    | op_initialize created => Some (initialize created a).1
    | op_chat streamText userMessage => Some (chat streamText userMessage a).1.1
    | op_saveCheckpoint uuid now tag_ => Some (saveCheckpoint uuid now tag_ a).1
    | op_restoreCheckpoint idOrTag => Some (restoreCheckpoint idOrTag a).1
    | op_compact => Some (compact a)
    | op_clear now => clear now a
    | op_switchProvider created providerName modelId =>
        Some (switchProvider created providerName modelId a).1
    | op_refreshContext loaded => Some (refreshContext loaded a).1
    end.

(** Agents as [createAgent] returns them, and after any calls. *)
Inductive reachable : Agent -> Prop :=
  | reachable_created uuid now loaded created cfg dir given opts a :
      createAgent uuid now loaded created cfg dir given opts = inr a ->
      reachable a
  | reachable_step op a a' :
      reachable a -> apply op a = Some a' -> reachable a'.

End WithEnvironment.
End AgentCore.

(** ** The AI SDK's tool loop, against a scripted model

    [streamText] of the [ai] package is not code of this repository.  This
    is its documented behaviour, used to run [chat] end to end: the model
    is called in rounds ("steps", at most [maxSteps] of them); the text of
    a round is streamed as [text-delta] parts; for every tool call of a
    round the SDK emits a [tool-call] part, runs the [execute] callback of
    the named tool and emits a [tool-result] part with what it returned.
    A call to a name that is not in [tools] ends the stream with an error. *)

Module Sdk.
Import Connector.
Section WithArgs.

Context {Args : Type}.

Inductive ModelAction :=
  | say (text : string)
  | request_tool (toolName : string) (args : Args) (stamp : Tools.Stamp).

(** One round trip to the model. *)
Definition Step := list ModelAction.

Fixpoint runActions (tools : gmap string (ToolDefinition Args)) (acts : list ModelAction)
      : list (Tools.Effect Args) * list (StreamPart Args) * option Error :=
    match acts with
    | [] => ([], [], None)
    | say text :: rest =>
        let '(effects, parts, failure) := runActions tools rest in
        (effects, text_delta text :: parts, failure)
    | request_tool toolName args stamp :: rest =>
        match tools !! toolName with
        | None => ([], [], Some ("NoSuchToolError: " ++ toolName))
        | Some definition =>
            let '(effects0, value) := def_execute definition stamp args in
            let '(effects, parts, failure) := runActions tools rest in
            ((effects0 ++ effects)%list,
             tool_call toolName args :: tool_result toolName args value :: parts,
             failure)
        end
    end.

Definition streamText (script : list Step) (u : Usage) : ModelConnector Args :=
    fun request =>
      let steps := take (Z.to_nat (maxSteps request)) script in
      let '(effects, parts, failure) := runActions (request_tools request) (concat steps) in
      (effects,
       Streamed parts match failure with
                      | Some e => inl e
                      | None => inr u
                      end).

End WithArgs.

Arguments ModelAction : clear implicits.
Arguments Step : clear implicits.

End Sdk.

(** ** Reading a stream: what [chat] makes of the parts *)

Module Parts.
Import Connector.
Section WithArgs.

Context {Args : Type}.

(** The text deltas of a stream, in order, concatenated. *)
Fixpoint text (parts : list (StreamPart Args)) : string :=
    match parts with
    | [] => ""
    | text_delta t :: rest => t ++ text rest
    | _ :: rest => text rest
    end.

(** The names of the [tool-call] parts, in order. *)
Definition calls (parts : list (StreamPart Args)) : list string :=
    omap (fun part => match part with
                      | tool_call toolName _ => Some toolName
                      | _ => None
                      end) parts.

(** The [tool-result] parts, in order. *)
Definition results (parts : list (StreamPart Args)) : list (string * Args * SdkValue) :=
    omap (fun part => match part with
                      | tool_result toolName args v => Some (toolName, args, v)
                      | _ => None
                      end) parts.

(** The entry [chat] pushes to [toolCalls] for a [tool-result] part. *)
Definition recorded (r : string * Args * SdkValue) : string * Args * ToolResult :=
    let '(toolName, args, v) := r in
    (toolName, args,
     {| success := true; output := AgentCore.resultOutput v; error := None |}).

(** The part through which the SDK reports a failure of the provider's
    stream, [{ type: 'error', error }].  The [switch] of [chat] has no
    case for it. *)
Definition error_part : StreamPart Args := other_part "error".

(** The failure of a stream, if it has one. *)
Definition failure (outcome : StreamOutcome Args) : option Error :=
    match outcome with
    | StartFailed e => Some e
    | Streamed _ (inl e) => Some e
    | Streamed _ (inr _) => None
    end.

End WithArgs.
End Parts.

(** ** Checkpoint lists: sequences of saves, and lookup as the
    specification words it *)

Module Checkpoints.
Import AgentCore.
Section WithArgs.

Context {Args : Type}.

(** The effective maximum, [this.config.maxCheckpoints || 10]. *)
Definition limit (a : @Agent Args) : Z := Js.num_or (maxCheckpoints (config a)) 10.

(** A sequence of [saveCheckpoint] calls, each with its uuid, clock and tag. *)
Definition saveAll (saves : list (string * Z * option string)) (a : @Agent Args)
      : @Agent Args :=
    fold_left (fun b '(uuid, now, tag_) => (saveCheckpoint uuid now tag_ b).1) saves a.

(** No checkpoint carries as its tag the id of a later checkpoint.  The
    ids are drawn by [uuidv4()] after the earlier tags were chosen. *)
Definition tags_precede_ids (cps : list SessionCheckpoint) : Prop :=
    forall (i j : nat) c d,
      (i < j)%nat -> cps !! i = Some c -> cps !! j = Some d ->
      tag c <> Some (checkpoint_id d).

(** [uuid] is new to a checkpoint list: no id and no tag equals it. *)
Definition fresh (uuid : string) (cps : list SessionCheckpoint) : Prop :=
    forall c, c ∈ cps -> checkpoint_id c <> uuid /\ tag c <> Some uuid.

(** Lookup in the specification's words: by id first, then by tag.
    The result is the checkpoint and its position. *)
Definition lookupByIdThenTag (idOrTag : string) (cps : list SessionCheckpoint)
      : option (nat * SessionCheckpoint) :=
    match list_find (fun c => checkpoint_id c = idOrTag) cps with
    | Some found => Some found
    | None => list_find (fun c => tag c = Some idOrTag) cps
    end.

(** The agent with the conversation of checkpoint [c] at position [i]. *)
Definition restored (i : nat) (c : SessionCheckpoint) (a : @Agent Args) : @Agent Args :=
    set_session
      {| session_id := session_id (session a);
         checkpoints := checkpoints (session a);
         currentCheckpoint := Z.of_nat i;
         stats := stats (session a) |}
      (set_messages (checkpoint_messages c) a).

(** [restoreCheckpoint] in the specification's words. *)
Definition restoreByIdThenTag (idOrTag : string) (a : @Agent Args) : @Agent Args * bool :=
    match lookupByIdThenTag idOrTag (checkpoints (session a)) with
    | None => (a, false)
    | Some (i, c) => (restored i c a, true)
    end.

End WithArgs.
End Checkpoints.

(** ** Message objects by reference

    The agent above holds a conversation by value, as a list of messages.
    In the code it is an array of references to message objects, and
    [getMessages()] and [getSession()] hand the arrays, and so the
    objects, to the caller.  This module keeps the references, for what
    [restoreCheckpoint] does to arrays and objects. *)

Module ByReference.
Import AgentCore.

Definition Ref := nat.

(** A checkpoint with its [messages] array.  [restoreCheckpoint] reads
    no other field of a checkpoint than these three. *)
Record Checkpoint := {
  ref_id : string;
  ref_tag : option string;
  ref_messages : list Ref;
}.

#[global] Instance Checkpoint_eq_dec : EqDecision Checkpoint.
Proof. solve_decision. Defined.

(** The message objects, [this.messages], [this.session.checkpoints] and
    [this.session.currentCheckpoint]. *)
Record Memory := {
  objects : gmap Ref Message;
  live : list Ref;
  saved : list Checkpoint;
  current : Z;
}.

Definition matches (idOrTag : string) (c : Checkpoint) : bool :=
  bool_decide (ref_id c = idOrTag) || bool_decide (ref_tag c = Some idOrTag).

(** [restoreCheckpoint(idOrTag)].  [[...checkpoint.messages]] is a new
    array holding the references of the checkpoint's array; no message
    object is created or written. *)
Definition restoreCheckpoint (idOrTag : string) (mem : Memory) : Memory * bool :=
  match List.find (matches idOrTag) (saved mem) with
  | None => (mem, false)
  | Some checkpoint =>
      ({| objects := objects mem;
          live := ref_messages checkpoint;
          saved := saved mem;
          current := indexOf checkpoint (saved mem) |}, true)
  end.

(** [message.content = c], by whoever holds the object at [r]. *)
Definition setContent (r : Ref) (c : Content) (mem : Memory) : Memory :=
  {| objects := alter (fun m => {| role := role m; content := c |}) r (objects mem);
     live := live mem; saved := saved mem; current := current mem |}.

(** The messages an array of references holds. *)
Definition deref (mem : Memory) (refs : list Ref) : list Message :=
  omap (fun r => objects mem !! r) refs.

(** The by-value checkpoint [c] is what [held] holds. *)
Definition reads (mem : Memory) (c : SessionCheckpoint) (held : Checkpoint) : Prop :=
  checkpoint_id c = ref_id held
  /\ tag c = ref_tag held
  /\ checkpoint_messages c = deref mem (ref_messages held).

(** The by-value agent [a] is what the memory holds. *)
Definition represents {Args : Type} (mem : Memory) (a : @Agent Args) : Prop :=
  messages a = deref mem (live mem)
  /\ currentCheckpoint (session a) = current mem
  /\ Forall2 (reads mem) (checkpoints (session a)) (saved mem).

End ByReference.

(** ** Conversations that start with the system message *)

Module Conversation.
Import AgentCore.
Section WithArgs.

Context {Args : Type}.

(** The message at index 0 exists and has role [system]. *)
Definition system_first (ms : list Message) : Prop :=
  exists m, ms !! 0%nat = Some m /\ role m = Role.system.

(** The invariant of the agent: the live conversation and the
    conversation of every checkpoint start with the system message. *)
Definition well_formed (a : @Agent Args) : Prop :=
  system_first (messages a)
  /\ Forall (fun c => system_first (checkpoint_messages c)) (checkpoints (session a)).

(** The calls that write index 0: [initialize] sets it, [refreshContext]
    replaces it, [restoreCheckpoint] brings back the one of the
    checkpoint.  Every other call leaves it as it is. *)
Definition writes_system (op : @Operation Args) : bool :=
  match op with
  | op_initialize _ | op_restoreCheckpoint _ | op_refreshContext _ => true
  | _ => false
  end.

End WithArgs.
End Conversation.

(** ** A concrete setting, for running the code *)

Module Demo.
Import Connector AgentCore.

(** Tool arguments as their JSON text. *)
Definition Args := string.
Definition stringify (args : Args) : string := args.

Definition ok (text : string) : Error + ToolResult :=
    inr {| success := true; output := Some text; error := None |}.

(** Tools as [initializeBuiltInTools] registers them: [requiresApproval]
    for a file tool whose name includes write, edit or delete, for every
    shell tool, and not for [think]. *)
Definition delete_file : Tools.RegisteredTool Args :=
    {| Tools.name := "delete_file"; Tools.category := cat_file;
       Tools.description := "Delete a file"; Tools.requiresApproval := true;
       Tools.execute := fun _ => ok "deleted" |}.

Definition list_directory : Tools.RegisteredTool Args :=
    {| Tools.name := "list_directory"; Tools.category := cat_file;
       Tools.description := "List a directory"; Tools.requiresApproval := false;
       Tools.execute := fun _ => ok "a.txt" |}.

Definition shell : Tools.RegisteredTool Args :=
    {| Tools.name := "shell"; Tools.category := cat_shell;
       Tools.description := "Run a shell command"; Tools.requiresApproval := true;
       Tools.execute := fun _ => ok "done" |}.

Definition think : Tools.RegisteredTool Args :=
    {| Tools.name := "think"; Tools.category := cat_system;
       Tools.description := "Use this tool to think through complex problems step by step";
       Tools.requiresApproval := false;
       Tools.execute := fun thought => ok ("Thought: " ++ thought) |}.

Definition toolRegistry : Tools.Registry Args :=
    Tools.registerTool think
      (Tools.registerTool shell
         (Tools.registerTool list_directory
            (Tools.registerTool delete_file ∅))).

Definition stamp : Tools.Stamp := {| Tools.stamp_id := "1700000000000-k3x9"; Tools.stamp_time := 1700000000000 |}.

Definition formatContextForPrompt (files : list LoadedContextFile) : string := "".
Definition platform : string := "linux".

(** A formatter that shows which files are loaded. *)
Definition formatPaths (files : list LoadedContextFile) : string :=
    Js.join ", " (file_path <$> files).

Definition cfg (policy : ApprovalPolicy) (limit : option Z) : OmniConfig :=
    {| provider := "openai"; model := "gpt-4o"; sandbox := {| mode := "workspace-write" |};
       approvalPolicy := policy; maxCheckpoints := limit |}.

Definition openai : ProviderInstance :=
    {| provider_name := "openai"; provider_modelId := "gpt-4o" |}.

Definition deny : Tools.Approver Args := fun _ => false.
Definition allow : Tools.Approver Args := fun _ => true.

(** An agent as [new Agent(options)] leaves it, without a provider. *)
Definition fresh (policy : ApprovalPolicy) (limit : option Z)
      (approver : option (Tools.Approver Args)) : Agent :=
    constructor "session-1" 0 [] (cfg policy limit) "/work" None
      {| onApprovalRequest := approver |}.

(** The same agent after [initialize()]. *)
Definition ready (policy : ApprovalPolicy) (limit : option Z)
      (approver : option (Tools.Approver Args)) : Agent :=
    (initialize formatContextForPrompt platform (inr openai) (fresh policy limit approver)).1.

Definition usage : Usage :=
    {| usage_promptTokens := 12; usage_completionTokens := 30; usage_totalTokens := 42 |}.

Definition msg (r : Role.t) (text : string) : Message :=
    {| role := r; content := StringContent text |}.

(** A model that asks for [n] tool calls in one round. *)
Definition burst (n : nat) : list (Sdk.Step Args) :=
    [replicate n (Sdk.request_tool "think" "{}" stamp) ++ [Sdk.say "done"]]%list.

(** A model that asks for one tool call per round, [n] rounds. *)
Definition chain (n : nat) : list (Sdk.Step Args) :=
    replicate n [Sdk.request_tool "think" "{}" stamp].

Definition checkpoint (id : string) (tag_ : option string) (ms : list Message)
      : SessionCheckpoint :=
    {| checkpoint_id := id; tag := tag_; timestamp := 0; checkpoint_messages := ms;
       context := {| context_provider := "openai"; context_model := "gpt-4o";
                     context_workingDir := "/work" |};
       checkpoint_stats := createInitialStats 0 |}.

Definition withCheckpoints (cps : list SessionCheckpoint) (a : @Agent Args) : @Agent Args :=
    set_session
      {| session_id := session_id (session a); checkpoints := cps;
         currentCheckpoint := currentCheckpoint (session a); stats := stats (session a) |} a.

End Demo.

(** ** More JavaScript string primitives *)

Module JsString.

(** [s.startsWith(p)] *)
Definition startsWith (s p : string) : bool := String.prefix p s.

(** A string in a condition: the empty string is falsy. *)
Definition truthy (s : string) : bool := negb (bool_decide (s = "")).

(** [a || b] on optional strings: [undefined] and [''] are falsy. *)
Definition str_or (a : option string) (b : option string) : option string :=
  match a with
  | Some s => if truthy s then Some s else b
  | None => b
  end.

(** [s.split(sep)] for a separator of one character. *)
Fixpoint split (sep : ascii) (s : string) : list string :=
  match s with
  | EmptyString => [""]
  | String c s' =>
      if bool_decide (c = sep) then "" :: split sep s'
      else match split sep s' with
           | first :: rest => String c first :: rest
           | [] => [String c ""]
           end
  end.

(** [s.slice(n)] for [n >= 0]. *)
Fixpoint drop (n : nat) (s : string) : string :=
  match n, s with
  | O, _ => s
  | S n', String _ s' => drop n' s'
  | S _, EmptyString => ""
  end.

(** [toLowerCase] on one code unit, for the letters A to Z. *)
Definition lower (c : ascii) : ascii :=
  let n := nat_of_ascii c in
  if (65 <=? n)%nat && (n <=? 90)%nat then ascii_of_nat (n + 32) else c.

(** [s.toLowerCase()], on the letters A to Z. *)
Fixpoint toLowerCase (s : string) : string :=
  match s with
  | EmptyString => ""
  | String c s' => String (lower c) (toLowerCase s')
  end.

(** The property names every object literal inherits from
    [Object.prototype]. *)
Definition objectPrototypeKeys : list string :=
  ["constructor"; "__defineGetter__"; "__defineSetter__"; "hasOwnProperty";
   "__lookupGetter__"; "__lookupSetter__"; "isPrototypeOf";
   "propertyIsEnumerable"; "toString"; "valueOf"; "__proto__"; "toLocaleString"].

(** [table[key]] on an object literal: an own property, a property
    inherited from [Object.prototype] (a function or an object, truthy), or
    [undefined]. *)
Inductive Lookup (A : Type) :=
| Own (a : A)
| Inherited
| Missing.
Arguments Own {A} a.
Arguments Inherited {A}.
Arguments Missing {A}.

Fixpoint assoc {A} (table : list (string * A)) (key : string) : option A :=
  match table with
  | [] => None
  | (k, v) :: rest => if bool_decide (k = key) then Some v else assoc rest key
  end.

Definition getProp {A} (table : list (string * A)) (key : string) : Lookup A :=
  match assoc table key with
  | Some v => Own v
  | None => if bool_decide (key ∈ objectPrototypeKeys) then Inherited else Missing
  end.

(** [key in table] *)
Definition hasProp {A} (table : list (string * A)) (key : string) : bool :=
  match getProp table key with
  | Missing => false
  | _ => true
  end.

End JsString.

(** ** The built-in tools ([initializeBuiltInTools], [src/tools/index.ts]) *)

Module Builtin.
Import Tools.
Section WithArgs.

Context {Args : Type}.

(** [args.thought] of the [think] tool, [undefined] when absent. *)
Context (thought : Args -> option string).

(** An entry of [fileTools], [shellTools] or [webTools]: the modules
    [./file.js], [./shell.js] and [./web.js] are parameters. *)
Record ToolImpl := {
    impl_description : string;
    impl_execute : Args -> Error + ToolResult;
  }.

(** The [requiresApproval] of a file tool. *)
Definition fileNeedsApproval (toolName : string) : bool :=
  Js.includes toolName "write" || Js.includes toolName "edit"
  || Js.includes toolName "delete".

(** One [for (const [name, tool] of Object.entries(...))] loop. *)
Definition registerEntries (cat : ToolCategory) (approval : string -> bool)
    (entries : list (string * ToolImpl)) (toolRegistry : Registry Args) : Registry Args :=
  fold_left
    (fun registry '(toolName, impl) =>
       registerTool
         {| name := toolName; category := cat;
            description := impl_description impl;
            requiresApproval := approval toolName;
            execute := impl_execute impl |} registry)
    entries toolRegistry.

Definition thinkTool : RegisteredTool Args :=
  {| name := "think"; category := cat_system;
     description := "Use this tool to think through complex problems step by step";
     requiresApproval := false;
     execute := fun args =>
       inr {| success := true;
              output := Some ("Thought: " ++ Js.show_opt (thought args));
              error := None |} |}.

Definition initializeBuiltInTools (fileTools shellTools webTools : list (string * ToolImpl))
    (toolRegistry : Registry Args) : Registry Args :=
  registerTool thinkTool
    (registerEntries cat_web (fun _ => false) webTools
       (registerEntries cat_shell (fun _ => true) shellTools
          (registerEntries cat_file fileNeedsApproval fileTools toolRegistry))).

(** Every entry is stored under the name of its tool. *)
Definition keyed_by_name (toolRegistry : Registry Args) : Prop :=
  forall key tool, toolRegistry !! key = Some tool -> name tool = key.

End WithArgs.

Arguments ToolImpl : clear implicits.

End Builtin.

(** ** Providers ([src/providers/index.ts]) and the API keys
    ([getProviderApiKey], [src/utils/platform.ts]) *)

Module Providers.
Import JsString.

Record ProviderConfig := {
    config_name : string;
    defaultModel : option string;
    models : list string;
  }.

Definition PROVIDER_CONFIGS : list (string * ProviderConfig) :=
  [("openai",
    {| config_name := "openai"; defaultModel := Some "gpt-4o";
       models := ["gpt-4o"; "gpt-4o-mini"; "gpt-4-turbo"; "gpt-4"; "gpt-3.5-turbo";
                  "o1-preview"; "o1-mini"; "o3-mini"] |});
   ("anthropic",
    {| config_name := "anthropic"; defaultModel := Some "claude-sonnet-4-20250514";
       models := ["claude-sonnet-4-20250514"; "claude-3-5-sonnet-20241022";
                  "claude-3-5-haiku-20241022"; "claude-3-opus-20240229";
                  "claude-3-sonnet-20240229"; "claude-3-haiku-20240307"] |});
   ("google",
    {| config_name := "google"; defaultModel := Some "gemini-2.5-pro-preview-06-05";
       models := ["gemini-2.5-pro-preview-06-05"; "gemini-2.5-flash-preview-05-20";
                  "gemini-2.0-flash"; "gemini-1.5-pro"; "gemini-1.5-flash"] |});
   ("mistral",
    {| config_name := "mistral"; defaultModel := Some "mistral-large-latest";
       models := ["mistral-large-latest"; "mistral-medium-latest";
                  "mistral-small-latest"; "codestral-latest"; "open-mistral-nemo"] |});
   ("groq",
    {| config_name := "groq"; defaultModel := Some "llama-3.3-70b-versatile";
       models := ["llama-3.3-70b-versatile"; "llama-3.1-70b-versatile";
                  "llama-3.1-8b-instant"; "mixtral-8x7b-32768"; "gemma2-9b-it"] |});
   ("ollama",
    {| config_name := "ollama"; defaultModel := Some "llama3.2";
       models := ["llama3.2"; "llama3.1"; "codellama"; "mistral"; "mixtral"; "phi3";
                  "qwen2.5-coder"] |});
   ("openrouter",
    {| config_name := "openrouter"; defaultModel := Some "anthropic/claude-3.5-sonnet";
       models := ["anthropic/claude-3.5-sonnet"; "openai/gpt-4o";
                  "google/gemini-pro-1.5"; "meta-llama/llama-3.1-405b-instruct"] |})].

(** [process.env], for the variables the code reads. *)
Definition Env := gmap string string.

(** The [envKeys] table of [getProviderApiKey]. *)
Definition envKeys : list (string * list string) :=
  [("openai", ["OPENAI_API_KEY"]);
   ("anthropic", ["ANTHROPIC_API_KEY"]);
   ("google", ["GOOGLE_API_KEY"; "GOOGLE_GENERATIVE_AI_API_KEY"; "GEMINI_API_KEY"]);
   ("mistral", ["MISTRAL_API_KEY"]);
   ("groq", ["GROQ_API_KEY"]);
   ("ollama", ["OLLAMA_HOST"]);
   ("openrouter", ["OPENROUTER_API_KEY"])].

(** The loop [for (const key of keys) { if (process.env[key]) return ... }]. *)
Fixpoint firstSet (env : Env) (keys : list string) : option string :=
  match keys with
  | [] => None
  | key :: rest =>
      match env !! key with
      | Some value => if truthy value then Some value else firstSet env rest
      | None => firstSet env rest
      end
  end.

(** [getProviderApiKey(provider)].  For a name that [envKeys] inherits
    ([constructor], [__proto__]) the value is no array, [|| []] does not
    apply, and the [for ... of] throws. *)
Definition getProviderApiKey (env : Env) (provider : string) : Error + option string :=
  match getProp envKeys (toLowerCase provider) with
  | Own keys => inr (firstSet env keys)
  | Inherited => inl "TypeError: keys is not iterable"
  | Missing => inr None
  end.

(** [!!getProviderApiKey(providerName)] where it cannot throw. *)
Definition keyed (env : Env) (providerName : string) : bool :=
  match getProviderApiKey env providerName with
  | inr (Some _) => true
  | _ => false
  end.

(** [getAvailableProviders()] *)
Fixpoint availableAmong (env : Env) (entries : list (string * ProviderConfig))
    : Error + list string :=
  match entries with
  | [] => inr []
  | (providerName, _) :: rest =>
      let keep :=
        if bool_decide (providerName = "ollama") then inr true
        else match getProviderApiKey env providerName with
             | inl e => inl e
             | inr key => inr (bool_decide (is_Some key))
             end in
      match keep with
      | inl e => inl e
      | inr included =>
          match availableAmong env rest with
          | inl e => inl e
          | inr providers =>
              inr (if included : bool then providerName :: providers else providers)
          end
      end
  end.

Definition getAvailableProviders (env : Env) : Error + list string :=
  availableAmong env PROVIDER_CONFIGS.

(** [getProviderModels(providerName)] *)
Definition getProviderModels (providerName : string) : list string :=
  match getProp PROVIDER_CONFIGS providerName with
  | Own config => models config
  | _ => []
  end.

(** [getDefaultModel(providerName)].  On an inherited name [config] is
    there but [config.models] is not, and [config?.models[0]] throws. *)
Definition getDefaultModel (providerName : string) : Error + string :=
  match getProp PROVIDER_CONFIGS providerName with
  | Own config =>
      inr (default "" (str_or (defaultModel config) (str_or (head (models config)) None)))
  | Inherited => inl "TypeError: Cannot read properties of undefined (reading '0')"
  | Missing => inr ""
  end.

(** [isValidModel(providerName, modelId)] *)
Definition isValidModel (providerName modelId : string) : bool :=
  let models := getProviderModels providerName in
  bool_decide (length models = 0%nat) || bool_decide (modelId ∈ models) || true.

(** One round of the loop of [parseProviderModel], for one separator. *)
Definition parseWith (sep : ascii) (input : string) : option (string * string) :=
  if Js.includes input (String sep "") then
    match split sep input with
    | provider :: modelParts =>
        let model := Js.join (String sep "") modelParts in
        if truthy provider && truthy model && hasProp PROVIDER_CONFIGS provider
        then Some (provider, model)
        else None
    | [] => None
    end
  else None.

(** [parseProviderModel(input)] *)
Definition parseProviderModel (input : string) : option (string * string) :=
  match parseWith ":" input with
  | Some r => Some r
  | None => parseWith "/" input
  end.

(** What [createProvider] takes from its surroundings: the environment,
    and whether the dynamic [import] of the provider's SDK package and
    the construction of the model succeed. *)
Record Loader := {
    loader_env : Env;
    loader_import : string -> Error + unit;
  }.

Definition providerCases : list string :=
  ["openai"; "anthropic"; "google"; "mistral"; "groq"; "ollama"; "openrouter"].

(** [createProvider(providerName, modelId)], without [options] as the
    agent calls it. *)
Definition createProvider (loader : Loader) (providerName : string)
    (modelId : option string) : Error + ProviderInstance :=
  match getProp PROVIDER_CONFIGS providerName with
  | Missing => inl ("Unknown provider: " ++ providerName)
  | found =>
      let finalModelId :=
        str_or modelId (match found with
                        | Own config => defaultModel config
                        | _ => None
                        end) in
      match getProviderApiKey (loader_env loader) providerName with
      | inl e => inl e
      | inr _ =>
          if bool_decide (providerName ∈ providerCases) then
            match loader_import loader providerName with
            | inl e => inl e
            | inr _ =>
                inr {| provider_name := providerName;
                       provider_modelId := Js.show_opt finalModelId |}
            end
          else inl ("Provider " ++ providerName ++ " not implemented")
      end
  end.

(** The [names] table of [getProviderDisplayName]. *)
Definition displayNames : list (string * string) :=
  [("openai", "OpenAI"); ("anthropic", "Anthropic"); ("google", "Google");
   ("mistral", "Mistral"); ("groq", "Groq"); ("ollama", "Ollama");
   ("openrouter", "OpenRouter")].

(** [getProviderDisplayName(providerName)]: [names[providerName] ||
    providerName].  On an inherited name the result is the inherited
    value, which is no string: [None]. *)
Definition getProviderDisplayName (providerName : string) : option string :=
  match getProp displayNames providerName with
  | Own display => Some (if truthy display then display else providerName)
  | Inherited => None
  | Missing => Some providerName
  end.

(** One entry of [getProvidersStatus()]. *)
Record ProviderStatus := {
    status_name : string;
    displayName : option string;
    available : bool;
    hasApiKey : bool;
    status_defaultModel : string;
    modelCount : nat;
  }.

Fixpoint statusAmong (env : Env) (entries : list (string * ProviderConfig))
    : Error + list ProviderStatus :=
  match entries with
  | [] => inr []
  | (providerName, config) :: rest =>
      let has :=
        if bool_decide (providerName = "ollama") then inr true
        else match getProviderApiKey env providerName with
             | inl e => inl e
             | inr key => inr (bool_decide (is_Some key))
             end in
      match has with
      | inl e => inl e
      | inr hasKey =>
          match statusAmong env rest with
          | inl e => inl e
          | inr statuses =>
              inr ({| status_name := providerName;
                      displayName := getProviderDisplayName providerName;
                      available := hasKey;
                      hasApiKey := hasKey;
                      status_defaultModel := default "" (str_or (defaultModel config) None);
                      modelCount := length (models config) |} :: statuses)
          end
      end
  end.

Definition getProvidersStatus (env : Env) : Error + list ProviderStatus :=
  statusAmong env PROVIDER_CONFIGS.

End Providers.

(** ** Platform helpers ([src/utils/platform.ts]) *)

Module Platform.
Import JsString.

(** What the helpers read from the machine: [process.env], [existsSync],
    and [platform()], [homedir()], [tmpdir()] of the [os] module. *)
Record Runtime := {
    env : Providers.Env;
    existsSync : string -> bool;
    osPlatform : string;
    homedir : string;
    tmpdir : string;
  }.

Section WithPath.

(** [join] of the [path] module, and [s.replace(pattern, replacement)]
    with a string pattern, are parameters. *)
Context (join : list string -> string).
Context (replace : string -> string -> string -> string).

(** [process.env[key]] in a condition, or under [||]. *)
Definition envSet (rt : Runtime) (key : string) : option string :=
  str_or (env rt !! key) None.

Definition isTermux (rt : Runtime) : bool :=
  if bool_decide (is_Some (envSet rt "TERMUX_VERSION")) then true
  else if match env rt !! "PREFIX" with
          | Some prefix => Js.includes prefix "com.termux"
          | None => false
          end then true
  else existsSync rt "/data/data/com.termux/files/usr"
       || existsSync rt "/data/data/com.termux/files/home".

Definition getPlatform (rt : Runtime) : string :=
  if isTermux rt then "android"
  else if bool_decide (osPlatform rt = "darwin") then "darwin"
  else if bool_decide (osPlatform rt = "linux") then "linux"
  else if bool_decide (osPlatform rt = "win32") then "win32"
  else "unknown".

Definition getHomeDir (rt : Runtime) : string :=
  if isTermux rt
  then default "/data/data/com.termux/files/home" (envSet rt "HOME")
  else homedir rt.

Definition getDefaultShell (rt : Runtime) : string :=
  match envSet rt "SHELL" with
  | Some shell => shell
  | None =>
      if isTermux rt then "/data/data/com.termux/files/usr/bin/bash"
      else if bool_decide (osPlatform rt = "win32")
      then default "cmd.exe" (envSet rt "COMSPEC")
      else if bool_decide (osPlatform rt = "darwin") then "/bin/zsh"
      else "/bin/bash"
  end.

Definition getShellPrefix (rt : Runtime) : list string :=
  let shell := getDefaultShell rt in
  if bool_decide (osPlatform rt = "win32") then [shell; "/c"] else [shell; "-c"].

Definition getTermuxPrefix (rt : Runtime) : option string :=
  if negb (isTermux rt) then None
  else Some (default "/data/data/com.termux/files/usr" (envSet rt "PREFIX")).

Definition normalizePath (rt : Runtime) (p : string) : string :=
  let p1 := if startsWith p "~" then join [getHomeDir rt; JsString.drop 1 p] else p in
  if isTermux rt && startsWith p1 "$PREFIX"
  then replace p1 "$PREFIX"
         (default "/data/data/com.termux/files/usr" (envSet rt "PREFIX"))
  else p1.

Definition isWithinWorkspace (rt : Runtime) (filePath workspaceDir : string) : bool :=
  startsWith (normalizePath rt filePath) (normalizePath rt workspaceDir).

(** [s.replace(/^[\/\\]/, '')]: one leading slash or backslash is dropped. *)
Definition stripLeadingSeparator (s : string) : string :=
  match s with
  | String c s' => if bool_decide (c = "/"%char) || bool_decide (c = "\"%char) then s' else s
  | EmptyString => ""
  end.

Definition getRelativePath (rt : Runtime) (filePath workspaceDir : string) : string :=
  let normalizedFile := normalizePath rt filePath in
  let normalizedWorkspace := normalizePath rt workspaceDir in
  if startsWith normalizedFile normalizedWorkspace
  then stripLeadingSeparator
         (JsString.drop (String.length normalizedWorkspace) normalizedFile)
  else filePath.

(** A path that [normalizePath] has nothing to do with: it does not
    start with a tilde, and off Termux or without a leading [$PREFIX]. *)
Definition plain (rt : Runtime) (p : string) : Prop :=
  startsWith p "~" = false
  /\ (isTermux rt = false \/ startsWith p "$PREFIX" = false).

End WithPath.
End Platform.

(** ** The command line ([src/cli.ts]) *)

Module Cli.
Import JsString.

(** The options the two actions read. *)
Record CLIOptions := {
    opt_provider : option string;
    opt_model : option string;
    opt_sandbox : option string;
    opt_approval : option ApprovalPolicy;
    fullAuto : bool;
  }.

Definition orKeep (chosen : option string) (current : string) : string :=
  default current (str_or chosen None).

(** The four assignments both actions start with. *)
Definition applyOptions (opts : CLIOptions) (cfg : OmniConfig) : OmniConfig :=
  {| provider := orKeep (opt_provider opts) (provider cfg);
     model := orKeep (opt_model opts) (model cfg);
     sandbox := {| mode := orKeep (opt_sandbox opts) (mode (sandbox cfg)) |};
     approvalPolicy := default (approvalPolicy cfg) (opt_approval opts);
     maxCheckpoints := maxCheckpoints cfg |}.

(** The assignments of the [exec] action: [--full-auto] comes last. *)
Definition applyExecOptions (opts : CLIOptions) (cfg : OmniConfig) : OmniConfig :=
  let cfg1 := applyOptions opts cfg in
  if fullAuto opts
  then {| provider := provider cfg1; model := model cfg1; sandbox := sandbox cfg1;
          approvalPolicy := never; maxCheckpoints := maxCheckpoints cfg1 |}
  else cfg1.

(** The [onApprovalRequest] of [runExec]. *)
Definition execApprover {Args} (opts : CLIOptions) : Tools.Approver Args :=
  fun _ => fullAuto opts.

(** The answer check of [ui.confirm], which the interactive approver
    returns: [answer.toLowerCase().startsWith('y')]. *)
Definition confirm (answer : string) : bool :=
  startsWith (toLowerCase answer) "y".

(** The provider check of the default action: [None] is [process.exit(1)]. *)
Definition selectProvider (available : list string) (cfg : OmniConfig) : option OmniConfig :=
  match available with
  | [] => None
  | first :: _ =>
      if bool_decide (provider cfg ∈ available) then Some cfg
      else Some {| provider := first; model := model cfg; sandbox := sandbox cfg;
                   approvalPolicy := approvalPolicy cfg;
                   maxCheckpoints := maxCheckpoints cfg |}
  end.

(** The default action up to [runInteractive]: options, then the
    provider check against [getAvailableProviders()]. *)
Definition prepareInteractive (env : Providers.Env) (opts : CLIOptions) (cfg : OmniConfig)
    : Error + option OmniConfig :=
  match Providers.getAvailableProviders env with
  | inl e => inl e
  | inr available => inr (selectProvider available (applyOptions opts cfg))
  end.

End Cli.

(** ** Sequences of calls, and the agent with its real provider factory *)

Module Runs.
Import Connector AgentCore.
Section WithEnvironment.

Context {Args : Type} (stringify : Args -> string).
Context (formatContextForPrompt : list LoadedContextFile -> string).
Context (platform : string).
Context (toolRegistry : Tools.Registry Args).

(** Calls one after the other; [None] as soon as one leaves the model. *)
Fixpoint applyAll (ops : list (@Operation Args)) (a : @Agent Args) : option (@Agent Args) :=
  match ops with
  | [] => Some a
  | op :: rest =>
      match apply stringify formatContextForPrompt platform toolRegistry op a with
      | Some a' => applyAll rest a'
      | None => None
      end
  end.

Definition is_save (op : @Operation Args) : bool :=
  match op with
  | op_saveCheckpoint _ _ _ => true
  | _ => false
  end.

(** [initialize()] with [createProvider(this.config.provider,
    this.config.model)] as the code calls it. *)
Definition initializeAgent (loader : Providers.Loader) (a : @Agent Args)
    : @Agent Args * (Error + unit) :=
  initialize formatContextForPrompt platform
    (Providers.createProvider loader (provider (config a)) (Some (model (config a)))) a.

(** [switchProvider(providerName, modelId)] with
    [createProvider(providerName, modelId)]. *)
Definition switchProviderTo (loader : Providers.Loader) (providerName : string)
    (modelId : option string) (a : @Agent Args) : @Agent Args * (Error + unit) :=
  switchProvider (Providers.createProvider loader providerName modelId)
    providerName modelId a.

End WithEnvironment.
End Runs.

(** ** Comparing statistics *)

Module Stats.
Import Connector AgentCore.

(** The second statistics have at least the counts of the first, and
    the same start time. *)
Definition grown (s s' : SessionStats) : Prop :=
  startTime s' = startTime s
  /\ promptTokens s <= promptTokens s'
  /\ completionTokens s <= completionTokens s'
  /\ totalTokens s <= totalTokens s'
  /\ toolCalls s <= toolCalls s'
  /\ fileReads s <= fileReads s'
  /\ fileWrites s <= fileWrites s'
  /\ shellCommands s <= shellCommands s'.

(** A usage report without negative numbers. *)
Definition counted (u : Usage) : Prop :=
  0 <= usage_promptTokens u /\ 0 <= usage_completionTokens u /\ 0 <= usage_totalTokens u.

(** The call is no [chat], or the connector it talks to reports no
    negative usage. *)
Definition reports_counts {Args} (op : @Operation Args) : Prop :=
  match op with
  | op_chat streamText _ =>
      forall request effects parts u,
        streamText request = (effects, Streamed parts (inr u)) -> counted u
  | _ => True
  end.

Definition is_clear {Args} (op : @Operation Args) : bool :=
  match op with
  | op_clear _ => true
  | _ => false
  end.

End Stats.

(** * Properties of the approval gate ([executeTool]) *)

Module Gate.
Import Tools.
Section WithArgs.

Context {Args : Type} (stringify : Args -> string).

Implicit Types (toolRegistry : Registry Args) (tool : RegisteredTool Args)
    (context : ToolExecutionContext Args) (args : Args).

Lemma needsApproval_true tool context :
    needsApproval tool context = true <->
    requiresApproval tool = true /\
    (approvalPolicy context = untrusted \/ approvalPolicy context = on_request).
Proof.
    unfold needsApproval.
    destruct (requiresApproval tool), (approvalPolicy context); simpl;
      split; intros; try done; try (split; [done | by eauto]);
      destruct H as [? [? | ?]]; done.
Qed.

Lemma needsApproval_false tool context :
    requiresApproval tool = false \/ approvalPolicy context = never ->
    needsApproval tool context = false.
Proof.
    intros [H | H]; unfold needsApproval; rewrite H.
    - done.
    - by rewrite andb_false_r.
Qed.

(** C9.  When the tool does not require approval (whatever the policy),
    or when the policy is [never] (whatever the tool), [executeTool]
    never calls the approver, configured or not, and runs the tool: its
    only effect is the execution and its result is the tool's. *)
Theorem executeTool_without_prompt toolRegistry stamp toolName args context tool :
    getTool toolRegistry toolName = Some tool ->
    requiresApproval tool = false \/ approvalPolicy context = never ->
    executeTool stringify toolRegistry stamp toolName args context
      = ([Executed toolName args], runTool tool args)
    /\ prompts (executeTool stringify toolRegistry stamp toolName args context).1 = []
    /\ executions (executeTool stringify toolRegistry stamp toolName args context).1
       = [(toolName, args)].
Proof.
    intros Hget Hfree.
    assert (executeTool stringify toolRegistry stamp toolName args context
            = ([Executed toolName args], runTool tool args)) as ->; [| done].
    unfold executeTool. rewrite Hget, (needsApproval_false _ _ Hfree). done.
Qed.

(** C1, as the code has it.  For a tool that requires approval, under
    [untrusted] or [on-request]: with an approver configured, the
    approver is asked first, the tool runs only after it said yes, and a
    no gives the not-approved failure with the tool never run; with no
    approver configured, nobody is asked and the tool runs. *)
Theorem executeTool_with_prompt toolRegistry stamp toolName args context tool :
    getTool toolRegistry toolName = Some tool ->
    requiresApproval tool = true ->
    approvalPolicy context = untrusted \/ approvalPolicy context = on_request ->
    match onApprovalRequest context with
    | Some approver =>
        let request := buildRequest stringify tool toolName args stamp in
        executeTool stringify toolRegistry stamp toolName args context =
          if approver request
          then ([Prompted request; Executed toolName args], runTool tool args)
          else ([Prompted request], notApproved)
    | None =>
        executeTool stringify toolRegistry stamp toolName args context
          = ([Executed toolName args], runTool tool args)
    end.
Proof.
    intros Hget Hreq Hpolicy.
    assert (needsApproval tool context = true) as Hneeds
      by (apply needsApproval_true; done).
    unfold executeTool. rewrite Hget, Hneeds.
    destruct (onApprovalRequest context); done.
Qed.

End WithArgs.

Lemma executeTool_without_prompt_witness :
    executeTool Demo.stringify Demo.toolRegistry Demo.stamp "list_directory" "{}"
        {| approvalPolicy := on_request; onApprovalRequest := Some Demo.deny |}
      = ([Executed "list_directory" "{}"], runTool Demo.list_directory "{}")
    /\ prompts (executeTool Demo.stringify Demo.toolRegistry Demo.stamp "list_directory" "{}"
        {| approvalPolicy := on_request; onApprovalRequest := Some Demo.deny |}).1 = []
    /\ executions (executeTool Demo.stringify Demo.toolRegistry Demo.stamp "list_directory" "{}"
        {| approvalPolicy := on_request; onApprovalRequest := Some Demo.deny |}).1
       = [("list_directory", "{}")].
Proof.
    apply (executeTool_without_prompt Demo.stringify Demo.toolRegistry Demo.stamp
             "list_directory" "{}" _ Demo.list_directory).
    - vm_compute. reflexivity.
    - left. reflexivity.
Defined.

Lemma executeTool_with_prompt_witness :
    executeTool Demo.stringify Demo.toolRegistry Demo.stamp "shell" "{}"
        {| approvalPolicy := untrusted; onApprovalRequest := Some Demo.deny |}
      = ([Prompted (buildRequest Demo.stringify Demo.shell "shell" "{}" Demo.stamp)],
         notApproved).
Proof.
    apply (executeTool_with_prompt Demo.stringify Demo.toolRegistry Demo.stamp
             "shell" "{}"
             {| approvalPolicy := untrusted; onApprovalRequest := Some Demo.deny |}
             Demo.shell).
    - vm_compute. reflexivity.
    - reflexivity.
    - left. reflexivity.
Defined.

(** C1, as the specification has it, fails: the [shell] tool requires
    approval, the policy is [on-request], no approver is configured, and
    the tool is run and its result returned. *)
Lemma executeTool_no_approver_runs :
    executeTool Demo.stringify Demo.toolRegistry Demo.stamp "shell" "{}"
        {| approvalPolicy := on_request; onApprovalRequest := None |}
      = ([Executed "shell" "{}"],
         {| success := true; output := Some "done"; error := None |}).
Proof. vm_compute. reflexivity. Qed.

End Gate.

(** * Properties of [chat] *)

Module Chat.
Import Connector AgentCore.

Lemma append_cons (c : ascii) (s t : string) : String c s ++ t = String c (s ++ t).
Proof. reflexivity. Qed.

Lemma append_assoc (s t u : string) : (s ++ t) ++ u = s ++ (t ++ u).
Proof. induction s as [| c s IH]; [done | by rewrite !append_cons, IH]. Qed.

Lemma append_empty_r (s : string) : s ++ "" = s.
Proof. induction s as [| c s IH]; [done | by rewrite append_cons, IH]. Qed.

Section WithEnvironment.

Context {Args : Type} (stringify : Args -> string).
Context (toolRegistry : Tools.Registry Args).

Implicit Types (a : @Agent Args) (streamText : ModelConnector Args)
  (parts : list (StreamPart Args)) (st : @LoopState Args).

Lemma updateToolStats_toolCalls toolName (s : SessionStats) :
  toolCalls (updateToolStats toolName s) = toolCalls s + 1.
Proof. unfold updateToolStats. repeat case_match; done. Qed.

(** The loop of [chat] has no exit: it folds every part of the stream
    into the content, the recorded calls and the call counter. *)
Lemma stream_loop parts st :
  fullContent (fold_left processPart parts st) = fullContent st ++ Parts.text parts
  /\ seenToolCalls (fold_left processPart parts st)
     = (seenToolCalls st ++ (Parts.recorded <$> Parts.results parts))%list
  /\ toolCalls (loop_stats (fold_left processPart parts st))
     = toolCalls (loop_stats st) + Z.of_nat (length (Parts.calls parts)).
Proof.
  revert st. induction parts as [| part parts IH]; intros st.
  - simpl. rewrite append_empty_r, app_nil_r. split_and!; [done | done | simpl; lia].
  - destruct (IH (processPart st part)) as (Hc & Hs & Hn).
    cbn [fold_left]. rewrite Hc, Hs, Hn. clear IH Hc Hs Hn.
    destruct part; cbn.
    + rewrite append_assoc. done.
    + rewrite updateToolStats_toolCalls.
      split_and!; [done | done | unfold Parts.calls; lia].
    + rewrite <- app_assoc. done.
    + done.
Qed.

(** C10.  On an agent without a provider ([initialize] not called, no
    provider passed in), [chat] throws the not-initialized error before
    anything else happens: the agent, with its messages, is unchanged and
    the connector is never called. *)
Theorem chat_not_initialized streamText userMessage a :
  agent_provider a = None ->
  chat stringify toolRegistry streamText userMessage a
    = (a, [], inl "Agent not initialized. Call initialize() first.").
Proof. intros H. unfold chat. by rewrite H. Qed.

(** A failure that reaches [chat] as a rejection (the [streamText] call
    rejects, the stream iterator throws, or the usage rejects) is thrown
    on, and the conversation is the old one with the user message
    appended and nothing else: no assistant message. *)
Lemma chat_connector_failure streamText userMessage a p effects outcome e :
  agent_provider a = Some p ->
  streamText (chatRequest stringify toolRegistry p (pushUser userMessage a))
    = (effects, outcome) ->
  Parts.failure outcome = Some e ->
  (chat stringify toolRegistry streamText userMessage a).2 = inl e
  /\ messages (chat stringify toolRegistry streamText userMessage a).1.1
     = (messages a ++ [{| role := Role.user; content := StringContent userMessage |}])%list
  /\ Forall (fun m => role m <> Role.assistant)
       (drop (length (messages a))
          (messages (chat stringify toolRegistry streamText userMessage a).1.1)).
Proof.
  intros Hp Hstream Hfail.
  assert (messages (chat stringify toolRegistry streamText userMessage a).1.1
     = (messages a ++ [{| role := Role.user; content := StringContent userMessage |}])%list
     /\ (chat stringify toolRegistry streamText userMessage a).2 = inl e) as [Hm He].
  { unfold chat. rewrite Hp, Hstream.
    destruct outcome as [e' | parts [e' | u]]; simpl in Hfail; simplify_eq; done. }
  split_and!; [done | done |].
  rewrite Hm, drop_app_length. by repeat constructor.
Qed.

Lemma text_app parts more :
  Parts.text (parts ++ more) = Parts.text parts ++ Parts.text more.
Proof.
  induction parts as [| part parts IH]; [done |].
  destruct part; cbn [app Parts.text]; [by rewrite IH, append_assoc | done ..].
Qed.

Lemma results_app parts more :
  Parts.results (parts ++ more) = (Parts.results parts ++ Parts.results more)%list.
Proof. unfold Parts.results. by rewrite omap_app. Qed.

(** The loop of [chat] passes over an [error] part. *)
Lemma stream_loop_error_part before after st :
  fold_left processPart (before ++ Parts.error_part :: after) st
    = fold_left processPart (before ++ after) st.
Proof. by rewrite !fold_left_app. Qed.

(** C3 on the code.  A failure that the SDK reports inside the stream, as
    a part of type [error], is no failure to [chat]: the [switch] has no
    case for the part and the loop goes on.  When the stream then ends
    and the usage resolves, [chat] resolves instead of throwing.  The
    response carries the text and the tool results of the other parts,
    the text delivered around the failure is appended to the conversation
    as the assistant message, and agent, effects and response are those
    of the same stream without the failure. *)
Theorem chat_error_part_resolves streamText userMessage a p effects before after u :
  agent_provider a = Some p ->
  streamText (chatRequest stringify toolRegistry p (pushUser userMessage a))
    = (effects, Streamed (before ++ Parts.error_part :: after) (inr u)) ->
  (chat stringify toolRegistry streamText userMessage a).2
    = inr {| response_content := Parts.text before ++ Parts.text after;
             response_toolCalls :=
               Parts.recorded <$> (Parts.results before ++ Parts.results after)%list;
             response_usage := u |}
  /\ messages (chat stringify toolRegistry streamText userMessage a).1.1
     = (messages a ++
          [{| role := Role.user; content := StringContent userMessage |};
           {| role := Role.assistant;
              content := StringContent (Parts.text before ++ Parts.text after) |}])%list
  /\ (forall streamText',
        streamText' (chatRequest stringify toolRegistry p (pushUser userMessage a))
          = (effects, Streamed (before ++ after) (inr u)) ->
        chat stringify toolRegistry streamText userMessage a
          = chat stringify toolRegistry streamText' userMessage a).
Proof.
  intros Hp Hstream.
  assert (forall streamText',
            streamText' (chatRequest stringify toolRegistry p (pushUser userMessage a))
              = (effects, Streamed (before ++ after) (inr u)) ->
            chat stringify toolRegistry streamText userMessage a
              = chat stringify toolRegistry streamText' userMessage a) as Hsame.
  { intros streamText' Hstream'. unfold chat.
    by rewrite Hp, Hstream, Hstream', stream_loop_error_part. }
  split_and!; [| | done].
  - rewrite (Hsame (fun _ => (effects, Streamed (before ++ after) (inr u))) eq_refl).
    unfold chat. rewrite Hp.
    destruct (stream_loop (before ++ after)
                {| fullContent := ""; seenToolCalls := [];
                   loop_stats := stats (session (pushUser userMessage a)) |})
      as (Hc & Hs & _).
    set (st := fold_left processPart (before ++ after) _) in *. clearbody st.
    destruct st as [text calls counted]. cbn in Hc, Hs |- *. subst text calls.
    by rewrite text_app, results_app.
  - rewrite (Hsame (fun _ => (effects, Streamed (before ++ after) (inr u))) eq_refl).
    unfold chat. rewrite Hp.
    destruct (stream_loop (before ++ after)
                {| fullContent := ""; seenToolCalls := [];
                   loop_stats := stats (session (pushUser userMessage a)) |})
      as (Hc & _ & _).
    set (st := fold_left processPart (before ++ after) _) in *. clearbody st.
    destruct st as [text calls counted]. cbn in Hc |- *. subst text.
    by rewrite text_app, <- app_assoc.
Qed.

(** C2, as the code has it.  [chat] hands the connector the constant
    [maxSteps = 10] and counts no steps itself.  When the stream ends with
    its usage, every part of it has been consumed: the content is all the
    text, [toolCalls] has one entry for every [tool-result] part, the
    session's call counter has grown by the number of [tool-call] parts,
    and the response is the content, the calls and the usage. *)
Theorem chat_consumes_stream streamText userMessage a p effects parts u :
  agent_provider a = Some p ->
  streamText (chatRequest stringify toolRegistry p (pushUser userMessage a))
    = (effects, Streamed parts (inr u)) ->
  maxSteps (chatRequest stringify toolRegistry p (pushUser userMessage a)) = 10
  /\ (chat stringify toolRegistry streamText userMessage a).2
     = inr {| response_content := Parts.text parts;
              response_toolCalls := Parts.recorded <$> Parts.results parts;
              response_usage := u |}
  /\ (chat stringify toolRegistry streamText userMessage a).1.2 = effects
  /\ toolCalls (stats (session (chat stringify toolRegistry streamText userMessage a).1.1))
     = toolCalls (stats (session a)) + Z.of_nat (length (Parts.calls parts))
  /\ messages (chat stringify toolRegistry streamText userMessage a).1.1
     = (messages a ++
          [{| role := Role.user; content := StringContent userMessage |};
           {| role := Role.assistant; content := StringContent (Parts.text parts) |}])%list.
Proof.
  intros Hp Hstream. split; [done |].
  unfold chat. rewrite Hp, Hstream.
  destruct (stream_loop parts
              {| fullContent := ""; seenToolCalls := [];
                 loop_stats := stats (session (pushUser userMessage a)) |})
    as (Hc & Hs & Hn).
  set (st := fold_left processPart parts _) in *. clearbody st.
  destruct st as [text calls counted]. cbn in Hc, Hs, Hn |- *. subst text calls.
  split_and!; [done | done | done |].
  by rewrite <- app_assoc.
Qed.

End WithEnvironment.

Lemma chat_not_initialized_witness :
  chat Demo.stringify Demo.toolRegistry (Sdk.streamText (Demo.burst 1) Demo.usage) "hello"
      (Demo.fresh on_request None None)
    = (Demo.fresh on_request None None, [],
       inl "Agent not initialized. Call initialize() first.").
Proof.
  apply (chat_not_initialized Demo.stringify Demo.toolRegistry). reflexivity.
Defined.

(** A connector whose stream breaks after some text. *)
Lemma chat_connector_failure_witness :
  let streamText : ModelConnector Demo.Args :=
    fun _ => ([], Streamed [text_delta "par"] (inl "socket hang up")) in
  let a := Demo.ready on_request None None in
  (chat Demo.stringify Demo.toolRegistry streamText "hello" a).2 = inl "socket hang up"
  /\ messages (chat Demo.stringify Demo.toolRegistry streamText "hello" a).1.1
     = (messages a ++ [Demo.msg Role.user "hello"])%list
  /\ Forall (fun m => role m <> Role.assistant)
       (drop (length (messages a))
          (messages (chat Demo.stringify Demo.toolRegistry streamText "hello" a).1.1)).
Proof.
  intros streamText a.
  apply (chat_connector_failure Demo.stringify Demo.toolRegistry streamText "hello" a
           Demo.openai [] (Streamed [text_delta "par"] (inl "socket hang up"))
           "socket hang up").
  - reflexivity.
  - reflexivity.
  - reflexivity.
Defined.

(** A provider whose stream breaks after some text: the SDK reports the
    break as an [error] part and closes the stream. *)
Lemma chat_error_part_resolves_witness :
  let streamText : ModelConnector Demo.Args :=
    fun _ => ([], Streamed [text_delta "par"; Parts.error_part] (inr Demo.usage)) in
  let a := Demo.ready on_request None None in
  (chat Demo.stringify Demo.toolRegistry streamText "hello" a).2
    = inr {| response_content := "par"; response_toolCalls := [];
             response_usage := Demo.usage |}
  /\ messages (chat Demo.stringify Demo.toolRegistry streamText "hello" a).1.1
     = (messages a ++ [Demo.msg Role.user "hello"; Demo.msg Role.assistant "par"])%list.
Proof.
  intros streamText a.
  destruct (chat_error_part_resolves Demo.stringify Demo.toolRegistry streamText "hello" a
              Demo.openai [] [text_delta "par"] [] Demo.usage)
    as (Hresponse & Hmessages & _).
  - reflexivity.
  - reflexivity.
  - split; [exact Hresponse | exact Hmessages].
Defined.

Lemma chat_consumes_stream_witness :
  let streamText : ModelConnector Demo.Args :=
    fun _ => ([], Streamed [text_delta "a"; tool_call "think" "{}";
                            tool_result "think" "{}" (VString "Thought: "); text_delta "b"]
                   (inr Demo.usage)) in
  let a := Demo.ready on_request None None in
  (chat Demo.stringify Demo.toolRegistry streamText "hello" a).2
    = inr {| response_content := "ab";
             response_toolCalls :=
               [("think", "{}",
                 {| success := true; output := Some "Thought: "; error := None |})];
             response_usage := Demo.usage |}.
Proof.
  intros streamText a.
  refine (proj1 (proj2
            (chat_consumes_stream Demo.stringify Demo.toolRegistry streamText "hello" a
               Demo.openai []
               [text_delta "a"; tool_call "think" "{}";
                tool_result "think" "{}" (VString "Thought: "); text_delta "b"]
               Demo.usage _ _))).
  - reflexivity.
  - reflexivity.
Defined.

(** C2, as the specification has it, fails.  The model asks for fifteen
    tool calls in one round; the SDK is given [maxSteps = 10]; all fifteen
    are run and recorded, the text that follows them is part of the
    content, and the response is an ordinary one.  And where the SDK does
    cut a model off (fifteen rounds of one call each), [chat] returns
    exactly what it returns for a model that stopped by itself after ten
    rounds: nothing in the response or the agent tells the two apart. *)
Lemma chat_fifteen_calls_all_run :
  let a := Demo.ready on_request None None in
  let r := chat Demo.stringify Demo.toolRegistry
             (Sdk.streamText (Demo.burst 15) Demo.usage) "go" a in
  length (Tools.executions r.1.2) = 15%nat
  /\ (exists response,
        r.2 = inr response
        /\ length (response_toolCalls response) = 15%nat
        /\ response_content response = "done"
        /\ response_usage response = Demo.usage)
  /\ chat Demo.stringify Demo.toolRegistry
        (Sdk.streamText (Demo.chain 15) Demo.usage) "go" a
      = chat Demo.stringify Demo.toolRegistry
          (Sdk.streamText (Demo.chain 10) Demo.usage) "go" a.
Proof.
  split_and!.
  - vm_compute. reflexivity.
  - eexists. split; [vm_compute; reflexivity |].
    split_and!; vm_compute; reflexivity.
  - vm_compute. reflexivity.
Qed.

(** C4 on the code.  [delete_file] requires approval, the policy is
    [on-request] and the approver denies.  [executeTool] returns the
    not-approved failure and the tool is not run; [chat] resolves with a
    response, and the entry it records for the call has [success = true],
    the not-approved text being its [output]. *)
Lemma chat_denied_call_recorded_as_success :
  let context := {| Tools.approvalPolicy := on_request;
                    Tools.onApprovalRequest := Some Demo.deny |} in
  let r := chat Demo.stringify Demo.toolRegistry
             (Sdk.streamText [[Sdk.request_tool "delete_file" "{x}" Demo.stamp]] Demo.usage)
             "delete file x"
             (Demo.ready on_request None (Some Demo.deny)) in
  (Tools.executeTool Demo.stringify Demo.toolRegistry Demo.stamp "delete_file" "{x}" context).2
    = {| success := false; output := None;
         error := Some "Operation was not approved by user" |}
  /\ Tools.executions r.1.2 = []
  /\ r.2 = inr {| response_content := "";
                  response_toolCalls :=
                    [("delete_file", "{x}",
                      {| success := true;
                         output := Some "Error: Operation was not approved by user";
                         error := None |})];
                  response_usage := Demo.usage |}.
Proof. split_and!; vm_compute; reflexivity. Qed.

End Chat.

(** * Properties of the checkpoint store *)

Module Store.
Import AgentCore Checkpoints.
Section WithArgs.

Context {Args : Type}.

Implicit Types (a : @Agent Args) (cps : list SessionCheckpoint) (c : SessionCheckpoint).

Lemma matches_iff x c :
  matches x c = true <-> checkpoint_id c = x \/ tag c = Some x.
Proof.
  unfold matches. rewrite orb_true_iff, !bool_decide_eq_true. done.
Qed.

Lemma matches_false x c :
  matches x c = false <-> checkpoint_id c <> x /\ tag c <> Some x.
Proof.
  unfold matches. rewrite orb_false_iff, !bool_decide_eq_false. done.
Qed.

(** [find] followed by [indexOf] is the first match with its position.
    [indexOf] compares by identity in the code and by value here; an
    earlier equal checkpoint would have been found first, so the two
    agree. *)
Lemma find_indexOf x cps :
  match list_find (fun c => matches x c = true) cps with
  | Some (i, c) =>
      List.find (matches x) cps = Some c /\ indexOf c cps = Z.of_nat i
  | None => List.find (matches x) cps = None
  end.
Proof.
  induction cps as [| d cps IH]; [done |].
  cbn [list_find List.find indexOf].
  destruct (matches x d) eqn:Hd.
  - rewrite decide_True by done. cbn. by rewrite bool_decide_eq_true_2.
  - rewrite decide_False by done.
    destruct (list_find _ cps) as [[i c] |] eqn:Hfind; cbn; [| done].
    destruct IH as [Hc Hi]. split; [done |].
    rewrite bool_decide_eq_false_2, Hi.
    + destruct (Z.of_nat i <? 0) eqn:Hneg; lia.
    + intros ->. apply List.find_some in Hc as [_ Hc]. congruence.
Qed.

Lemma restoreCheckpoint_first_match x a :
  restoreCheckpoint x a =
    match list_find (fun c => matches x c = true) (checkpoints (session a)) with
    | Some (i, c) => (restored i c a, true)
    | None => (a, false)
    end.
Proof.
  pose proof (find_indexOf x (checkpoints (session a))) as H.
  unfold restoreCheckpoint.
  destruct (list_find _ _) as [[i c] |].
  - destruct H as [-> Hi]. unfold restored. by rewrite Hi.
  - by rewrite H.
Qed.

Lemma limit_saveCheckpoint uuid now tag_ a :
  limit (saveCheckpoint uuid now tag_ a).1 = limit a.
Proof. unfold saveCheckpoint, limit. by case_match. Qed.

Lemma saveAll_cons uuid now tag_ saves a :
  saveAll ((uuid, now, tag_) :: saves) a
    = saveAll saves (saveCheckpoint uuid now tag_ a).1.
Proof. reflexivity. Qed.

Lemma limit_saveAll saves a : limit (saveAll saves a) = limit a.
Proof.
  revert a. induction saves as [| [[uuid now] tag_] saves IH]; intros a; [done |].
  by rewrite saveAll_cons, IH, limit_saveCheckpoint.
Qed.

(** The list after a save: the new checkpoint is pushed, and the oldest
    entry is shifted out when the list is then longer than the limit. *)
Lemma saveCheckpoint_checkpoints uuid now tag_ a :
  let c := (saveCheckpoint uuid now tag_ a).2 in
  let pushed := (checkpoints (session a) ++ [c])%list in
  checkpoints (session (saveCheckpoint uuid now tag_ a).1)
    = (if Z.of_nat (length pushed) >? limit a then drop 1 pushed else pushed)
  /\ currentCheckpoint (session (saveCheckpoint uuid now tag_ a).1)
    = (if Z.of_nat (length pushed) >? limit a
       then Z.of_nat (length pushed) - 1 - 1
       else Z.of_nat (length pushed) - 1).
Proof. unfold saveCheckpoint, limit. cbn. by case_match. Qed.

Lemma saveCheckpoint_length uuid now tag_ a :
  1 <= limit a ->
  Z.of_nat (length (checkpoints (session a))) <= limit a ->
  Z.of_nat (length (checkpoints (session (saveCheckpoint uuid now tag_ a).1))) <= limit a.
Proof.
  intros Hpos Hlen.
  destruct (saveCheckpoint_checkpoints uuid now tag_ a) as [-> _].
  cbn zeta. case_match eqn:Hover.
  - rewrite length_drop, length_app. cbn. lia.
  - lia.
Qed.

Lemma saveAll_length saves a :
  1 <= limit a ->
  Z.of_nat (length (checkpoints (session a))) <= limit a ->
  Z.of_nat (length (checkpoints (session (saveAll saves a)))) <= limit a.
Proof.
  revert a. induction saves as [| [[uuid now] tag_] saves IH]; intros a Hpos Hlen; [done |].
  rewrite saveAll_cons, <- (limit_saveCheckpoint uuid now tag_ a).
  apply IH; rewrite limit_saveCheckpoint; [done |].
  by apply saveCheckpoint_length.
Qed.

(** After a save under a limit of at least one, the list ends with the
    new checkpoint. *)
Lemma saveCheckpoint_last uuid now tag_ a :
  1 <= limit a ->
  exists before,
    checkpoints (session (saveCheckpoint uuid now tag_ a).1)
      = (before ++ [(saveCheckpoint uuid now tag_ a).2])%list
    /\ (forall c, c ∈ before -> c ∈ checkpoints (session a)).
Proof.
  intros Hpos.
  destruct (saveCheckpoint_checkpoints uuid now tag_ a) as [-> _].
  cbn zeta. case_match eqn:Hover.
  - destruct (checkpoints (session a)) as [| c0 cps] eqn:Hcps.
    + exfalso. apply Z.gtb_lt in Hover. cbn in Hover. lia.
    + exists cps. split; [done |]. intros c Hc. by right.
  - by exists (checkpoints (session a)).
Qed.

Lemma saveCheckpoint_restore_fresh uuid now tag_ a :
  1 <= limit a ->
  fresh uuid (checkpoints (session a)) ->
  let a' := (saveCheckpoint uuid now tag_ a).1 in
  let c := (saveCheckpoint uuid now tag_ a).2 in
  restoreCheckpoint uuid a'
    = (restored (length (checkpoints (session a')) - 1) c a', true).
Proof.
  intros Hpos Hfresh a' c.
  destruct (saveCheckpoint_last uuid now tag_ a Hpos) as (before & Hlist & Hsub).
  fold a' c in Hlist.
  rewrite restoreCheckpoint_first_match, Hlist.
  assert (list_find (fun d => matches uuid d = true) (before ++ [c])
          = Some (length before, c)) as ->.
  { apply list_find_Some. split_and!.
    - by rewrite lookup_app_r, Nat.sub_diag.
    - apply matches_iff. by left.
    - intros j d Hj Hlt. rewrite lookup_app_l in Hj by done.
      apply list_elem_of_lookup_2, Hsub, Hfresh in Hj.
      intros Hd%matches_iff. tauto. }
  rewrite length_app. cbn. by replace (length before + 1 - 1)%nat with (length before) by lia.
Qed.

(** C6.  Start from an agent whose checkpoint list is within the limit
    [M = maxCheckpoints || 10] (a new agent has none), with [M >= 1], and
    save any number of times.  The list is within [M] then, and after one
    more save: it is still within [M]; restoring by the id just returned
    succeeds, and lands on the new checkpoint when that id is new; a save
    that pushes the list past [M] shifts out index 0 and lowers the
    current index by one. *)
Theorem checkpoint_bound saves uuid now tag_ a0 :
  1 <= limit a0 ->
  Z.of_nat (length (checkpoints (session a0))) <= limit a0 ->
  let a := saveAll saves a0 in
  let a' := (saveCheckpoint uuid now tag_ a).1 in
  let c := (saveCheckpoint uuid now tag_ a).2 in
  let pushed := (checkpoints (session a) ++ [c])%list in
  Z.of_nat (length (checkpoints (session a))) <= limit a0
  /\ Z.of_nat (length (checkpoints (session a'))) <= limit a0
  /\ checkpoint_id c = uuid
  /\ checkpoint_messages c = messages a
  /\ (restoreCheckpoint uuid a').2 = true
  /\ (fresh uuid (checkpoints (session a)) ->
      restoreCheckpoint uuid a'
        = (restored (length (checkpoints (session a')) - 1) c a', true))
  /\ (limit a0 < Z.of_nat (length pushed) ->
      checkpoints (session a') = drop 1 pushed
      /\ currentCheckpoint (session a') = Z.of_nat (length pushed) - 1 - 1)
  /\ (Z.of_nat (length pushed) <= limit a0 ->
      checkpoints (session a') = pushed
      /\ currentCheckpoint (session a') = Z.of_nat (length pushed) - 1).
Proof.
  intros Hpos Hlen a a' c pushed.
  assert (limit a = limit a0) as Hlimit by apply limit_saveAll.
  assert (Z.of_nat (length (checkpoints (session a))) <= limit a0) as Hwithin
    by (by apply saveAll_length).
  destruct (saveCheckpoint_checkpoints uuid now tag_ a) as [Hlist Hcurrent].
  fold a' c pushed in Hlist, Hcurrent. rewrite Hlimit in Hlist, Hcurrent.
  split_and!.
  - done.
  - subst a'. rewrite <- Hlimit. apply saveCheckpoint_length; by rewrite Hlimit.
  - done.
  - done.
  - rewrite restoreCheckpoint_first_match.
    destruct (saveCheckpoint_last uuid now tag_ a) as (before & Hlast & _);
      [by rewrite Hlimit |].
    fold a' c in Hlast.
    destruct (list_find _ _) as [[i d] |] eqn:Hfind; [done |].
    apply list_find_None in Hfind. rewrite Hlast, Forall_app, Forall_singleton in Hfind.
    destruct Hfind as [_ Hc]. exfalso. apply Hc, matches_iff. by left.
  - intros Hfresh. apply saveCheckpoint_restore_fresh; [by rewrite Hlimit | done].
  - intros Hover. rewrite Hlist, Hcurrent.
    replace (Z.of_nat (length pushed) >? limit a0) with true; [done |].
    symmetry. apply Z.gtb_lt. lia.
  - intros Hfits. rewrite Hlist, Hcurrent.
    replace (Z.of_nat (length pushed) >? limit a0) with false; [done |].
    symmetry. apply not_true_is_false. rewrite Z.gtb_lt. lia.
Qed.

(** Saving keeps tags clear of later ids, as long as the uuid drawn is
    not already somebody's tag. *)
Lemma saveCheckpoint_tags_precede_ids uuid now tag_ a :
  (forall c, c ∈ checkpoints (session a) -> tag c <> Some uuid) ->
  tags_precede_ids (checkpoints (session a)) ->
  tags_precede_ids (checkpoints (session (saveCheckpoint uuid now tag_ a).1)).
Proof.
  intros Hnew Hold.
  assert (tags_precede_ids
            (checkpoints (session a) ++ [(saveCheckpoint uuid now tag_ a).2])) as Hpushed.
  { intros i j c d Hij Hi Hj.
    destruct (decide (j < length (checkpoints (session a)))%nat) as [Hin | Hout].
    - rewrite lookup_app_l in Hi, Hj by lia. exact (Hold i j c d Hij Hi Hj).
    - rewrite lookup_app_r in Hj by lia.
      apply list_lookup_singleton_Some in Hj as [Hj <-]. cbn.
      rewrite lookup_app_l in Hi by lia.
      by apply list_elem_of_lookup_2, Hnew in Hi. }
  destruct (saveCheckpoint_checkpoints uuid now tag_ a) as [-> _].
  cbn zeta. case_match; [| done].
  intros i j c d Hij Hi Hj. rewrite lookup_drop in Hi, Hj.
  apply (Hpushed (1 + i)%nat (1 + j)%nat c d); [lia | done | done].
Qed.

(** While no tag is the id of a later checkpoint, the first checkpoint
    that has the argument as id or tag is the one the lookup by id first,
    then by tag, finds. *)
Lemma first_match_by_id_then_tag x cps :
  tags_precede_ids cps ->
  list_find (fun c => matches x c = true) cps = lookupByIdThenTag x cps.
Proof.
  intros Hids. unfold lookupByIdThenTag.
  destruct (list_find (fun c => checkpoint_id c = x) cps) as [[i c] |] eqn:Hid.
  - apply list_find_Some in Hid as (Hi & Hc & Hfirst).
    apply list_find_Some. split_and!; [done | apply matches_iff; by left |].
    intros j d Hj Hlt [Hd | Hd]%matches_iff.
    + by apply (Hfirst j d).
    + apply (Hids j i d c Hlt Hj Hi). by rewrite Hc.
  - apply list_find_None in Hid. rewrite Forall_forall in Hid.
    destruct (list_find (fun c => tag c = Some x) cps) as [[i c] |] eqn:Htag.
    + apply list_find_Some in Htag as (Hi & Hc & Hfirst).
      apply list_find_Some. split_and!; [done | apply matches_iff; by right |].
      intros j d Hj Hlt [Hd | Hd]%matches_iff.
      * by apply (Hid d); [eapply list_elem_of_lookup_2 |].
      * by apply (Hfirst j d).
    + apply list_find_None in Htag. rewrite Forall_forall in Htag.
      apply list_find_None, Forall_forall.
      intros d Hd [Hm | Hm]%matches_iff; [by apply (Hid d) | by apply (Htag d)].
Qed.

(** [find] followed by [indexOf], on the arrays of references. *)
Lemma find_indexOf_held x (held : list ByReference.Checkpoint) :
  match list_find (fun h => ByReference.matches x h = true) held with
  | Some (i, h) =>
      List.find (ByReference.matches x) held = Some h /\ indexOf h held = Z.of_nat i
  | None => List.find (ByReference.matches x) held = None
  end.
Proof.
  induction held as [| d held IH]; [done |].
  cbn [list_find List.find indexOf].
  destruct (ByReference.matches x d) eqn:Hd.
  - rewrite decide_True by done. cbn. by rewrite bool_decide_eq_true_2.
  - rewrite decide_False by done.
    destruct (list_find _ held) as [[i c] |] eqn:Hfind; cbn; [| done].
    destruct IH as [Hc Hi]. split; [done |].
    rewrite bool_decide_eq_false_2, Hi.
    + destruct (Z.of_nat i <? 0) eqn:Hneg; lia.
    + intros ->. apply List.find_some in Hc as [_ Hc]. congruence.
Qed.

(** The first match among the checkpoints by value is the first match
    among the arrays of references they are read from. *)
Lemma first_match_reads mem x cps (held : list ByReference.Checkpoint) :
  Forall2 (ByReference.reads mem) cps held ->
  match list_find (fun c => matches x c = true) cps,
        list_find (fun h => ByReference.matches x h = true) held with
  | Some (i, c), Some (j, d) => i = j /\ ByReference.reads mem c d
  | None, None => True
  | _, _ => False
  end.
Proof.
  induction 1 as [| c d cps held Hcd _ IH]; [done |].
  assert (matches x c = ByReference.matches x d) as Hsame.
  { destruct Hcd as (Hid & Htag & _). unfold matches, ByReference.matches.
    by rewrite Hid, Htag. }
  cbn [list_find]. rewrite <- Hsame.
  destruct (matches x c) eqn:Hc.
  - rewrite !decide_True by done. done.
  - rewrite !decide_False by done.
    destruct (list_find _ cps) as [[i c'] |], (list_find _ held) as [[j d'] |];
      cbn; try done.
    destruct IH as [-> Hread]. done.
Qed.

(** The agent by value reads the memory before [restoreCheckpoint] and
    after it, and both report the same outcome. *)
Lemma restoreCheckpoint_represents mem x a :
  ByReference.represents mem a ->
  (ByReference.restoreCheckpoint x mem).2 = (restoreCheckpoint x a).2
  /\ ByReference.represents (ByReference.restoreCheckpoint x mem).1 (restoreCheckpoint x a).1.
Proof.
  intros (Hlive & Hcurrent & Hsaved).
  pose proof (first_match_reads mem x _ _ Hsaved) as Hmatch.
  pose proof (find_indexOf x (checkpoints (session a))) as Hvalue.
  pose proof (find_indexOf_held x (ByReference.saved mem)) as Hheld.
  unfold ByReference.restoreCheckpoint, restoreCheckpoint.
  destruct (list_find _ (checkpoints (session a))) as [[i c] |],
           (list_find _ (ByReference.saved mem)) as [[j d] |]; try done.
  - destruct Hmatch as [<- (_ & _ & Hmessages)].
    destruct Hvalue as [-> Hi], Hheld as [-> Hj]. cbn.
    split; [done |]. split_and!; [done | by rewrite Hi, Hj | done].
  - rewrite Hvalue, Hheld. done.
Qed.

(** C7, as the code has it.  [restoreCheckpoint] goes through the list
    once.  When no checkpoint has the argument as id or tag it returns
    [false] and the agent is unchanged.  Otherwise the first checkpoint
    of the list that has it as id or as tag is taken: the call returns
    [true], the conversation is that checkpoint's messages, the current
    index is its position, and checkpoint list, statistics, session id,
    configuration, provider, context files and options are as before.
    While no tag is the id of a later checkpoint, this is the lookup by id
    first, then by tag.  The copy is of the array only: the restored
    conversation holds the message objects of the checkpoint, and no
    object is created or written. *)
Theorem restoreCheckpoint_single_pass idOrTag a :
  ((forall c, c ∈ checkpoints (session a) ->
      checkpoint_id c <> idOrTag /\ tag c <> Some idOrTag) ->
   restoreCheckpoint idOrTag a = (a, false))
  /\ (forall (i : nat) c,
        checkpoints (session a) !! i = Some c ->
        checkpoint_id c = idOrTag \/ tag c = Some idOrTag ->
        (forall (j : nat) d,
           checkpoints (session a) !! j = Some d -> (j < i)%nat ->
           checkpoint_id d <> idOrTag /\ tag d <> Some idOrTag) ->
        (restoreCheckpoint idOrTag a).2 = true
        /\ messages (restoreCheckpoint idOrTag a).1 = checkpoint_messages c
        /\ currentCheckpoint (session (restoreCheckpoint idOrTag a).1) = Z.of_nat i
        /\ checkpoints (session (restoreCheckpoint idOrTag a).1) = checkpoints (session a)
        /\ stats (session (restoreCheckpoint idOrTag a).1) = stats (session a)
        /\ session_id (session (restoreCheckpoint idOrTag a).1) = session_id (session a)
        /\ config (restoreCheckpoint idOrTag a).1 = config a
        /\ workspaceDir (restoreCheckpoint idOrTag a).1 = workspaceDir a
        /\ agent_provider (restoreCheckpoint idOrTag a).1 = agent_provider a
        /\ contextFiles (restoreCheckpoint idOrTag a).1 = contextFiles a
        /\ options (restoreCheckpoint idOrTag a).1 = options a)
  /\ (tags_precede_ids (checkpoints (session a)) ->
      list_find (fun c => matches idOrTag c = true) (checkpoints (session a))
        = lookupByIdThenTag idOrTag (checkpoints (session a))
      /\ restoreCheckpoint idOrTag a = restoreByIdThenTag idOrTag a)
  /\ (forall mem (i : nat) held,
        ByReference.saved mem !! i = Some held ->
        ByReference.ref_id held = idOrTag \/ ByReference.ref_tag held = Some idOrTag ->
        (forall (j : nat) d,
           ByReference.saved mem !! j = Some d -> (j < i)%nat ->
           ByReference.ref_id d <> idOrTag /\ ByReference.ref_tag d <> Some idOrTag) ->
        ByReference.restoreCheckpoint idOrTag mem
          = ({| ByReference.objects := ByReference.objects mem;
                ByReference.live := ByReference.ref_messages held;
                ByReference.saved := ByReference.saved mem;
                ByReference.current := Z.of_nat i |}, true)).
Proof.
  split_and!.
  - intros Hnone. rewrite restoreCheckpoint_first_match.
    assert (list_find (fun c => matches idOrTag c = true) (checkpoints (session a)) = None)
      as ->; [| done].
    apply list_find_None, Forall_forall. intros c Hc%Hnone Hm%matches_iff. tauto.
  - intros i c Hi Hc Hfirst.
    assert (list_find (fun c => matches idOrTag c = true) (checkpoints (session a))
            = Some (i, c)) as Hfind.
    { apply list_find_Some. split_and!; [done | by apply matches_iff |].
      intros j d Hj Hlt Hd%matches_iff. apply (Hfirst j d) in Hj; [tauto | done]. }
    pose proof (find_indexOf idOrTag (checkpoints (session a))) as Hcode.
    rewrite Hfind in Hcode. destruct Hcode as [Hfound Hindex].
    unfold restoreCheckpoint. rewrite Hfound. cbn. by rewrite Hindex.
  - intros Hids. rewrite restoreCheckpoint_first_match.
    pose proof (first_match_by_id_then_tag idOrTag _ Hids) as Hlookup.
    split; [done |]. unfold restoreByIdThenTag. by rewrite <- Hlookup.
  - intros mem i held Hi Hheld Hfirst.
    assert (list_find (fun h => ByReference.matches idOrTag h = true) (ByReference.saved mem)
            = Some (i, held)) as Hfind.
    { apply list_find_Some. split_and!; [done | |].
      - unfold ByReference.matches. apply orb_true_iff.
        rewrite !bool_decide_eq_true. done.
      - intros j d Hj Hlt Hd. apply (Hfirst j d) in Hj as [Hid Htag]; [| done].
        unfold ByReference.matches in Hd. apply orb_true_iff in Hd.
        rewrite !bool_decide_eq_true in Hd. tauto. }
    pose proof (find_indexOf_held idOrTag (ByReference.saved mem)) as Hcode.
    rewrite Hfind in Hcode. destruct Hcode as [Hfound Hindex].
    unfold ByReference.restoreCheckpoint. by rewrite Hfound, Hindex.
Qed.

End WithArgs.

Lemma checkpoint_bound_witness :
  let a0 := Demo.ready on_request (Some 2) None in
  let a := saveAll [("u1", 1, None); ("u2", 2, Some "before-refactor")] a0 in
  Z.of_nat (length (checkpoints (session (saveCheckpoint "u3" 3 None a).1))) <= 2
  /\ (restoreCheckpoint "u3" (saveCheckpoint "u3" 3 None a).1).2 = true
  /\ checkpoint_id <$> checkpoints (session (saveCheckpoint "u3" 3 None a).1) = ["u2"; "u3"]
  /\ currentCheckpoint (session (saveCheckpoint "u3" 3 None a).1) = 1.
Proof.
  intros a0 a. subst a.
  destruct (checkpoint_bound [("u1", 1, None); ("u2", 2, Some "before-refactor")]
              "u3" 3 None a0) as (_ & Hbound & _ & _ & Hrestore & _ & Hshift & _).
  - vm_compute. discriminate.
  - vm_compute. discriminate.
  - destruct Hshift as [Hlist Hcurrent]; [vm_compute; reflexivity |].
    split_and!; [exact Hbound | exact Hrestore | by rewrite Hlist | by rewrite Hcurrent].
Defined.

(** A list in which an id is also a later tag: the id is met first. *)
Lemma restoreCheckpoint_single_pass_witness :
  let cps := [Demo.checkpoint "u1" (Some "start") [Demo.msg Role.system "s"];
              Demo.checkpoint "u2" (Some "u1")
                [Demo.msg Role.system "s"; Demo.msg Role.user "hi"]] in
  let a := Demo.withCheckpoints cps (Demo.ready on_request None None) in
  restoreCheckpoint "nowhere" a = (a, false)
  /\ (restoreCheckpoint "u1" a).2 = true
  /\ messages (restoreCheckpoint "u1" a).1 = [Demo.msg Role.system "s"]
  /\ currentCheckpoint (session (restoreCheckpoint "u1" a).1) = 0
  /\ checkpoints (session (restoreCheckpoint "u1" a).1) = cps.
Proof.
  intros cps a.
  destruct (restoreCheckpoint_single_pass "nowhere" a) as (Hnone & _ & _ & _).
  destruct (restoreCheckpoint_single_pass "u1" a) as (_ & Hfirst & _ & _).
  destruct (Hfirst 0%nat (Demo.checkpoint "u1" (Some "start") [Demo.msg Role.system "s"]))
    as (Hfound & Hmessages & Hcurrent & Hlist & _).
  - reflexivity.
  - left. reflexivity.
  - intros j d _ Hlt. lia.
  - split_and!; [| exact Hfound | exact Hmessages | exact Hcurrent | exact Hlist].
    apply Hnone. intros c Hc.
    repeat (apply elem_of_cons in Hc as [-> | Hc]; [by vm_compute |]).
    by apply elem_of_nil in Hc.
Defined.

(** C7, as the specification has it, fails.  The first checkpoint is
    saved under the tag [u2]; after a [chat] a second one is saved and
    the uuid drawn for it is [u2].  Looked up by id first, [u2] is the
    second checkpoint, at position 1; [restoreCheckpoint] takes the first,
    by its tag, and brings back the conversation from before the [chat].
    And the copy is not deep: after a restore, writing the content of a
    message of the live conversation changes what the checkpoint holds. *)
Lemma restoreCheckpoint_tag_before_id :
  let streamText : Connector.ModelConnector Demo.Args :=
    fun _ => ([], Connector.Streamed [Connector.text_delta "hi"] (inr Demo.usage)) in
  let a0 := Demo.ready on_request None None in
  let a1 := (saveCheckpoint "u1" 1 (Some "u2") a0).1 in
  let a2 := (chat Demo.stringify Demo.toolRegistry streamText "hello" a1).1.1 in
  let a := (saveCheckpoint "u2" 2 None a2).1 in
  let held := {| ByReference.ref_id := "u1"; ByReference.ref_tag := None;
                 ByReference.ref_messages := [0; 1]%nat |} in
  let mem := {| ByReference.objects :=
                  {[ 0%nat := Demo.msg Role.system "s"; 1%nat := Demo.msg Role.user "hi" ]};
                ByReference.live := [0%nat];
                ByReference.saved := [held];
                ByReference.current := 0 |} in
  let mem' := (ByReference.restoreCheckpoint "u1" mem).1 in
  (checkpoint_id <$> checkpoints (session a) = ["u1"; "u2"]
   /\ fst <$> lookupByIdThenTag "u2" (checkpoints (session a)) = Some 1%nat
   /\ (restoreCheckpoint "u2" a).2 = true
   /\ currentCheckpoint (session (restoreCheckpoint "u2" a).1) = 0
   /\ messages (restoreCheckpoint "u2" a).1 = messages a0
   /\ messages (restoreByIdThenTag "u2" a).1 = messages a2
   /\ messages a0 <> messages a2
   /\ restoreCheckpoint "u2" a <> restoreByIdThenTag "u2" a)
  /\ (ByReference.live mem' = [0; 1]%nat
      /\ ByReference.deref mem' (ByReference.ref_messages held)
         = [Demo.msg Role.system "s"; Demo.msg Role.user "hi"]
      /\ ByReference.deref
           (ByReference.setContent 1%nat (StringContent "edited") mem')
           (ByReference.live mem')
         = [Demo.msg Role.system "s"; Demo.msg Role.user "edited"]
      /\ ByReference.deref
           (ByReference.setContent 1%nat (StringContent "edited") mem')
           (ByReference.ref_messages held)
         = [Demo.msg Role.system "s"; Demo.msg Role.user "edited"]).
Proof.
  intros streamText a0 a1 a2 a held mem mem'.
  split; split_and!; try (vm_compute; reflexivity).
  - intros Heq. apply (f_equal length) in Heq. vm_compute in Heq. discriminate.
  - intros Heq. apply (f_equal (fun r => length (messages r.1))) in Heq.
    vm_compute in Heq. discriminate.
Qed.

End Store.

(** * Properties of [compact] *)

Module Compaction.
Import AgentCore.

Lemma str_take_prefix (n : nat) (s : string) :
  exists rest,
    s = Js.str_take n s ++ rest
    /\ String.length (Js.str_take n s) = Nat.min n (String.length s).
Proof.
  unfold Js.str_take. revert s. induction n as [| n IH]; intros s.
  - exists s. by destruct s.
  - destruct s as [| c s]; [by exists "" |].
    destruct (IH s) as (rest & Hs & Hlen). exists rest. cbn [String.substring].
    rewrite Chat.append_cons, <- Hs. cbn. by rewrite Hlen.
Qed.

Section WithArgs.

Context {Args : Type}.

Implicit Types (a : @Agent Args) (m : Message) (mid recent : list Message).

(** [messages.slice(-4)] *)
Lemma slice_recent m mid recent :
  length recent = 4%nat ->
  Js.slice (-4) None (m :: mid ++ recent) = recent.
Proof.
  intros Hrecent. unfold Js.slice, Js.rel_index.
  replace (-4 <? 0) with true by done.
  assert (Z.of_nat (length (m :: mid ++ recent)) = Z.of_nat (length mid) + 5) as ->
    by (cbn [length]; rewrite length_app; lia).
  replace (Z.to_nat (Z.max (Z.of_nat (length mid) + 5 + -4) 0)) with (S (length mid)) by lia.
  replace (Z.to_nat _) with 4%nat by lia.
  cbn [drop]. rewrite drop_app_length. apply take_ge. lia.
Qed.

(** [messages.slice(1, -4)] *)
Lemma slice_old m mid recent :
  length recent = 4%nat ->
  Js.slice 1 (Some (-4)) (m :: mid ++ recent) = mid.
Proof.
  intros Hrecent. unfold Js.slice, Js.rel_index.
  replace (-4 <? 0) with true by done. replace (1 <? 0) with false by done.
  assert (Z.of_nat (length (m :: mid ++ recent)) = Z.of_nat (length mid) + 5) as ->
    by (cbn [length]; rewrite length_app; lia).
  replace (Z.to_nat (Z.min 1 (Z.of_nat (length mid) + 5))) with 1%nat by lia.
  replace (Z.to_nat _) with (length mid) by lia.
  cbn [drop]. rewrite drop_0. apply take_app_length.
Qed.

(** A conversation of five or more messages is the first message, a
    middle, and the last four. *)
Lemma split_conversation (ms : list Message) :
  (5 <= length ms)%nat ->
  exists m mid recent, ms = m :: mid ++ recent /\ length recent = 4%nat.
Proof.
  intros Hlen. destruct ms as [| m rest]; [cbn in Hlen; lia |].
  exists m, (take (length rest - 4) rest), (drop (length rest - 4) rest).
  rewrite take_drop, length_drop. cbn in Hlen. split; [done | lia].
Qed.

Lemma compact_split a m mid recent :
  messages a = m :: mid ++ recent ->
  length recent = 4%nat ->
  compact a =
    if bool_decide (length mid = 0%nat) then a
    else set_messages (m :: summaryMessage mid :: recent) a.
Proof.
  intros Hms Hrecent. unfold compact. rewrite Hms.
  replace (Z.of_nat (length (m :: mid ++ recent)) <=? 4) with false
    by (symmetry; apply Z.leb_gt; cbn [length]; rewrite length_app; lia).
  by rewrite slice_recent, slice_old.
Qed.

(** C8, as the code has it.  A conversation of at most five messages is
    left as it is.  With six or more, the first message and the last four
    are kept verbatim and the messages between them become one [system]
    message: the start marker, one line per elided message, the end
    marker, joined by line feeds.  The line of a message is its role, a
    colon and a space, and the first 200 characters of a string content
    (a fixed placeholder for a content that is not a string). *)
Theorem compact_keeps_ends a :
  (Z.of_nat (length (messages a)) <= 5 -> compact a = a)
  /\ (forall m mid recent,
        messages a = m :: mid ++ recent ->
        length recent = 4%nat ->
        mid <> [] ->
        messages (compact a)
          = m ::
            {| role := Role.system;
               content :=
                 StringContent
                   ("[Previous conversation summary]" ++ Js.nl ++
                    Js.join Js.nl (summaryLine <$> mid) ++ Js.nl ++
                    "[End summary]") |} ::
            recent
        /\ compact a = set_messages (messages (compact a)) a)
  /\ (forall m s,
        content m = StringContent s ->
        exists rest,
          summaryLine m = Role.show (role m) ++ ": " ++ Js.str_take 200 s
          /\ s = Js.str_take 200 s ++ rest
          /\ String.length (Js.str_take 200 s) = Nat.min 200 (String.length s))
  /\ (forall m parts,
        content m = PartsContent parts ->
        summaryLine m = Role.show (role m) ++ ": [complex content]").
Proof.
  split_and!.
  - intros Hlen.
    destruct (decide (Z.of_nat (length (messages a)) <= 4)) as [Hshort | Hfive].
    + unfold compact. by replace (_ <=? 4) with true by (symmetry; apply Z.leb_le; lia).
    + destruct (split_conversation (messages a)) as (m & mid & recent & Hms & Hrecent);
        [lia |].
      rewrite (compact_split a m mid recent Hms Hrecent).
      rewrite Hms in Hlen. cbn [length] in Hlen. rewrite length_app in Hlen.
      by rewrite bool_decide_eq_true_2 by lia.
  - intros m mid recent Hms Hrecent Hmid.
    rewrite (compact_split a m mid recent Hms Hrecent).
    rewrite bool_decide_eq_false_2 by (by destruct mid).
    done.
  - intros m s Hs. destruct (str_take_prefix 200 s) as (rest & Hrest & Hlen).
    exists rest. unfold summaryLine. by rewrite Hs.
  - intros m parts Hparts. unfold summaryLine. by rewrite Hparts.
Qed.

End WithArgs.

Lemma compact_keeps_ends_witness :
  let ms := [Demo.msg Role.system "s"; Demo.msg Role.user "one";
             Demo.msg Role.assistant "two"; Demo.msg Role.user "three";
             Demo.msg Role.assistant "four"; Demo.msg Role.user "five";
             Demo.msg Role.assistant "six"] in
  let a := set_messages ms (Demo.ready on_request None None) in
  messages (compact a)
    = [Demo.msg Role.system "s";
       Demo.msg Role.system
         ("[Previous conversation summary]" ++ Js.nl ++
          "user: one" ++ Js.nl ++ "assistant: two" ++ Js.nl ++ "[End summary]");
       Demo.msg Role.user "three"; Demo.msg Role.assistant "four";
       Demo.msg Role.user "five"; Demo.msg Role.assistant "six"].
Proof.
  intros ms a.
  destruct (compact_keeps_ends a) as (_ & Hlong & _).
  destruct (Hlong (Demo.msg Role.system "s")
              [Demo.msg Role.user "one"; Demo.msg Role.assistant "two"]
              [Demo.msg Role.user "three"; Demo.msg Role.assistant "four";
               Demo.msg Role.user "five"; Demo.msg Role.assistant "six"])
    as [Hmessages _].
  - reflexivity.
  - reflexivity.
  - discriminate.
  - exact Hmessages.
Defined.

(** C8, as the specification has it, fails on five messages: nothing
    lies strictly between the first message and the last four, and the
    conversation is left as it is, with no summary message put in. *)
Lemma compact_five_messages_unchanged :
  let ms := [Demo.msg Role.system "s"; Demo.msg Role.user "one";
             Demo.msg Role.assistant "two"; Demo.msg Role.user "three";
             Demo.msg Role.assistant "four"] in
  let a := set_messages ms (Demo.ready on_request None None) in
  length (messages a) = 5%nat /\ messages (compact a) = ms.
Proof. split; vm_compute; reflexivity. Qed.

End Compaction.

(** * The system message stays at index 0 *)

Module Invariant.
Import Connector AgentCore Conversation.
Section WithEnvironment.

Context {Args : Type} (stringify : Args -> string).
Context (formatContextForPrompt : list LoadedContextFile -> string).
Context (platform : string).
Context (toolRegistry : Tools.Registry Args).

Implicit Types (a : @Agent Args) (op : @Operation Args) (ms : list Message).

Local Abbreviation apply := (apply stringify formatContextForPrompt platform toolRegistry).
Local Abbreviation reachable := (reachable stringify formatContextForPrompt platform toolRegistry).
Local Abbreviation chat := (chat stringify toolRegistry).
Local Abbreviation initialize := (initialize formatContextForPrompt platform).
Local Abbreviation refreshContext := (refreshContext formatContextForPrompt platform).

Lemma system_first_cons m ms : role m = Role.system -> system_first (m :: ms).
Proof. intros Hm. by exists m. Qed.

Lemma system_first_inv ms :
  system_first ms -> exists m rest, ms = m :: rest /\ role m = Role.system.
Proof. intros (m & Hm & Hrole). destruct ms as [| m' rest]; naive_solver. Qed.

Lemma system_first_app ms more : system_first ms -> system_first (ms ++ more).
Proof.
  intros (m & rest & -> & Hrole)%system_first_inv. by apply system_first_cons.
Qed.

(** [chat] only appends to the conversation and leaves the checkpoints. *)
Lemma chat_appends streamText userMessage a :
  (exists more, messages (chat streamText userMessage a).1.1 = (messages a ++ more)%list)
  /\ checkpoints (session (chat streamText userMessage a).1.1) = checkpoints (session a).
Proof.
  unfold AgentCore.chat. destruct (agent_provider a) as [p |].
  - destruct (streamText _) as [effects [e | parts [e | u]]]; cbn.
    + split; [by eexists | done].
    + split; [by eexists | done].
    + split; [| done]. eexists. by rewrite <- app_assoc.
  - split; [| done]. exists []. by rewrite app_nil_r.
Qed.

Lemma initialize_messages created a :
  (messages (initialize created a).1 = messages a
   \/ messages (initialize created a).1 = [systemMessageOf formatContextForPrompt platform a (contextFiles a)])
  /\ checkpoints (session (initialize created a).1) = checkpoints (session a).
Proof.
  unfold AgentCore.initialize.
  destruct (agent_provider a); [by split; [right |] |].
  destruct created; by split; [(left + right) |].
Qed.

Lemma compact_head a :
  compact a = a
  \/ exists m rest more, messages a = m :: rest /\ messages (compact a) = m :: more.
Proof.
  unfold compact. case_match; [by left |].
  destruct (messages a) as [| m rest] eqn:Hms; [by left |].
  case_match; [by left |]. right. exists m, rest. eexists. split; [done |]. cbn. done.
Qed.

Lemma compact_checkpoints a : checkpoints (session (compact a)) = checkpoints (session a).
Proof. unfold compact. repeat case_match; done. Qed.

(** Every call is defined on a conversation that starts with the system
    message. *)
Lemma apply_defined op a : system_first (messages a) -> is_Some (apply op a).
Proof.
  intros (m & rest & Hms & _)%system_first_inv.
  destruct op; cbn [AgentCore.apply]; try done. unfold clear. by rewrite Hms.
Qed.

Lemma apply_well_formed op a a' :
  well_formed a -> apply op a = Some a' -> well_formed a'.
Proof.
  intros [Hlive Hsaved] Happly. unfold well_formed.
  destruct op; cbn [AgentCore.apply] in Happly; simplify_eq.
  - destruct (initialize_messages created a) as [[-> | ->] ->]; split; try done.
    by apply system_first_cons.
  - destruct (chat_appends streamText userMessage a) as [[more ->] ->].
    split; [by apply system_first_app | done].
  - split; [done |].
    destruct (Store.saveCheckpoint_checkpoints uuid now tag_ a) as [-> _].
    cbn zeta.
    assert (Forall (fun c => system_first (checkpoint_messages c))
              (checkpoints (session a) ++ [(saveCheckpoint uuid now tag_ a).2])) as Hpushed
      by (apply Forall_app; split; [done | by apply Forall_singleton]).
    case_match; [by apply Forall_drop | done].
  - rewrite Store.restoreCheckpoint_first_match.
    destruct (list_find _ _) as [[i c] |] eqn:Hfind; [| done].
    apply list_find_Some in Hfind as (Hi & _ & _).
    split; [| done]. cbn. by eapply Forall_lookup_1 in Hsaved.
  - split; [| by rewrite compact_checkpoints].
    destruct (compact_head a) as [-> | (m & rest & more & Hms & ->)]; [done |].
    rewrite Hms in Hlive. destruct Hlive as (m' & Hm' & Hrole). cbn in Hm'. simplify_eq.
    by apply system_first_cons.
  - apply system_first_inv in Hlive as (m & rest & Hms & Hrole).
    unfold clear in Happly. rewrite Hms in Happly. simplify_eq.
    split; [by apply system_first_cons | done].
  - unfold switchProvider. destruct created; done.
  - apply system_first_inv in Hlive as (m & rest & Hms & Hrole).
    unfold AgentCore.refreshContext. cbn. rewrite Hms, Hrole. cbn.
    split; [by apply system_first_cons | done].
Qed.

(** The calls that do not write index 0 leave the message there as it is. *)
Lemma apply_keeps_system op a a' :
  system_first (messages a) ->
  apply op a = Some a' ->
  writes_system op = false ->
  messages a' !! 0%nat = messages a !! 0%nat.
Proof.
  intros (m & rest & Hms & _)%system_first_inv Happly Hop.
  destruct op; cbn [AgentCore.apply] in Happly; cbn in Hop; simplify_eq.
  - destruct (chat_appends streamText userMessage a) as [[more ->] _]. by rewrite Hms.
  - done.
  - destruct (compact_head a) as [-> | (m' & rest' & more & Hold & Hnew)]; [done |].
    by rewrite Hnew, Hold.
  - unfold clear in Happly. rewrite Hms in Happly. simplify_eq. cbn. by rewrite Hms.
  - unfold switchProvider. by destruct created.
Qed.

Lemma created_well_formed uuid now loaded created cfg dir given opts a :
  createAgent formatContextForPrompt platform uuid now loaded created cfg dir given opts
    = inr a ->
  well_formed a.
Proof.
  unfold createAgent, AgentCore.initialize. cbn.
  destruct given; [| destruct created]; intros; simplify_eq;
    (split; [by apply system_first_cons | done]).
Qed.

Lemma reachable_well_formed a : reachable a -> well_formed a.
Proof.
  induction 1 as [uuid now loaded created cfg dir given opts a Hcreated | op a a' _ IH Happly].
  - by eapply created_well_formed.
  - by eapply apply_well_formed.
Qed.

(** A reachable agent has a provider. *)
Lemma reachable_provider a : reachable a -> is_Some (agent_provider a).
Proof.
  induction 1 as [uuid now loaded created cfg dir given opts a Hcreated | op a a' _ IH Happly].
  - unfold createAgent, AgentCore.initialize in Hcreated. cbn in Hcreated.
    destruct given; [| destruct created]; simplify_eq; done.
  - destruct op; cbn [AgentCore.apply] in Happly; simplify_eq.
    + unfold AgentCore.initialize. destruct (agent_provider a); [done | by destruct IH].
    + assert (agent_provider (chat streamText userMessage a).1.1 = agent_provider a)
        as ->; [| done].
      unfold AgentCore.chat. destruct (agent_provider a) as [p |] eqn:Hp; [| done].
      by destruct (streamText _) as [effects [e | parts [e | u]]].
    + unfold saveCheckpoint. cbn. done.
    + unfold restoreCheckpoint. by case_match.
    + unfold compact. by repeat case_match.
    + unfold clear in Happly. destruct (messages a); by simplify_eq.
    + unfold switchProvider. by destruct created.
    + unfold AgentCore.refreshContext. cbn. by repeat case_match.
Qed.

(** C5, as the code has it.  On every agent reachable from [createAgent]
    by any calls, the conversation has a message at index 0 with role
    [system], and so has the conversation of every checkpoint.  Every call
    is defined there and leaves a [system] message at index 0: it is never
    removed.  What is at index 0 after a call: [initialize] resets the
    conversation to the system prompt for the current context files;
    [refreshContext] puts the prompt for the files just loaded;
    a [restoreCheckpoint] that finds a checkpoint puts the conversation of
    that checkpoint, so its system message, and one that finds none
    changes nothing; every other call leaves the message that was
    there. *)
Theorem system_message_first a :
  reachable a ->
  system_first (messages a)
  /\ Forall (fun c => system_first (checkpoint_messages c)) (checkpoints (session a))
  /\ (forall op, exists a', apply op a = Some a' /\ system_first (messages a'))
  /\ (forall op a',
        apply op a = Some a' ->
        match op with
        | op_initialize _ =>
            messages a'
              = [systemMessageOf formatContextForPrompt platform a (contextFiles a)]
        | op_refreshContext loaded =>
            messages a' !! 0%nat
              = Some (systemMessageOf formatContextForPrompt platform a loaded)
        | op_restoreCheckpoint idOrTag =>
            match list_find (fun c => matches idOrTag c = true) (checkpoints (session a)) with
            | Some (_, c) => messages a' = checkpoint_messages c
            | None => a' = a
            end
        | _ => messages a' !! 0%nat = messages a !! 0%nat
        end).
Proof.
  intros Hreach. pose proof (reachable_well_formed a Hreach) as Hwf.
  split_and!.
  - apply Hwf.
  - apply Hwf.
  - intros op. destruct (apply_defined op a) as [a' Ha']; [apply Hwf |].
    exists a'. split; [done |]. by eapply apply_well_formed.
  - intros op a' Happly.
    destruct op;
      try (eapply apply_keeps_system; [apply Hwf | exact Happly | reflexivity]);
      cbn [AgentCore.apply] in Happly; simplify_eq.
    + destruct (reachable_provider a Hreach) as [p Hp].
      unfold AgentCore.initialize. by rewrite Hp.
    + rewrite Store.restoreCheckpoint_first_match.
      by destruct (list_find _ _) as [[i c] |].
    + destruct Hwf as [(m & rest & Hms & Hrole)%system_first_inv _].
      unfold AgentCore.refreshContext. cbn. by rewrite Hms, Hrole.
Qed.

End WithEnvironment.

(** An agent that has chatted, saved, compacted and restored. *)
Lemma system_message_first_witness :
  let streamText : ModelConnector Demo.Args :=
    fun _ => ([], Streamed [text_delta "hi"] (inr Demo.usage)) in
  let a1 := (chat Demo.stringify Demo.toolRegistry streamText "hello"
               (Demo.ready on_request None None)).1.1 in
  let a2 := (saveCheckpoint "u1" 1 (Some "t") a1).1 in
  let a3 := (restoreCheckpoint "t" (compact a2)).1 in
  system_first (messages a3).
Proof.
  intros streamText a1 a2 a3.
  apply (system_message_first Demo.stringify Demo.formatContextForPrompt Demo.platform
           Demo.toolRegistry a3).
  apply (reachable_step _ _ _ _ (op_restoreCheckpoint "t") (compact a2)); [| reflexivity].
  apply (reachable_step _ _ _ _ op_compact a2); [| reflexivity].
  apply (reachable_step _ _ _ _ (op_saveCheckpoint "u1" 1 (Some "t")) a1); [| reflexivity].
  apply (reachable_step _ _ _ _ (op_chat streamText "hello")
           (Demo.ready on_request None None)); [| reflexivity].
  apply (reachable_created _ _ _ _ "session-1" 0 [] (inr Demo.openai)
           (Demo.cfg on_request None) "/work" None {| onApprovalRequest := None |}).
  reflexivity.
Defined.

(** C5, as the specification has it, fails.  A checkpoint saved before
    [initialize] holds the empty conversation; restoring it after
    [initialize] leaves no message at index 0.  And on an agent from
    [createAgent]: save, refresh the context, restore; the restore, not a
    refresh, replaces the message at index 0, by the prompt from before
    the refresh, while the context files stay the refreshed ones. *)
Lemma restoreCheckpoint_replaces_system_message :
  let early := (saveCheckpoint "early" 1 None (Demo.fresh on_request None None)).1 in
  let started := initialize Demo.formatContextForPrompt Demo.platform (inr Demo.openai) early in
  let emptied := restoreCheckpoint "early" started.1 in
  let notes := {| file_path := "AGENTS.md"; file_content := "Use tabs." |} in
  let created :=
    createAgent Demo.formatPaths Demo.platform "session-1" 0 [] (inr Demo.openai)
      (Demo.cfg on_request None) "/work" None {| onApprovalRequest := None |} in
  let b0 := (initialize Demo.formatPaths Demo.platform (inr Demo.openai)
               (Demo.fresh on_request None None)).1 in
  let b1 := (saveCheckpoint "s" 1 None b0).1 in
  let b2 := (refreshContext Demo.formatPaths Demo.platform [notes] b1).1 in
  let b3 := restoreCheckpoint "s" b2 in
  (started.2 = inr tt
   /\ system_first (messages started.1)
   /\ emptied.2 = true
   /\ messages emptied.1 = []
   /\ ~ system_first (messages emptied.1))
  /\ (created = inr b0
      /\ b3.2 = true
      /\ system_first (messages b2)
      /\ messages b3.1 !! 0%nat <> messages b2 !! 0%nat
      /\ messages b3.1 !! 0%nat = messages b0 !! 0%nat
      /\ contextFiles b3.1 = [notes]).
Proof.
  intros early started emptied notes created b0 b1 b2 b3.
  split; split_and!; try (vm_compute; reflexivity).
  - eexists. split; [vm_compute; reflexivity | reflexivity].
  - intros (m & Hm & _). vm_compute in Hm. discriminate.
  - eexists. split; [vm_compute; reflexivity | reflexivity].
  - intros Heq.
    assert (messages b3.1 !! 0%nat
            = Some (systemMessageOf Demo.formatPaths Demo.platform b0 [])) as Hold
      by (vm_compute; reflexivity).
    assert (messages b2 !! 0%nat
            = Some (systemMessageOf Demo.formatPaths Demo.platform b0 [notes])) as Hnew
      by (vm_compute; reflexivity).
    rewrite Hold, Hnew in Heq.
    apply (f_equal (fun m => match m with
                             | Some {| content := StringContent text |} =>
                                 String.length text
                             | _ => 0%nat
                             end)) in Heq.
    vm_compute in Heq. discriminate.
Qed.

End Invariant.

(** * More on the tool registry and the gate *)

Module GateMore.
Local Abbreviation configPolicy := approvalPolicy.
Import Tools Builtin.
Section WithArgs.

Context {Args : Type} (stringify : Args -> string).

Implicit Types (toolRegistry : Registry Args) (tool : RegisteredTool Args)
  (context : ToolExecutionContext Args) (args : Args).

(** A call to a name that is not registered fails with the unknown-tool
    error; nobody is asked and nothing is run.  Through
    [createToolExecutor] the caller gets the error text. *)
Theorem executeTool_unknown_tool toolRegistry stamp toolName args context :
  getTool toolRegistry toolName = None ->
  executeTool stringify toolRegistry stamp toolName args context
    = ([], {| success := false; output := None;
              error := Some ("Unknown tool: " ++ toolName) |})
  /\ createToolExecutor stringify toolRegistry stamp context toolName args
    = ([], "Error: " ++ ("Unknown tool: " ++ toolName)).
Proof.
  intros Hget. unfold createToolExecutor, executeTool. rewrite Hget. done.
Qed.

(** Whatever the registry, the policy and the approver: one call asks at
    most once and runs at most one tool, the one that was named, with the
    arguments given; it never asks after running; and when it asked and
    still ran, the approver had said yes to that very request. *)
Theorem executeTool_effects toolRegistry stamp toolName args context :
  let effects := (executeTool stringify toolRegistry stamp toolName args context).1 in
  (effects = []
   \/ effects = [Executed toolName args]
   \/ (exists request, effects = [Prompted request])
   \/ (exists request, effects = [Prompted request; Executed toolName args]))
  /\ (forall request approver,
        Prompted request ∈ effects ->
        onApprovalRequest context = Some approver ->
        (approver request = true <-> Executed toolName args ∈ effects)).
Proof.
  unfold executeTool.
  destruct (getTool toolRegistry toolName) as [tool |]; cbn.
  - destruct (needsApproval tool context), (onApprovalRequest context) as [approver |]; cbn.
    + destruct (approver _) eqn:Hanswer; cbn.
      * split; [right; right; right; by eexists |].
        intros request approver' Hin Heq. injection Heq as <-.
        apply elem_of_cons in Hin as [Hin | Hin].
        -- injection Hin as ->. split; [intros _; apply elem_of_cons; right; by left | done].
        -- apply list_elem_of_singleton in Hin. discriminate.
      * split; [right; right; left; by eexists |].
        intros request approver' Hin Heq. injection Heq as <-.
        apply list_elem_of_singleton in Hin. injection Hin as ->.
        rewrite Hanswer. split; [done |].
        intros Hran. apply list_elem_of_singleton in Hran. discriminate.
    + split; [by right; left |].
      intros request approver' Hin. apply list_elem_of_singleton in Hin. discriminate.
    + split; [by right; left |].
      intros request approver' Hin. apply list_elem_of_singleton in Hin. discriminate.
    + split; [by right; left |].
      intros request approver' Hin. apply list_elem_of_singleton in Hin. discriminate.
  - split; [by left |]. intros request approver' Hin. by apply elem_of_nil in Hin.
Qed.

(** Under [on-failure] no tool is ever gated: the approver is not asked,
    the tool runs, and the outcome is the one under [never]. *)
Theorem executeTool_on_failure toolRegistry stamp toolName args approver :
  let context := {| approvalPolicy := on_failure; onApprovalRequest := approver |} in
  executeTool stringify toolRegistry stamp toolName args context
    = executeTool stringify toolRegistry stamp toolName args
        {| approvalPolicy := never; onApprovalRequest := approver |}
  /\ prompts (executeTool stringify toolRegistry stamp toolName args context).1 = [].
Proof.
  unfold executeTool. destruct (getTool toolRegistry toolName) as [tool |]; [| done].
  unfold needsApproval. cbn. rewrite !andb_false_r. done.
Qed.

Lemma keyed_by_name_empty : keyed_by_name (∅ : Registry Args).
Proof. intros key tool Hkey. unfold Registry in Hkey. by rewrite lookup_empty in Hkey. Qed.

Lemma keyed_by_name_register toolRegistry tool :
  keyed_by_name toolRegistry -> keyed_by_name (registerTool tool toolRegistry).
Proof.
  unfold registerTool, keyed_by_name, Registry in *.
  intros Hkeyed key t. rewrite lookup_insert.
  case_decide; [by intros; simplify_eq | apply Hkeyed].
Qed.

(** [registerTool] then [getTool]: the last registration under a name
    wins, every other name is untouched, registering a tool twice is
    registering it once, and a registry whose entries sit under their own
    names stays so. *)
Theorem registerTool_getTool toolRegistry tool :
  getTool (registerTool tool toolRegistry) (name tool) = Some tool
  /\ (forall other, other <> name tool ->
        getTool (registerTool tool toolRegistry) other = getTool toolRegistry other)
  /\ (forall earlier, name earlier = name tool ->
        registerTool tool (registerTool earlier toolRegistry)
          = registerTool tool toolRegistry)
  /\ (keyed_by_name toolRegistry -> keyed_by_name (registerTool tool toolRegistry)).
Proof.
  unfold getTool, registerTool, keyed_by_name, Registry in *. split_and!.
  - by rewrite lookup_insert_eq.
  - intros other Hother. by rewrite lookup_insert_ne.
  - intros earlier Hsame. by rewrite Hsame, insert_insert_eq.
  - apply keyed_by_name_register.
Qed.

Context (thought : Args -> option string).

Implicit Types (entries fileTools shellTools webTools : list (string * ToolImpl Args)).

Lemma registerEntries_lookup cat approval entries toolRegistry key tool :
  registerEntries cat approval entries toolRegistry !! key = Some tool ->
  ((key ∈ entries.*1) /\ name tool = key /\ category tool = cat
   /\ requiresApproval tool = approval key)
  \/ ((key ∉ entries.*1) /\ toolRegistry !! key = Some tool).
Proof.
  unfold registerEntries, Registry in *. revert toolRegistry.
  induction entries as [| [toolName impl] entries IH]; intros toolRegistry Hkey.
  - right. split; [apply not_elem_of_nil | done].
  - cbn [fold_left] in Hkey. apply IH in Hkey as [(Hin & Hrest) | (Hout & Hkey)].
    + left. split; [| done]. rewrite fmap_cons. by apply elem_of_cons; right.
    + unfold registerTool, Registry in Hkey. cbn [name] in Hkey.
      rewrite lookup_insert in Hkey.
      case_decide as Hname.
      * injection Hkey as <-. subst key. left.
        split; [rewrite fmap_cons; by apply elem_of_cons; left | done].
      * right. split; [| done]. rewrite fmap_cons. cbn.
        intros [Heq | Hin]%elem_of_cons; [by subst | done].
Qed.

Lemma registerEntries_registered cat approval entries toolRegistry key :
  is_Some (registerEntries cat approval entries toolRegistry !! key)
  <-> (key ∈ entries.*1) \/ is_Some (toolRegistry !! key).
Proof.
  unfold registerEntries, Registry in *. revert toolRegistry.
  induction entries as [| [toolName impl] entries IH]; intros toolRegistry.
  - cbn. split; [by right | intros [Hin | Hreg]; [by apply elem_of_nil in Hin | done]].
  - cbn [fold_left]. rewrite IH. unfold registerTool, Registry. cbn [name].
    rewrite lookup_insert_is_Some, fmap_cons, elem_of_cons. cbn.
    destruct (decide (toolName = key)); intuition congruence.
Qed.

(** The registry as the module leaves it on load.  [think] is there as
    declared, whatever else carries that name.  The registered names are
    [think] and the names of the file, shell and web tools.  Besides
    [think], a name among the web tools is a web tool that needs no
    approval; otherwise a name among the shell tools is a shell tool that
    needs approval; otherwise it is a file tool, needing approval exactly
    when its name includes write, edit or delete.  Every entry sits under
    its own name. *)
Theorem initializeBuiltInTools_registry fileTools shellTools webTools :
  let registry := initializeBuiltInTools thought fileTools shellTools webTools ∅ in
  getTool registry "think" = Some (thinkTool thought)
  /\ keyed_by_name registry
  /\ (forall key,
        is_Some (getTool registry key) <->
        key = "think" \/ (key ∈ webTools.*1) \/ (key ∈ shellTools.*1)
        \/ (key ∈ fileTools.*1))
  /\ (forall key tool,
        getTool registry key = Some tool -> key <> "think" ->
        if decide (key ∈ webTools.*1)
        then category tool = cat_web /\ requiresApproval tool = false
        else if decide (key ∈ shellTools.*1)
        then category tool = cat_shell /\ requiresApproval tool = true
        else category tool = cat_file /\ requiresApproval tool = fileNeedsApproval key).
Proof.
  cbn zeta. unfold initializeBuiltInTools, getTool.
  assert (forall key tool,
            key <> "think" ->
            registerTool (thinkTool thought)
              (registerEntries cat_web (fun _ => false) webTools
                 (registerEntries cat_shell (fun _ => true) shellTools
                    (registerEntries cat_file fileNeedsApproval fileTools ∅))) !! key
              = Some tool ->
            name tool = key /\
            if decide (key ∈ webTools.*1)
            then category tool = cat_web /\ requiresApproval tool = false
            else if decide (key ∈ shellTools.*1)
            then category tool = cat_shell /\ requiresApproval tool = true
            else category tool = cat_file /\ requiresApproval tool = fileNeedsApproval key)
    as Hclass.
  { intros key tool Hkey. unfold registerTool, Registry. cbn [name].
    rewrite lookup_insert_ne by done. intros Hweb.
    apply registerEntries_lookup in Hweb as [(Hin & Hname & Hcat & Happ) | (Hout & Hshell)].
    { by rewrite decide_True by done. }
    rewrite decide_False by done.
    apply registerEntries_lookup in Hshell as [(Hin & Hname & Hcat & Happ) | (Hout' & Hfile)].
    { by rewrite decide_True by done. }
    rewrite decide_False by done.
    apply registerEntries_lookup in Hfile as [(Hin & Hname & Hcat & Happ) | (_ & Hnone)].
    { done. }
    unfold Registry in Hnone. by rewrite lookup_empty in Hnone. }
  split_and!.
  - unfold registerTool, Registry. cbn [name]. by rewrite lookup_insert_eq.
  - intros key tool Hlookup. destruct (decide (key = "think")) as [-> | Hkey].
    + unfold registerTool, Registry in Hlookup. cbn [name] in Hlookup.
      rewrite lookup_insert_eq in Hlookup. by injection Hlookup as <-.
    + by apply Hclass in Hlookup as [Hname _].
  - intros key. unfold registerTool, Registry. cbn [name].
    rewrite lookup_insert_is_Some.
    pose proof (registerEntries_registered cat_web (fun _ => false) webTools
                  (registerEntries cat_shell (fun _ => true) shellTools
                     (registerEntries cat_file fileNeedsApproval fileTools ∅)) key) as Hweb.
    pose proof (registerEntries_registered cat_shell (fun _ => true) shellTools
                  (registerEntries cat_file fileNeedsApproval fileTools ∅) key) as Hshell.
    pose proof (registerEntries_registered cat_file fileNeedsApproval fileTools ∅ key)
      as Hfile.
    unfold Registry in *. rewrite lookup_empty in Hfile.
    assert (~ is_Some (@None (RegisteredTool Args))) as Hnone by (by intros [? ?]).
    change (name (thinkTool thought)) with "think". clear Hclass.
    rewrite Hweb, Hshell, Hfile. clear Hweb Hshell Hfile.
    destruct (decide (key = "think")) as [-> | Hkey]; [by split; left |].
    split.
    + intros [Heq | [_ Hrest]]; [by subst |]. right.
      destruct Hrest as [Hin | [Hin | [Hin | Hin]]]; tauto.
    + intros [Heq | Hrest]; [done |]. right. split; [done |]. tauto.
  - intros key tool Hlookup Hkey. by apply Hclass in Hlookup as [_ Hrest].
Qed.

(** The two wrappers around [executeTool], [createToolExecutor] and the
    [execute] callback the agent hands to the SDK, do the same to the
    outside and give the same text, except when the tool succeeded with
    an empty or missing output: then the first says ['Success'] and the
    second passes the empty or missing output on. *)
Theorem wrappers_agree formatToolRegistry (a : @AgentCore.Agent Args) stamp toolName args
    definition :
  keyed_by_name formatToolRegistry ->
  AgentCore.buildToolDefinitions stringify formatToolRegistry a !! toolName
    = Some definition ->
  let context := {| approvalPolicy := configPolicy (AgentCore.config a);
                    onApprovalRequest :=
                      AgentCore.onApprovalRequest (AgentCore.options a) |} in
  let result := (executeTool stringify formatToolRegistry stamp toolName args context).2 in
  let '(effects, value) := Connector.def_execute definition stamp args in
  let '(effects', text) :=
    createToolExecutor stringify formatToolRegistry stamp context toolName args in
  effects = effects'
  /\ (value = Connector.VString text
      \/ (success result = true /\ text = "Success"
          /\ (value = Connector.VString "" \/ value = Connector.VUndefined))).
Proof.
  intros Hkeyed Hdefinition. unfold AgentCore.buildToolDefinitions in Hdefinition.
  apply lookup_fmap_Some in Hdefinition as (tool & <- & Htool).
  cbn [Connector.def_execute].
  rewrite (Hkeyed toolName tool Htool). unfold createToolExecutor. cbn zeta.
  destruct (executeTool _ _ _ _ _ _) as [effects result] eqn:Hrun. cbn [snd].
  split; [done |].
  destruct (success result) eqn:Hsuccess; [| by left].
  destruct (output result) as [text |]; [| right; by eauto].
  case_bool_decide as Hempty; [subst; right; by eauto | by left].
Qed.

(** The [exec] command.  With [--full-auto] the policy is [never] and
    every registered tool runs unasked.  Without it, a tool that requires
    approval under [untrusted] or [on-request] is asked about, denied and
    never run. *)
Theorem exec_mode_gate toolRegistry stamp toolName args (opts : Cli.CLIOptions)
    (cfg : OmniConfig) tool :
  getTool toolRegistry toolName = Some tool ->
  let context :=
    {| approvalPolicy := configPolicy (Cli.applyExecOptions opts cfg);
       onApprovalRequest := Some (Cli.execApprover opts) |} in
  (Cli.fullAuto opts = true ->
   executeTool stringify toolRegistry stamp toolName args context
     = ([Executed toolName args], runTool tool args))
  /\ (Cli.fullAuto opts = false ->
      requiresApproval tool = true ->
      default (configPolicy cfg) (Cli.opt_approval opts) = untrusted
      \/ default (configPolicy cfg) (Cli.opt_approval opts) = on_request ->
      executeTool stringify toolRegistry stamp toolName args context
        = ([Prompted (buildRequest stringify tool toolName args stamp)], notApproved)).
Proof.
  intros Hget context. subst context. unfold executeTool, Cli.applyExecOptions.
  rewrite Hget. split.
  - intros ->. cbn. unfold needsApproval. cbn. by rewrite andb_false_r.
  - intros Hauto Hrequires Hpolicy. rewrite Hauto. cbn [configPolicy Cli.applyOptions].
    assert (needsApproval tool
              {| approvalPolicy := default (configPolicy cfg) (Cli.opt_approval opts);
                 onApprovalRequest := Some (Cli.execApprover opts) |} = true) as ->.
    { apply Gate.needsApproval_true. done. }
    cbn [onApprovalRequest]. unfold Cli.execApprover. by rewrite Hauto.
Qed.

End WithArgs.

Lemma executeTool_unknown_tool_witness :
  executeTool Demo.stringify Demo.toolRegistry Demo.stamp "rm_rf" "{}"
      {| approvalPolicy := never; onApprovalRequest := None |}
    = ([], {| success := false; output := None; error := Some "Unknown tool: rm_rf" |}).
Proof.
  apply (executeTool_unknown_tool Demo.stringify Demo.toolRegistry Demo.stamp "rm_rf" "{}"
           {| approvalPolicy := never; onApprovalRequest := None |}).
  vm_compute. reflexivity.
Defined.

Lemma wrappers_agree_witness :
  (createToolExecutor Demo.stringify Demo.toolRegistry Demo.stamp
     {| approvalPolicy := on_request; onApprovalRequest := Some Demo.deny |}
     "shell" "{}").1
  = [Prompted (buildRequest Demo.stringify Demo.shell "shell" "{}" Demo.stamp)].
Proof.
  pose proof (wrappers_agree Demo.stringify Demo.toolRegistry
                (Demo.ready on_request None (Some Demo.deny)) Demo.stamp "shell" "{}"
                {| Connector.def_description := "Run a shell command";
                   Connector.def_execute := fun stamp args =>
                     let '(effects, result) :=
                       executeTool Demo.stringify Demo.toolRegistry stamp "shell" args
                         {| approvalPolicy := on_request;
                            onApprovalRequest := Some Demo.deny |} in
                     (effects,
                      if success result
                      then match output result with
                           | Some o => Connector.VString o
                           | None => Connector.VUndefined
                           end
                      else Connector.VString ("Error: " ++ Js.show_opt (error result))) |})
    as Hagree.
  cbn zeta in Hagree.
  destruct Hagree as [Heffects _].
  - unfold Demo.toolRegistry.
    repeat apply keyed_by_name_register. apply keyed_by_name_empty.
  - vm_compute. reflexivity.
  - symmetry. exact Heffects.
Defined.

Lemma exec_mode_gate_witness :
  let opts := {| Cli.opt_provider := None; Cli.opt_model := None; Cli.opt_sandbox := None;
                 Cli.opt_approval := Some untrusted; Cli.fullAuto := false |} in
  executeTool Demo.stringify Demo.toolRegistry Demo.stamp "shell" "{}"
      {| approvalPolicy :=
           configPolicy (Cli.applyExecOptions opts (Demo.cfg never None));
         onApprovalRequest := Some (Cli.execApprover opts) |}
    = ([Prompted (buildRequest Demo.stringify Demo.shell "shell" "{}" Demo.stamp)],
       notApproved).
Proof.
  intros opts.
  apply (exec_mode_gate Demo.stringify Demo.toolRegistry Demo.stamp "shell" "{}" opts
           (Demo.cfg never None) Demo.shell).
  - vm_compute. reflexivity.
  - reflexivity.
  - reflexivity.
  - left. reflexivity.
Defined.

End GateMore.

(** * More on the agent: statistics and [chat] *)

Module AgentMore.
Import Connector AgentCore.
Section WithEnvironment.

Context {Args : Type} (stringify : Args -> string).
Context (toolRegistry : Tools.Registry Args).

Implicit Types (a : @Agent Args) (streamText : ModelConnector Args)
  (parts : list (StreamPart Args)) (st : @LoopState Args) (s : SessionStats).

Local Abbreviation chat := (chat stringify toolRegistry).
Local Abbreviation chatRequest := (chatRequest stringify toolRegistry).

Lemma updateToolStats_grown toolName s :
  toolCalls (updateToolStats toolName s) = toolCalls s + 1
  /\ startTime (updateToolStats toolName s) = startTime s
  /\ promptTokens (updateToolStats toolName s) = promptTokens s
  /\ completionTokens (updateToolStats toolName s) = completionTokens s
  /\ totalTokens (updateToolStats toolName s) = totalTokens s
  /\ fileReads s <= fileReads (updateToolStats toolName s)
  /\ fileWrites s <= fileWrites (updateToolStats toolName s)
  /\ shellCommands s <= shellCommands (updateToolStats toolName s)
  /\ fileReads (updateToolStats toolName s) + fileWrites (updateToolStats toolName s)
     + shellCommands (updateToolStats toolName s)
     <= fileReads s + fileWrites s + shellCommands s + 1.
Proof. unfold updateToolStats. repeat case_match; cbn; lia. Qed.

(** One [tool-call] part counts as exactly one tool call, and as at most
    one of a file read, a file write and a shell command, tried in this
    order: a name that includes [read_file] or [list_directory] is a read
    whatever else it includes; else one that includes [write_file] or
    [edit_file] is a write; else [shell], or a name that includes
    [process], is a shell command.  Nothing else changes and nothing
    goes down. *)
Theorem updateToolStats_counts toolName s :
  let s' := updateToolStats toolName s in
  let reads := Js.includes toolName "read_file" || Js.includes toolName "list_directory" in
  let writes := Js.includes toolName "write_file" || Js.includes toolName "edit_file" in
  let shells := bool_decide (toolName = "shell") || Js.includes toolName "process" in
  toolCalls s' = toolCalls s + 1
  /\ startTime s' = startTime s
  /\ promptTokens s' = promptTokens s
  /\ completionTokens s' = completionTokens s
  /\ totalTokens s' = totalTokens s
  /\ fileReads s' = fileReads s + (if reads then 1 else 0)
  /\ fileWrites s' = fileWrites s + (if negb reads && writes then 1 else 0)
  /\ shellCommands s' = shellCommands s + (if negb reads && negb writes && shells then 1 else 0).
Proof.
  cbn zeta. unfold updateToolStats.
  destruct (Js.includes toolName "read_file" || Js.includes toolName "list_directory");
    [cbn; lia |].
  destruct (Js.includes toolName "write_file" || Js.includes toolName "edit_file");
    [cbn; lia |].
  destruct (bool_decide (toolName = "shell") || Js.includes toolName "process"); cbn; lia.
Qed.

Lemma processPart_grown st part :
  Stats.grown (loop_stats st) (loop_stats (processPart st part))
  /\ promptTokens (loop_stats (processPart st part)) = promptTokens (loop_stats st)
  /\ completionTokens (loop_stats (processPart st part)) = completionTokens (loop_stats st)
  /\ totalTokens (loop_stats (processPart st part)) = totalTokens (loop_stats st).
Proof.
  unfold Stats.grown. destruct part; cbn; try (split_and!; (done || lia)).
  pose proof (updateToolStats_grown toolName (loop_stats st)). split_and!; lia.
Qed.

Lemma grown_refl s : Stats.grown s s.
Proof. unfold Stats.grown. split_and!; (done || lia). Qed.

Lemma grown_trans s1 s2 s3 : Stats.grown s1 s2 -> Stats.grown s2 s3 -> Stats.grown s1 s3.
Proof. unfold Stats.grown. intros ? ?. split_and!; (congruence || lia). Qed.

Lemma stream_loop_grown parts st :
  Stats.grown (loop_stats st) (loop_stats (fold_left processPart parts st))
  /\ promptTokens (loop_stats (fold_left processPart parts st)) = promptTokens (loop_stats st)
  /\ completionTokens (loop_stats (fold_left processPart parts st))
     = completionTokens (loop_stats st)
  /\ totalTokens (loop_stats (fold_left processPart parts st)) = totalTokens (loop_stats st).
Proof.
  revert st. induction parts as [| part parts IH]; intros st; cbn [fold_left].
  - split; [apply grown_refl | done].
  - destruct (IH (processPart st part)) as (Hgrown & Hp & Hc & Ht).
    destruct (processPart_grown st part) as (Hgrown' & Hp' & Hc' & Ht').
    split; [by eapply grown_trans |]. split_and!; congruence.
Qed.

Lemma chat_loop_stats streamText userMessage a p effects parts final :
  agent_provider a = Some p ->
  streamText (chatRequest p (pushUser userMessage a)) = (effects, Streamed parts final) ->
  let s := stats (session a) in
  let s' := stats (session (chat streamText userMessage a).1.1) in
  let added (field : Usage -> Z) :=
    match final with
    | inl _ => 0
    | inr u => field u
    end in
  startTime s' = startTime s
  /\ promptTokens s' = promptTokens s + added usage_promptTokens
  /\ completionTokens s' = completionTokens s + added usage_completionTokens
  /\ totalTokens s' = totalTokens s + added usage_totalTokens
  /\ toolCalls s' = toolCalls s + Z.of_nat (length (Parts.calls parts)).
Proof.
  intros Hp Hstream. cbn zeta. unfold AgentCore.chat. rewrite Hp, Hstream.
  destruct (stream_loop_grown parts
              {| fullContent := ""; seenToolCalls := [];
                 loop_stats := stats (session (pushUser userMessage a)) |})
    as ((Hstart & _) & Hprompt & Hcompletion & Htotal).
  destruct (Chat.stream_loop parts
              {| fullContent := ""; seenToolCalls := [];
                 loop_stats := stats (session (pushUser userMessage a)) |})
    as (_ & _ & Hcalls).
  set (st := fold_left processPart parts _) in *. clearbody st.
  destruct st as [text calls counted].
  cbn in Hstart, Hprompt, Hcompletion, Htotal, Hcalls.
  destruct final as [e | u]; cbn; split_and!; (congruence || lia).
Qed.

Lemma chat_resolved_messages streamText userMessage a p effects parts u :
  agent_provider a = Some p ->
  streamText (chatRequest p (pushUser userMessage a)) = (effects, Streamed parts (inr u)) ->
  messages (chat streamText userMessage a).1.1
    = (messages a ++
       [{| role := Role.user; content := StringContent userMessage |};
        {| role := Role.assistant; content := StringContent (Parts.text parts) |}])%list.
Proof.
  intros Hp Hstream. unfold AgentCore.chat. rewrite Hp, Hstream.
  destruct (Chat.stream_loop parts
              {| fullContent := ""; seenToolCalls := [];
                 loop_stats := stats (session (pushUser userMessage a)) |})
    as (Htext & _ & _).
  set (st := fold_left processPart parts _) in *. clearbody st.
  destruct st as [text calls counted]. cbn in Htext |- *. rewrite Htext.
  by rewrite <- app_assoc.
Qed.


(** [chat] changes the conversation and the statistics and nothing else:
    configuration, provider, context files, options, session id,
    checkpoints and current index are as before, and the old conversation
    is a prefix of the new one, which is longer by at most the user and
    the assistant message. *)
Theorem chat_frame streamText userMessage a :
  let a' := (chat streamText userMessage a).1.1 in
  config a' = config a
  /\ workspaceDir a' = workspaceDir a
  /\ agent_provider a' = agent_provider a
  /\ contextFiles a' = contextFiles a
  /\ options a' = options a
  /\ session_id (session a') = session_id (session a)
  /\ checkpoints (session a') = checkpoints (session a)
  /\ currentCheckpoint (session a') = currentCheckpoint (session a)
  /\ exists more,
       messages a' = (messages a ++ more)%list /\ (length more <= 2)%nat.
Proof.
  cbn zeta. unfold AgentCore.chat. destruct (agent_provider a) as [p |] eqn:Hp.
  - destruct (streamText _) as [effects [e | parts [e | u]]]; cbn;
      split_and!; try done.
    + exists [{| role := Role.user; content := StringContent userMessage |}].
      split; [done | cbn; lia].
    + exists [{| role := Role.user; content := StringContent userMessage |}].
      split; [done | cbn; lia].
    + eexists. split; [by rewrite <- app_assoc | cbn; lia].
  - split_and!; try done. exists []. split; [by rewrite app_nil_r | cbn; lia].
Qed.

(** With a provider but an empty conversation (the provider was passed to
    the constructor, or set by [switchProvider], and [initialize] was
    never called) [chat] goes ahead: its guard looks at the provider only.
    The conversation is then the user message and the answer, with no
    system message in front. *)
Theorem chat_without_system_message streamText userMessage a p effects parts u :
  agent_provider a = Some p ->
  messages a = [] ->
  streamText (chatRequest p (pushUser userMessage a)) = (effects, Streamed parts (inr u)) ->
  messages (chat streamText userMessage a).1.1
    = [{| role := Role.user; content := StringContent userMessage |};
       {| role := Role.assistant; content := StringContent (Parts.text parts) |}]
  /\ ~ Conversation.system_first (messages (chat streamText userMessage a).1.1)
  /\ request_messages (chatRequest p (pushUser userMessage a))
     = [{| role := Role.user; content := StringContent userMessage |}].
Proof.
  intros Hp Hempty Hstream.
  assert (messages (chat streamText userMessage a).1.1
          = [{| role := Role.user; content := StringContent userMessage |};
             {| role := Role.assistant; content := StringContent (Parts.text parts) |}])
    as Hmessages.
  { rewrite (chat_resolved_messages streamText userMessage a p effects parts u Hp Hstream).
    by rewrite Hempty. }
  split_and!.
  - done.
  - rewrite Hmessages. intros (m & Hm & Hrole). cbn in Hm. by simplify_eq.
  - cbn. by rewrite Hempty.
Qed.

End WithEnvironment.


(** An agent built with a provider, and never initialized. *)
Lemma chat_without_system_message_witness :
  let streamText : ModelConnector Demo.Args :=
    fun _ => ([], Streamed [text_delta "hi"] (inr Demo.usage)) in
  let a := constructor "session-1" 0 [] (Demo.cfg on_request None) "/work"
             (Some Demo.openai) {| onApprovalRequest := None |} in
  messages (chat Demo.stringify Demo.toolRegistry streamText "hello" a).1.1
    = [Demo.msg Role.user "hello"; Demo.msg Role.assistant "hi"].
Proof.
  intros streamText a.
  refine (proj1 (chat_without_system_message Demo.stringify Demo.toolRegistry streamText
                   "hello" a Demo.openai [] [text_delta "hi"] Demo.usage _ _ _)).
  - reflexivity.
  - reflexivity.
  - reflexivity.
Defined.

End AgentMore.

(** * More on checkpoints, compaction and the other calls *)

Module SessionMore.
Import Connector AgentCore Checkpoints.
Section WithEnvironment.

Context {Args : Type} (stringify : Args -> string).
Context (formatContextForPrompt : list LoadedContextFile -> string).
Context (platform : string).
Context (toolRegistry : Tools.Registry Args).

Implicit Types (a b : @Agent Args) (op : @Operation Args) (ops : list (@Operation Args)).

Local Abbreviation apply := (apply stringify formatContextForPrompt platform toolRegistry).
Local Abbreviation applyAll :=
  (Runs.applyAll stringify formatContextForPrompt platform toolRegistry).
Local Abbreviation chat := (chat stringify toolRegistry).
Local Abbreviation chatRequest := (chatRequest stringify toolRegistry).
Local Abbreviation refreshContext := (refreshContext formatContextForPrompt platform).
Local Abbreviation systemMessageOf := (systemMessageOf formatContextForPrompt platform).

(** Only [saveCheckpoint] writes the checkpoint list. *)
Lemma apply_checkpoints op a a' :
  apply op a = Some a' ->
  Runs.is_save op = false ->
  checkpoints (session a') = checkpoints (session a).
Proof.
  intros Happly Hop. destruct op; cbn [AgentCore.apply] in Happly; cbn in Hop; simplify_eq.
  - by destruct (Invariant.initialize_messages formatContextForPrompt platform created a)
      as [_ ->].
  - by destruct (Invariant.chat_appends stringify toolRegistry streamText userMessage a)
      as [_ ->].
  - unfold restoreCheckpoint. by case_match.
  - apply Invariant.compact_checkpoints.
  - unfold clear in Happly. by case_match; simplify_eq.
  - unfold switchProvider. by case_match.
  - unfold AgentCore.refreshContext. cbn. by repeat case_match.
Qed.

Lemma applyAll_checkpoints ops a b :
  applyAll ops a = Some b ->
  Forall (fun op => Runs.is_save op = false) ops ->
  checkpoints (session b) = checkpoints (session a).
Proof.
  revert a. induction ops as [| op ops IH]; intros a Hrun Hops; cbn in Hrun.
  - by simplify_eq.
  - apply Forall_cons in Hops as [Hop Hops].
    destruct (apply op a) as [a' |] eqn:Happly; [| done].
    rewrite (IH a' Hrun Hops). by eapply apply_checkpoints.
Qed.

(** Save, then restore.  After [saveCheckpoint] (limit at least one, the
    uuid new), and after any calls that are no further [saveCheckpoint]
    ([chat], [compact], [clear], [refreshContext], [switchProvider],
    [initialize], other restores), [restoreCheckpoint] with that id
    succeeds and the conversation is again, message for message, the one
    that was saved. *)
Theorem save_restore_round_trip uuid now tag_ ops a b :
  1 <= limit a ->
  fresh uuid (checkpoints (session a)) ->
  Forall (fun op => Runs.is_save op = false) ops ->
  applyAll ops (saveCheckpoint uuid now tag_ a).1 = Some b ->
  (restoreCheckpoint uuid b).2 = true
  /\ messages (restoreCheckpoint uuid b).1 = messages a
  /\ (forall uuid' now' tag',
        checkpoint_messages (saveCheckpoint uuid' now' tag' (restoreCheckpoint uuid b).1).2
          = messages a).
Proof.
  intros Hlimit Hfresh Hops Hrun.
  pose proof (applyAll_checkpoints ops _ b Hrun Hops) as Hsame.
  pose proof (Store.saveCheckpoint_restore_fresh uuid now tag_ a Hlimit Hfresh) as Hrestore.
  cbn zeta in Hrestore.
  rewrite Store.restoreCheckpoint_first_match in Hrestore.
  assert ((restoreCheckpoint uuid b).2 = true
          /\ messages (restoreCheckpoint uuid b).1 = messages a) as [Hfound Hmessages].
  { rewrite Store.restoreCheckpoint_first_match, Hsame.
    destruct (list_find _ _) as [[i c] |]; [| done].
    split; [done |].
    apply (f_equal (fun r : @Agent Args * bool => messages r.1)) in Hrestore.
    by cbn in Hrestore |- *. }
  split_and!; [done | done |]. intros uuid' now' tag'. by cbn.
Qed.

(** [restoreCheckpoint] brings back the conversation only: statistics,
    checkpoint list and configuration stay as they are (the statistics
    stored in the checkpoint are not read), and restoring the same id or
    tag again changes nothing more. *)
Theorem restoreCheckpoint_frame idOrTag a :
  let r := restoreCheckpoint idOrTag a in
  stats (session r.1) = stats (session a)
  /\ checkpoints (session r.1) = checkpoints (session a)
  /\ config r.1 = config a
  /\ agent_provider r.1 = agent_provider a
  /\ restoreCheckpoint idOrTag r.1 = r.
Proof.
  cbn zeta. rewrite !Store.restoreCheckpoint_first_match.
  destruct (list_find _ (checkpoints (session a))) as [[i c] |] eqn:Hfind.
  - change (checkpoints (session (restored i c a, true).1)) with (checkpoints (session a)).
    by rewrite Hfind.
  - change (checkpoints (session (a, false).1)) with (checkpoints (session a)).
    by rewrite Hfind.
Qed.

(** [compact] never makes the conversation longer: up to five messages
    it keeps it, beyond that it leaves exactly six.  Whatever the length,
    the first message and the last four are the ones from before, and
    nothing but the conversation changes. *)
Theorem compact_length a :
  length (messages (compact a))
    = (if decide (length (messages a) <= 5)%nat then length (messages a) else 6%nat)
  /\ messages (compact a) !! 0%nat = messages a !! 0%nat
  /\ Js.slice (-4) None (messages (compact a)) = Js.slice (-4) None (messages a)
  /\ compact a = set_messages (messages (compact a)) a.
Proof.
  destruct (decide (length (messages a) <= 4)%nat) as [Hshort | Hlong].
  - assert (compact a = a) as ->.
    { unfold compact. by replace (_ <=? 4) with true by (symmetry; apply Z.leb_le; lia). }
    rewrite decide_True by lia. by destruct a.
  - destruct (Compaction.split_conversation (messages a)) as (m & mid & recent & Hms & Hrecent);
      [lia |].
    rewrite (Compaction.compact_split a m mid recent Hms Hrecent).
    case_bool_decide as Hmid.
    + rewrite decide_True by (rewrite Hms; cbn; rewrite length_app; lia). by destruct a.
    + rewrite decide_False by (rewrite Hms; cbn; rewrite length_app; lia).
      cbn [messages set_messages]. split_and!.
      * cbn [length]. by rewrite Hrecent.
      * by rewrite Hms.
      * rewrite Hms, (Compaction.slice_recent m mid recent Hrecent).
        apply (Compaction.slice_recent m [summaryMessage mid] recent Hrecent).
      * done.
Qed.

(** Compacting twice nests the summaries: where the first [compact] put
    a summary of the middle, the second puts a summary of that summary;
    the first message and the last four stay. *)
Theorem compact_twice a m mid recent :
  messages a = m :: mid ++ recent ->
  length recent = 4%nat ->
  mid <> [] ->
  messages (compact (compact a))
    = m :: summaryMessage [summaryMessage mid] :: recent.
Proof.
  intros Hms Hrecent Hmid.
  rewrite (Compaction.compact_split a m mid recent Hms Hrecent).
  rewrite bool_decide_eq_false_2 by (by destruct mid).
  by rewrite (Compaction.compact_split
                (set_messages (m :: summaryMessage mid :: recent) a)
                m [summaryMessage mid] recent eq_refl Hrecent).
Qed.

(** [clear], then [chat]: the conversation is the first message, the
    question and the answer; the statistics are those of this one call
    (its usage, its tool calls) with the start time of the [clear]; the
    checkpoints are the ones from before the [clear]. *)
Theorem clear_then_chat now streamText userMessage a a1 p effects parts u m rest :
  messages a = m :: rest ->
  clear now a = Some a1 ->
  agent_provider a = Some p ->
  streamText (chatRequest p (pushUser userMessage a1)) = (effects, Streamed parts (inr u)) ->
  let a2 := (chat streamText userMessage a1).1.1 in
  messages a2 = [m; {| role := Role.user; content := StringContent userMessage |};
                 {| role := Role.assistant; content := StringContent (Parts.text parts) |}]
  /\ startTime (stats (session a2)) = now
  /\ promptTokens (stats (session a2)) = usage_promptTokens u
  /\ completionTokens (stats (session a2)) = usage_completionTokens u
  /\ totalTokens (stats (session a2)) = usage_totalTokens u
  /\ toolCalls (stats (session a2)) = Z.of_nat (length (Parts.calls parts))
  /\ checkpoints (session a2) = checkpoints (session a).
Proof.
  intros Hms Hclear Hp Hstream. unfold clear in Hclear. rewrite Hms in Hclear.
  injection Hclear as <-. cbn zeta.
  set (a1 := set_session _ _) in *.
  assert (agent_provider a1 = Some p) as Hp1 by done.
  pose proof (AgentMore.chat_loop_stats stringify toolRegistry streamText userMessage a1 p
                effects parts (inr u) Hp1 Hstream) as Hstats.
  cbn zeta in Hstats. destruct Hstats as (Hstart & Hprompt & Hcompletion & Htotal & Hcalls).
  destruct (Invariant.chat_appends stringify toolRegistry streamText userMessage a1)
    as [_ Hcheckpoints].
  rewrite (AgentMore.chat_resolved_messages stringify toolRegistry streamText userMessage
             a1 p effects parts u Hp1 Hstream).
  rewrite Hstart, Hprompt, Hcompletion, Htotal, Hcalls, Hcheckpoints.
  cbn. split_and!; (done || lia).
Qed.

(** [refreshContext] returns and stores the files it was given.  It
    rewrites index 0, and only index 0, when the message there has role
    [system]: the new message is the system prompt for these files.
    Otherwise (an empty conversation, or another role in front) the
    conversation is left alone.  The length never changes, and doing it
    again with the same files changes nothing. *)
Theorem refreshContext_spec loaded a :
  let r := refreshContext loaded a in
  r.2 = loaded
  /\ contextFiles r.1 = loaded
  /\ session r.1 = session a
  /\ length (messages r.1) = length (messages a)
  /\ drop 1 (messages r.1) = drop 1 (messages a)
  /\ (Conversation.system_first (messages a) ->
      messages r.1 !! 0%nat = Some (systemMessageOf a loaded))
  /\ (~ Conversation.system_first (messages a) -> messages r.1 = messages a)
  /\ refreshContext loaded r.1 = r.
Proof.
  cbn zeta. unfold AgentCore.refreshContext. cbn.
  destruct (messages a) as [| first rest] eqn:Hms.
  - cbn. split_and!; try done. intros (m & Hm & _). done.
  - case_bool_decide as Hrole; cbn.
    + split_and!; try done.
      intros Hnot. exfalso. apply Hnot. by exists first.
    + rewrite bool_decide_eq_false_2 by done. split_and!; try done.
      intros (m & Hm & Hsystem). cbn in Hm. by simplify_eq.
Qed.

(** The statistics only grow.  Across any call but [clear], with chat
    connectors that report no negative usage, no counter of the session
    goes down and the start time stays. *)
Theorem stats_grow op a a' :
  Stats.is_clear op = false ->
  Stats.reports_counts op ->
  apply op a = Some a' ->
  Stats.grown (stats (session a)) (stats (session a')).
Proof.
  intros Hclear Hcounts Happly.
  destruct op; cbn [AgentCore.apply] in Happly; cbn in Hclear; simplify_eq.
  - unfold AgentCore.initialize. repeat case_match; apply AgentMore.grown_refl.
  - cbn in Hcounts. unfold AgentCore.chat.
    destruct (agent_provider a) as [p |]; [| apply AgentMore.grown_refl].
    destruct (streamText _) as [effects [e | parts final]] eqn:Hstream;
      [apply AgentMore.grown_refl |].
    destruct (AgentMore.stream_loop_grown parts
                {| fullContent := ""; seenToolCalls := [];
                   loop_stats := stats (session (pushUser userMessage a)) |})
      as (Hgrown & _).
    set (st := fold_left processPart parts _) in *. clearbody st.
    destruct st as [text calls counted]. cbn in Hgrown.
    destruct final as [e | u]; cbn; [done |].
    destruct (Hcounts _ _ _ _ Hstream) as (Hp & Hc & Ht).
    unfold Stats.grown in *. cbn. split_and!; lia.
  - unfold saveCheckpoint. cbn. case_match; apply AgentMore.grown_refl.
  - unfold restoreCheckpoint. case_match; apply AgentMore.grown_refl.
  - unfold compact. repeat case_match; apply AgentMore.grown_refl.
  - unfold switchProvider. case_match; apply AgentMore.grown_refl.
  - unfold AgentCore.refreshContext. cbn. repeat case_match; apply AgentMore.grown_refl.
Qed.

End WithEnvironment.

(** Save, chat, compact and clear, then restore. *)
Lemma save_restore_round_trip_witness :
  let streamText : ModelConnector Demo.Args :=
    fun _ => ([], Streamed [text_delta "hi"] (inr Demo.usage)) in
  let a := Demo.ready on_request None None in
  let ops := [op_chat streamText "hello"; op_compact; op_clear 5] in
  let b := default a
             (Runs.applyAll Demo.stringify Demo.formatContextForPrompt Demo.platform
                Demo.toolRegistry ops (saveCheckpoint "u1" 1 None a).1) in
  (restoreCheckpoint "u1" b).2 = true
  /\ messages (restoreCheckpoint "u1" b).1 = messages a.
Proof.
  intros streamText a ops b.
  destruct (save_restore_round_trip Demo.stringify Demo.formatContextForPrompt Demo.platform
              Demo.toolRegistry "u1" 1 None ops a b) as (Hfound & Hmessages & _).
  - vm_compute. discriminate.
  - intros c Hc. by apply elem_of_nil in Hc.
  - repeat constructor.
  - reflexivity.
  - split; [exact Hfound | exact Hmessages].
Defined.

Lemma compact_twice_witness :
  let ms := [Demo.msg Role.system "s"; Demo.msg Role.user "one";
             Demo.msg Role.assistant "two"; Demo.msg Role.user "three";
             Demo.msg Role.assistant "four"; Demo.msg Role.user "five";
             Demo.msg Role.assistant "six"] in
  let a := set_messages ms (Demo.ready on_request None None) in
  messages (compact (compact a))
    = [Demo.msg Role.system "s";
       Demo.msg Role.system
         ("[Previous conversation summary]" ++ Js.nl ++
          "system: [Previous conversation summary]" ++ Js.nl ++
          "user: one" ++ Js.nl ++ "assistant: two" ++ Js.nl ++ "[End summary]" ++ Js.nl ++
          "[End summary]");
       Demo.msg Role.user "three"; Demo.msg Role.assistant "four";
       Demo.msg Role.user "five"; Demo.msg Role.assistant "six"].
Proof.
  intros ms a.
  apply (compact_twice a (Demo.msg Role.system "s")
           [Demo.msg Role.user "one"; Demo.msg Role.assistant "two"]
           [Demo.msg Role.user "three"; Demo.msg Role.assistant "four";
            Demo.msg Role.user "five"; Demo.msg Role.assistant "six"]).
  - reflexivity.
  - reflexivity.
  - discriminate.
Defined.

Lemma clear_then_chat_witness :
  let streamText : ModelConnector Demo.Args :=
    fun _ => ([], Streamed [tool_call "shell" "{}"; text_delta "ok"] (inr Demo.usage)) in
  let a := (chat Demo.stringify Demo.toolRegistry streamText "first"
              (Demo.ready on_request None None)).1.1 in
  let a1 := default a (clear 7 a) in
  let a2 := (chat Demo.stringify Demo.toolRegistry streamText "second" a1).1.1 in
  length (messages a2) = 3%nat
  /\ totalTokens (stats (session a2)) = 42
  /\ toolCalls (stats (session a2)) = 1
  /\ startTime (stats (session a2)) = 7.
Proof.
  intros streamText a a1 a2.
  destruct (clear_then_chat Demo.stringify Demo.toolRegistry 7 streamText "second" a a1
              Demo.openai [] [tool_call "shell" "{}"; text_delta "ok"] Demo.usage
              (Demo.msg Role.system
                 (buildSystemPrompt Demo.formatContextForPrompt Demo.platform
                    (Demo.cfg on_request None) [] "/work"))
              [Demo.msg Role.user "first"; Demo.msg Role.assistant "ok"])
    as (Hmessages & Hstart & _ & _ & Htotal & Hcalls & _).
  - reflexivity.
  - reflexivity.
  - reflexivity.
  - reflexivity.
  - fold a2 in Hmessages, Hstart, Htotal, Hcalls.
    split_and!; [by rewrite Hmessages | exact Htotal | exact Hcalls | exact Hstart].
Defined.

Lemma stats_grow_witness :
  let streamText : ModelConnector Demo.Args :=
    fun _ => ([], Streamed [tool_call "shell" "{}"] (inr Demo.usage)) in
  let a := Demo.ready on_request None None in
  Stats.grown (stats (session a))
    (stats (session (chat Demo.stringify Demo.toolRegistry streamText "go" a).1.1)).
Proof.
  intros streamText a.
  apply (stats_grow Demo.stringify Demo.formatContextForPrompt Demo.platform
           Demo.toolRegistry (op_chat streamText "go") a).
  - reflexivity.
  - intros request effects parts u Hstream. injection Hstream as _ _ <-.
    vm_compute. repeat split; discriminate.
  - reflexivity.
Defined.

End SessionMore.

(** * Strings: prefixes, [split] and [join] *)

Module StringFacts.
Import JsString.

Lemma prefix_iff (p s : string) : String.prefix p s = true <-> exists r, s = p ++ r.
Proof.
  revert s. induction p as [| c p IH]; intros s.
  - split; [by exists s | by destruct s].
  - destruct s as [| d s]; [split; [done | by intros [r Hr]] |].
    cbn [String.prefix]. destruct (ascii_dec c d) as [-> | Hne].
    + rewrite IH. split; intros [r Hr]; exists r.
      * by rewrite Chat.append_cons, <- Hr.
      * rewrite Chat.append_cons in Hr. by injection Hr.
    + split; [done |]. intros [r Hr]. rewrite Chat.append_cons in Hr. by injection Hr.
Qed.

Lemma includes_empty (c : ascii) : Js.includes "" (String c "") = false.
Proof. reflexivity. Qed.

Lemma includes_cons (c d : ascii) (s : string) :
  Js.includes (String d s) (String c "")
    = bool_decide (d = c) || Js.includes s (String c "").
Proof.
  cbn [Js.includes String.prefix]. destruct (ascii_dec c d) as [-> | Hne].
  - rewrite bool_decide_eq_true_2 by done. by destruct s.
  - by rewrite bool_decide_eq_false_2 by congruence.
Qed.

Lemma includes_app (c : ascii) (p s : string) :
  Js.includes (p ++ s) (String c "")
    = Js.includes p (String c "") || Js.includes s (String c "").
Proof.
  induction p as [| d p IH]; [done |].
  by rewrite Chat.append_cons, !includes_cons, IH, orb_assoc.
Qed.

Lemma split_cons_sep (sep : ascii) (s : string) :
  split sep (String sep s) = "" :: split sep s.
Proof. cbn. by rewrite bool_decide_eq_true_2. Qed.

Lemma split_not_nil (sep : ascii) (s : string) : split sep s <> [].
Proof. destruct s as [| c s]; cbn; [done |]. repeat case_match; done. Qed.

(** A prefix without the separator stays in the first piece. *)
Lemma split_app (sep : ascii) (p s : string) :
  Js.includes p (String sep "") = false ->
  split sep (p ++ s)
    = match split sep s with
      | first :: rest => (p ++ first) :: rest
      | [] => [p]
      end.
Proof.
  induction p as [| c p IH]; intros Hp.
  - change ("" ++ s) with s.
    pose proof (split_not_nil sep s). by destruct (split sep s).
  - rewrite includes_cons in Hp. apply orb_false_iff in Hp as [Hc Hp].
    rewrite Chat.append_cons. cbn [split]. rewrite Hc, (IH Hp).
    pose proof (split_not_nil sep s). by destruct (split sep s).
Qed.

(** [s.split(sep).join(sep)] is [s]. *)
Lemma join_split (sep : ascii) (s : string) : Js.join (String sep "") (split sep s) = s.
Proof.
  unfold Js.join. induction s as [| c s IH]; [done |]. cbn [split].
  pose proof (split_not_nil sep s) as Hnil.
  case_bool_decide as Hc.
  - subst c. destruct (split sep s) as [| first rest]; [done |].
    change (String.concat (String sep "") ("" :: first :: rest))
      with ("" ++ String sep "" ++ String.concat (String sep "") (first :: rest)).
    by rewrite IH.
  - destruct (split sep s) as [| first rest]; [done |].
    destruct rest as [| second rest].
    + cbn in IH |- *. by rewrite IH.
    + change (String.concat (String sep "") (String c first :: second :: rest))
        with (String c first ++ String sep "" ++ String.concat (String sep "") (second :: rest)).
      change (String.concat (String sep "") (first :: second :: rest))
        with (first ++ String sep "" ++ String.concat (String sep "") (second :: rest)) in IH.
      by rewrite Chat.append_cons, IH.
Qed.

Lemma split_first_clean (sep : ascii) (s first : string) (rest : list string) :
  split sep s = first :: rest -> Js.includes first (String sep "") = false.
Proof.
  revert first rest. induction s as [| c s IH]; intros first rest; cbn [split].
  - by intros [= <- <-].
  - case_bool_decide as Hc; [by intros [= <- <-] |].
    destruct (split sep s) as [| first' rest'] eqn:Hsplit; intros [= <- <-].
    + rewrite includes_cons. by rewrite bool_decide_eq_false_2.
    + rewrite includes_cons, (IH first' rest' eq_refl). by rewrite bool_decide_eq_false_2.
Qed.

Lemma lower_twice (c : ascii) : lower (lower c) = lower c.
Proof. destruct c as [[] [] [] [] [] [] [] []]; reflexivity. Qed.

Lemma toLowerCase_twice (s : string) : toLowerCase (toLowerCase s) = toLowerCase s.
Proof. induction s as [| c s IH]; cbn; [done |]. by rewrite lower_twice, IH. Qed.

Lemma assoc_elem {A} (table : list (string * A)) (key : string) (v : A) :
  assoc table key = Some v -> key ∈ table.*1.
Proof.
  induction table as [| [k w] table IH]; cbn; [done |].
  case_bool_decide; [intros _; subst; by left | intros Hrest; right; by apply IH].
Qed.

End StringFacts.

(** * Providers and API keys *)

Module ProvidersMore.
Import JsString Providers StringFacts.

Lemma hasProp_known (key : string) :
  hasProp PROVIDER_CONFIGS key = true ->
  key ∈ (PROVIDER_CONFIGS.*1 ++ objectPrototypeKeys)%list.
Proof.
  unfold hasProp, getProp. destruct (assoc PROVIDER_CONFIGS key) as [v |] eqn:Hown.
  - intros _. apply elem_of_app. left. by eapply assoc_elem.
  - case_bool_decide as Hin; [| done]. intros _. apply elem_of_app. by right.
Qed.

(** No name that the table answers to holds a colon or a slash. *)
Lemma hasProp_clean (key : string) :
  hasProp PROVIDER_CONFIGS key = true ->
  Js.includes key ":" = false /\ Js.includes key "/" = false.
Proof.
  intros Hkey%hasProp_known.
  assert (Forall (fun k => Js.includes k ":" = false /\ Js.includes k "/" = false)
            (PROVIDER_CONFIGS.*1 ++ objectPrototypeKeys)%list) as Hall.
  { vm_compute. repeat (constructor; [done |]). constructor. }
  by eapply Forall_forall in Hall.
Qed.

Lemma providerCases_known (p : string) :
  p ∈ providerCases ->
  truthy p = true /\ hasProp PROVIDER_CONFIGS p = true
  /\ exists config, getProp PROVIDER_CONFIGS p = Own config
       /\ exists chosen, defaultModel config = Some chosen
            /\ truthy chosen = true
            /\ head (models config) = Some chosen
            /\ getProviderApiKey ∅ p = inr None
            /\ exists keys, getProp envKeys (toLowerCase p) = Own keys.
Proof.
  intros Hp. unfold providerCases in Hp.
  repeat (apply elem_of_cons in Hp as [-> | Hp];
          [split; [done |]; split; [done |]; eexists; split; [vm_compute; reflexivity |];
           eexists; split_and!; [done | done | done | done | by eexists] |]).
  by apply elem_of_nil in Hp.
Qed.

Lemma parseWith_sound (sep : ascii) (input p m : string) :
  parseWith sep input = Some (p, m) ->
  input = p ++ String sep m
  /\ p <> "" /\ m <> "" /\ hasProp PROVIDER_CONFIGS p = true
  /\ Js.includes p (String sep "") = false.
Proof.
  unfold parseWith. case_match; [| done].
  destruct (split sep input) as [| provider modelParts] eqn:Hsplit; [done |].
  destruct (truthy provider) eqn:Hprovider; [| done].
  destruct (truthy (Js.join (String sep "") modelParts)) eqn:Hmodel; [| done].
  destruct (hasProp PROVIDER_CONFIGS provider) eqn:Hknown; [| done].
  cbn. intros [= <- <-].
  unfold truthy in Hprovider, Hmodel.
  apply negb_true_iff, bool_decide_eq_false in Hprovider, Hmodel.
  split_and!; [| done | done | done | by eapply split_first_clean].
  pose proof (join_split sep input) as Hjoin. rewrite Hsplit in Hjoin.
  destruct modelParts as [| second rest]; [done |].
  by rewrite <- Hjoin.
Qed.

Lemma parseWith_round (sep : ascii) (p m : string) :
  Js.includes p (String sep "") = false ->
  truthy p = true -> truthy m = true -> hasProp PROVIDER_CONFIGS p = true ->
  parseWith sep (p ++ String sep m) = Some (p, m).
Proof.
  intros Hclean Hp Hm Hknown. unfold parseWith.
  rewrite includes_app, includes_cons, bool_decide_eq_true_2, orb_true_r by done.
  rewrite (split_app sep p (String sep m) Hclean), split_cons_sep.
  rewrite Chat.append_empty_r, join_split, Hp, Hm, Hknown. done.
Qed.

(** [parseProviderModel] reads back what was put together: for each of
    the seven providers and every model that is not empty, both
    [provider:model] and [provider/model] parse to that provider and that
    model, whatever colons and slashes the model holds. *)
Theorem parseProviderModel_round_trip (p m : string) :
  p ∈ providerCases ->
  m <> "" ->
  parseProviderModel (p ++ ":" ++ m) = Some (p, m)
  /\ parseProviderModel (p ++ "/" ++ m) = Some (p, m).
Proof.
  intros Hp Hm.
  destruct (providerCases_known p Hp) as (Htruthy & Hknown & _).
  destruct (hasProp_clean p Hknown) as [Hcolon Hslash].
  assert (truthy m = true) as Hmodel
    by (unfold truthy; by rewrite bool_decide_eq_false_2).
  change (p ++ ":" ++ m) with (p ++ String ":" m).
  change (p ++ "/" ++ m) with (p ++ String "/" m).
  unfold parseProviderModel. split.
  - by rewrite (parseWith_round ":" p m Hcolon Htruthy Hmodel Hknown).
  - assert (parseWith ":" (p ++ String "/" m) = None) as ->.
    { destruct (parseWith ":" (p ++ String "/" m)) as [[q n] |] eqn:Hparse; [| done].
      exfalso. unfold parseWith in Hparse. case_match; [| done].
      rewrite (split_app ":" p (String "/" m) Hcolon) in Hparse.
      cbn [split] in Hparse. rewrite bool_decide_eq_false_2 in Hparse by done.
      pose proof (split_not_nil ":" m) as Hnil.
      destruct (split ":" m) as [| first rest]; [done |].
      destruct (hasProp PROVIDER_CONFIGS (p ++ String "/" first)) eqn:Hfirst.
      - apply hasProp_clean in Hfirst as [_ Hfirst].
        rewrite includes_app, includes_cons, bool_decide_eq_true_2, orb_true_r in Hfirst
          by done.
        done.
      - by rewrite andb_false_r in Hparse. }
    by rewrite (parseWith_round "/" p m Hslash Htruthy Hmodel Hknown).
Qed.

(** What [parseProviderModel] returns was in the input: the input is the
    provider, one colon or slash, and the model; neither is empty; the
    provider holds no such separator; and the provider is a key of the
    provider table or a name the table inherits from [Object.prototype].
    An input with neither colon nor slash gives nothing. *)
Theorem parseProviderModel_sound (input : string) :
  (forall p m,
     parseProviderModel input = Some (p, m) ->
     (input = p ++ ":" ++ m \/ input = p ++ "/" ++ m)
     /\ p <> "" /\ m <> ""
     /\ (p ∈ (PROVIDER_CONFIGS.*1 ++ objectPrototypeKeys)%list))
  /\ (Js.includes input ":" = false -> Js.includes input "/" = false ->
      parseProviderModel input = None).
Proof.
  split.
  - intros p m. unfold parseProviderModel.
    destruct (parseWith ":" input) as [r |] eqn:Hcolon.
    + intros [= ->]. apply parseWith_sound in Hcolon as (Hinput & Hp & Hm & Hknown & _).
      split_and!; [by left | done | done | by apply hasProp_known].
    + intros Hslash. apply parseWith_sound in Hslash as (Hinput & Hp & Hm & Hknown & _).
      split_and!; [by right | done | done | by apply hasProp_known].
  - intros Hcolon Hslash. unfold parseProviderModel, parseWith. by rewrite Hcolon, Hslash.
Qed.

Lemma firstSet_Some (env : Env) (keys : list string) (v : string) :
  firstSet env keys = Some v <->
  exists (i : nat) key,
    keys !! i = Some key /\ env !! key = Some v /\ v <> ""
    /\ forall (j : nat) earlier,
         (j < i)%nat -> keys !! j = Some earlier -> default "" (env !! earlier) = "".
Proof.
  induction keys as [| key keys IH]; cbn [firstSet].
  - split; [done | by intros (i & key & Hkey & _)].
  - destruct (env !! key) as [value |] eqn:Hvalue;
      [unfold truthy; case_bool_decide as Hempty; cbn [negb] |].
    + subst value. rewrite IH. split.
      * intros (i & k & Hk & Hv & Hne & Hfirst). exists (S i), k.
        split_and!; [done | done | done |]. intros [| j] earlier Hlt Hj.
        -- cbn in Hj. injection Hj as <-. by rewrite Hvalue.
        -- apply (Hfirst j); [lia | done].
      * intros ([| i] & k & Hk & Hv & Hne & Hfirst).
        -- cbn in Hk. injection Hk as <-. congruence.
        -- exists i, k. split_and!; [done | done | done |].
           intros j earlier Hlt Hj. apply (Hfirst (S j)); [lia | done].
    + split.
      * intros [= <-]. exists 0%nat, key. split_and!; [done | done | done |]. lia.
      * intros ([| i] & k & Hk & Hv & Hne & Hfirst).
        -- cbn in Hk. injection Hk as <-. congruence.
        -- specialize (Hfirst 0%nat key). rewrite Hvalue in Hfirst. cbn in Hfirst.
           exfalso. apply Hempty, Hfirst; [lia | done].
    + rewrite IH. split.
      * intros (i & k & Hk & Hv & Hne & Hfirst). exists (S i), k.
        split_and!; [done | done | done |]. intros [| j] earlier Hlt Hj.
        -- cbn in Hj. injection Hj as <-. by rewrite Hvalue.
        -- apply (Hfirst j); [lia | done].
      * intros ([| i] & k & Hk & Hv & Hne & Hfirst).
        -- cbn in Hk. injection Hk as <-. congruence.
        -- exists i, k. split_and!; [done | done | done |].
           intros j earlier Hlt Hj. apply (Hfirst (S j)); [lia | done].
Qed.

Lemma firstSet_None (env : Env) (keys : list string) :
  firstSet env keys = None <-> forall key, key ∈ keys -> default "" (env !! key) = "".
Proof.
  induction keys as [| key keys IH]; cbn [firstSet].
  - split; [intros _ key Hkey; by apply elem_of_nil in Hkey | done].
  - destruct (env !! key) as [value |] eqn:Hvalue;
      [unfold truthy; case_bool_decide as Hempty; cbn [negb] |].
    + subst value. rewrite IH. split.
      * intros Hrest k [-> | Hk]%elem_of_cons; [by rewrite Hvalue | by apply Hrest].
      * intros Hall k Hk. apply Hall. by right.
    + split; [done |]. intros Hall. exfalso. apply Hempty.
      specialize (Hall key). rewrite Hvalue in Hall. apply Hall. by left.
    + rewrite IH. split.
      * intros Hrest k [-> | Hk]%elem_of_cons; [by rewrite Hvalue | by apply Hrest].
      * intros Hall k Hk. apply Hall. by right.
Qed.

(** [getProviderApiKey] gives the value of the first variable of the
    provider, in the order of the table, that is set and not empty, and
    nothing when there is none or when the provider is unknown.  It never
    gives an empty key.  Upper and lower case in the provider name make
    no difference, and for the seven providers it does not throw. *)
Theorem getProviderApiKey_spec (env : Env) (provider : string) :
  getProviderApiKey env (toLowerCase provider) = getProviderApiKey env provider
  /\ (forall v,
        getProviderApiKey env provider = inr (Some v) ->
        v <> ""
        /\ exists keys (i : nat) key,
             getProp envKeys (toLowerCase provider) = Own keys
             /\ keys !! i = Some key /\ env !! key = Some v
             /\ forall (j : nat) earlier,
                  (j < i)%nat -> keys !! j = Some earlier ->
                  default "" (env !! earlier) = "")
  /\ (forall keys,
        getProp envKeys (toLowerCase provider) = Own keys ->
        (getProviderApiKey env provider = inr None <->
         forall key, key ∈ keys -> default "" (env !! key) = ""))
  /\ (getProp envKeys (toLowerCase provider) = Missing ->
      getProviderApiKey env provider = inr None)
  /\ (provider ∈ providerCases -> exists r, getProviderApiKey env provider = inr r).
Proof.
  unfold getProviderApiKey. rewrite toLowerCase_twice. split_and!.
  - done.
  - intros v. destruct (getProp envKeys (toLowerCase provider)) as [keys | |]; [| done | done].
    intros [= Hfirst]. apply firstSet_Some in Hfirst as (i & key & Hkey & Hv & Hne & Hfirst).
    split; [done |]. by exists keys, i, key.
  - intros keys ->. rewrite <- firstSet_None. split; [by intros [= ->] | by intros ->].
  - by intros ->.
  - intros (_ & _ & config & _ & chosen & _ & _ & _ & _ & keys & ->)%providerCases_known.
    by eexists.
Qed.

Lemma availableAmong_filter (env : Env) (entries : list (string * ProviderConfig)) :
  Forall (fun entry =>
            entry.1 = "ollama"
            \/ exists keys, getProp envKeys (toLowerCase entry.1) = Own keys) entries ->
  availableAmong env entries
    = inr (filter (fun n => bool_decide (n = "ollama") || keyed env n) entries.*1).
Proof.
  induction entries as [| [n config] entries IH]; intros Hsafe; [done |].
  apply Forall_cons in Hsafe as [Hn Hsafe]. cbn [availableAmong fmap list_fmap fst].
  rewrite (IH Hsafe). unfold keyed, getProviderApiKey. cbn [fst] in Hn.
  case_bool_decide as Hollama.
  - by rewrite filter_cons_True by (by rewrite bool_decide_eq_true_2).
  - destruct Hn as [Hn | [keys Hkeys]]; [done |]. rewrite Hkeys.
    destruct (firstSet env keys) as [v |] eqn:Hfirst.
    + rewrite bool_decide_eq_true_2 by done.
      rewrite filter_cons_True; [done |].
      unfold keyed, getProviderApiKey. by rewrite Hkeys, Hfirst, orb_true_r.
    + rewrite bool_decide_eq_false_2 by (by intros [? ?]).
      rewrite filter_cons_False; [done |].
      unfold keyed, getProviderApiKey.
      rewrite Hkeys, Hfirst, bool_decide_eq_false_2 by done. by intros [].
Qed.

Lemma provider_entries_safe :
  Forall (fun entry : string * ProviderConfig =>
            entry.1 = "ollama"
            \/ exists keys, getProp envKeys (toLowerCase entry.1) = Own keys)
    PROVIDER_CONFIGS.
Proof. unfold PROVIDER_CONFIGS. repeat (constructor; [right; by eexists |]). constructor. Qed.

Lemma available_providers (env : Env) :
  getAvailableProviders env
    = inr (filter (fun n => bool_decide (n = "ollama") || keyed env n) providerCases)
  /\ "ollama" ∈ filter (fun n => bool_decide (n = "ollama") || keyed env n) providerCases.
Proof.
  split.
  - unfold getAvailableProviders. by rewrite (availableAmong_filter env _ provider_entries_safe).
  - apply list_elem_of_filter. split; [done |]. unfold providerCases.
    do 5 (apply elem_of_cons; right). by left.
Qed.

(** [getAvailableProviders] does not throw.  It lists, in the order of
    the provider table, [ollama] and every provider for which
    [getProviderApiKey] finds a key; so it always holds [ollama] and is
    never empty. *)
Theorem getAvailableProviders_spec (env : Env) :
  exists available,
    getAvailableProviders env = inr available
    /\ available = filter (fun n => bool_decide (n = "ollama") || keyed env n) providerCases
    /\ ("ollama" ∈ available)
    /\ available <> []
    /\ (forall n, n ∈ available <->
                  (n ∈ providerCases)
                  /\ (n = "ollama" \/ exists v, getProviderApiKey env n = inr (Some v))).
Proof.
  destruct (available_providers env) as [Havailable Hollama].
  eexists. split_and!; [done | done | done | by intros Hnil; rewrite Hnil in Hollama; apply elem_of_nil in Hollama |].
  intros n. rewrite list_elem_of_filter, orb_True, bool_decide_spec. unfold keyed.
  split.
  - intros [Hn Hin]. split; [done |]. destruct Hn as [Hn | Hn]; [by left | right].
    destruct (getProviderApiKey env n) as [e | [v |]]; [done | by eexists | done].
  - intros [Hin [Hn | [v Hv]]]; (split; [| done]); [by left | right]. by rewrite Hv.
Qed.

(** [getProvidersStatus] does not throw either.  It has one entry per
    provider, in the order of the table; [available] and [hasApiKey] are
    the same flag; and the providers it marks available are exactly
    those [getAvailableProviders] returns. *)
Theorem getProvidersStatus_agrees (env : Env) :
  exists statuses available,
    getProvidersStatus env = inr statuses
    /\ getAvailableProviders env = inr available
    /\ status_name <$> statuses = providerCases
    /\ Forall (fun st => hasApiKey st = Providers.available st) statuses
    /\ status_name <$> filter (fun st => Providers.available st) statuses = available.
Proof.
  destruct (available_providers env) as [Havailable _]. rewrite Havailable.
  enough (forall entries : list (string * ProviderConfig),
            Forall (fun entry =>
                      entry.1 = "ollama"
                      \/ exists keys, getProp envKeys (toLowerCase entry.1) = Own keys)
              entries ->
            exists statuses,
              statusAmong env entries = inr statuses
              /\ status_name <$> statuses = entries.*1
              /\ Forall (fun st => hasApiKey st = Providers.available st) statuses
              /\ status_name <$> filter (fun st => Providers.available st) statuses
                 = filter (fun n => bool_decide (n = "ollama") || keyed env n) entries.*1)
    as Hgeneral.
  { destruct (Hgeneral PROVIDER_CONFIGS provider_entries_safe)
      as (statuses & Hstatus & Hnames & Hflags & Hfilter).
    exists statuses. eexists. split_and!; [done | done | done | done | done]. }
  induction entries as [| [n config] entries IH]; intros Hsafe.
  { exists []. split_and!; try done. }
  apply Forall_cons in Hsafe as [Hn Hsafe].
  destruct (IH Hsafe) as (statuses & Hstatus & Hnames & Hflags & Hfilter).
  cbn [statusAmong fmap list_fmap fst]. rewrite Hstatus. cbn [fst] in Hn.
  unfold keyed, getProviderApiKey.
  case_bool_decide as Hollama.
  - eexists. split; [done |]. cbn [fmap list_fmap status_name].
    split_and!; [by rewrite <- Hnames | by constructor | ].
    rewrite filter_cons_True by done.
    rewrite filter_cons_True by (by rewrite bool_decide_eq_true_2).
    cbn [fmap list_fmap status_name]. f_equal. exact Hfilter.
  - destruct Hn as [Hn | [keys Hkeys]]; [done |]. rewrite Hkeys.
    destruct (firstSet env keys) as [v |] eqn:Hfirst.
    + eexists. split; [done |]. cbn [fmap list_fmap status_name].
      split_and!; [by rewrite <- Hnames | by constructor | ].
      rewrite filter_cons_True by (cbn; first [done | by rewrite bool_decide_eq_true_2]).
      rewrite filter_cons_True
        by (unfold keyed, getProviderApiKey; by rewrite Hkeys, Hfirst, orb_true_r).
      cbn [fmap list_fmap status_name]. f_equal. exact Hfilter.
    + eexists. split; [done |]. cbn [fmap list_fmap status_name].
      split_and!; [by rewrite <- Hnames | by constructor | ].
      rewrite filter_cons_False
        by (cbn; first [by intros []
                       | rewrite bool_decide_eq_false_2 by (by intros [? ?]); by intros []]).
      rewrite filter_cons_False; [exact Hfilter |].
      unfold keyed, getProviderApiKey.
      rewrite Hkeys, Hfirst, bool_decide_eq_false_2 by done. by intros [].
Qed.

(** [isValidModel] accepts every model id for every provider name. *)
Lemma isValidModel_always (providerName modelId : string) :
  isValidModel providerName modelId = true.
Proof. unfold isValidModel. apply orb_true_r. Qed.

Lemma createProvider_known (loader : Loader) (p : string) (modelId : option string) :
  p ∈ providerCases ->
  exists config chosen,
    getProp PROVIDER_CONFIGS p = Own config
    /\ defaultModel config = Some chosen
    /\ truthy chosen = true
    /\ head (models config) = Some chosen
    /\ createProvider loader p modelId =
       match loader_import loader p with
       | inl e => inl e
       | inr _ =>
           inr {| provider_name := p;
                  provider_modelId := default chosen (str_or modelId None) |}
       end.
Proof.
  intros Hp.
  destruct (providerCases_known p Hp)
    as (_ & _ & config & Hconfig & chosen & Hdefault & Htruthy & Hhead & _ & keys & Hkeys).
  exists config, chosen. split_and!; [done | done | done | done |].
  unfold createProvider, getProviderApiKey. rewrite Hconfig, Hkeys, Hdefault.
  rewrite bool_decide_eq_true_2 by done.
  destruct (loader_import loader p); [done |]. do 2 f_equal.
  destruct modelId as [m |]; cbn [str_or]; [destruct (truthy m) |]; done.
Qed.

Lemma createProvider_unknown (loader : Loader) (p : string) (modelId : option string) :
  p ∉ providerCases ->
  exists e, createProvider loader p modelId = inl e
            /\ (getProp PROVIDER_CONFIGS p = Missing -> e = "Unknown provider: " ++ p).
Proof.
  intros Hp. unfold createProvider.
  destruct (getProp PROVIDER_CONFIGS p) as [config | |] eqn:Hconfig.
  - exfalso. apply Hp. unfold getProp in Hconfig.
    destruct (assoc PROVIDER_CONFIGS p) as [c |] eqn:Hown; [| by case_bool_decide].
    by apply assoc_elem in Hown.
  - destruct (getProviderApiKey _ p) as [e | key]; [by eexists |].
    rewrite bool_decide_eq_false_2 by done. by eexists.
  - by eexists.
Qed.

(** [createProvider] succeeds for the seven providers only.  For one of
    them, when its SDK package loads, the instance carries the provider
    name and the model asked for, or, for no model or an empty one, the
    default model of the provider, which is the first of its model list
    and what [getDefaultModel] returns.  A failing import is passed on.
    For every other name it throws: the unknown-provider error, unless
    the name is one every object inherits. *)
Theorem createProvider_spec (loader : Loader) (p : string) (modelId : option string) :
  (p ∈ providerCases ->
   match loader_import loader p with
   | inl e => createProvider loader p modelId = inl e
   | inr _ =>
       exists chosen,
         createProvider loader p modelId
           = inr {| provider_name := p; provider_modelId := chosen |}
         /\ (forall m, modelId = Some m -> m <> "" -> chosen = m)
         /\ (modelId = None \/ modelId = Some "" ->
             getDefaultModel p = inr chosen
             /\ head (getProviderModels p) = Some chosen)
   end)
  /\ (p ∉ providerCases ->
      exists e, createProvider loader p modelId = inl e
                /\ (getProp PROVIDER_CONFIGS p = Missing -> e = "Unknown provider: " ++ p)).
Proof.
  split; [| apply createProvider_unknown].
  intros Hp.
  destruct (createProvider_known loader p modelId Hp)
    as (config & chosen & Hconfig & Hdefault & Htruthy & Hhead & ->).
  destruct (loader_import loader p); [done |].
  eexists. split_and!; [done | |].
  - intros m -> Hm. cbn. unfold truthy. by rewrite bool_decide_eq_false_2.
  - intros Hnone. unfold getDefaultModel, getProviderModels. rewrite Hconfig, Hdefault.
    cbn [str_or]. rewrite Htruthy. destruct Hnone as [-> | ->]; by cbn.
Qed.

(** The default action of the command line always finds a provider: the
    exit for no provider configured cannot be taken, because [ollama]
    always counts as available.  The provider it goes on with is
    available; it is the configured one when that is available, and the
    first available one otherwise; model, sandbox and approval policy are
    the ones the options gave. *)
Theorem prepareInteractive_spec (env : Env) (opts : Cli.CLIOptions) (cfg : OmniConfig) :
  exists available chosen,
    getAvailableProviders env = inr available
    /\ Cli.prepareInteractive env opts cfg = inr (Some chosen)
    /\ (provider chosen ∈ available)
    /\ (provider (Cli.applyOptions opts cfg) ∈ available ->
        chosen = Cli.applyOptions opts cfg)
    /\ (provider (Cli.applyOptions opts cfg) ∉ available ->
        head available = Some (provider chosen))
    /\ model chosen = model (Cli.applyOptions opts cfg)
    /\ sandbox chosen = sandbox (Cli.applyOptions opts cfg)
    /\ approvalPolicy chosen = approvalPolicy (Cli.applyOptions opts cfg)
    /\ maxCheckpoints chosen = maxCheckpoints cfg.
Proof.
  destruct (available_providers env) as [Havailable Hollama].
  unfold Cli.prepareInteractive. rewrite Havailable.
  set (available := filter _ providerCases) in *. clearbody available.
  exists available. unfold Cli.selectProvider.
  destruct available as [| first rest]; [by apply elem_of_nil in Hollama |].
  case_bool_decide as Hin.
  - eexists. split_and!; try done.
  - eexists. split_and!; try done. cbn. by left.
Qed.

Lemma parseProviderModel_round_trip_witness :
  parseProviderModel "openrouter:meta-llama/llama-3.1:free"
    = Some ("openrouter", "meta-llama/llama-3.1:free")
  /\ parseProviderModel "openrouter/meta-llama/llama-3.1:free"
    = Some ("openrouter", "meta-llama/llama-3.1:free").
Proof.
  apply (parseProviderModel_round_trip "openrouter" "meta-llama/llama-3.1:free").
  - vm_compute. repeat (first [by left | right]).
  - discriminate.
Defined.

End ProvidersMore.

(** * Starting the agent with the real provider factory *)

Module StartupMore.
Import Connector AgentCore Providers.
Section WithEnvironment.

Context {Args : Type} (stringify : Args -> string).
Context (formatContextForPrompt : list LoadedContextFile -> string).
Context (platform : string).
Context (toolRegistry : Tools.Registry Args).

Implicit Types (a : @Agent Args).

Local Abbreviation initializeAgent := (Runs.initializeAgent formatContextForPrompt platform).
Local Abbreviation systemMessageOf := (systemMessageOf formatContextForPrompt platform).

(** [initialize] with [createProvider] behind it.  An agent that has a
    provider keeps it, the factory is not used, and the conversation is
    reset to the system message, whatever it held.  An agent without one
    gets the provider of its configuration, for the configured model or,
    when that is empty, the provider's default; this needs the provider
    to be one of the seven and its SDK package to load.  With any other
    provider name [initialize] throws, the agent is as it was, and [chat]
    still throws the not-initialized error. *)
Theorem initializeAgent_spec (loader : Loader) a :
  (forall p, agent_provider a = Some p ->
     (initializeAgent loader a).2 = inr tt
     /\ agent_provider (initializeAgent loader a).1 = Some p
     /\ messages (initializeAgent loader a).1 = [systemMessageOf a (contextFiles a)]
     /\ session (initializeAgent loader a).1 = session a)
  /\ (agent_provider a = None ->
      (provider (config a) ∈ providerCases) ->
      (exists loaded, loader_import loader (provider (config a)) = inr loaded) ->
      exists chosen,
        (initializeAgent loader a).2 = inr tt
        /\ agent_provider (initializeAgent loader a).1
           = Some {| provider_name := provider (config a); provider_modelId := chosen |}
        /\ (model (config a) <> "" -> chosen = model (config a))
        /\ (model (config a) = "" -> getDefaultModel (provider (config a)) = inr chosen)
        /\ messages (initializeAgent loader a).1 = [systemMessageOf a (contextFiles a)])
  /\ (agent_provider a = None ->
      (provider (config a) ∉ providerCases) ->
      (exists e, initializeAgent loader a = (a, inl e))
      /\ forall streamText userMessage,
           (chat stringify toolRegistry streamText userMessage (initializeAgent loader a).1).2
             = inl "Agent not initialized. Call initialize() first.").
Proof.
  unfold Runs.initializeAgent, initialize. split_and!.
  - intros p ->. done.
  - intros -> Hknown [loaded Hloaded].
    destruct (ProvidersMore.createProvider_known loader (provider (config a))
                (Some (model (config a))) Hknown)
      as (pc & chosen & Hconfig & Hdefault & Htruthy & Hhead & ->).
    rewrite Hloaded. eexists. split_and!; [done | done | | | done].
    + intros Hmodel. cbn. unfold JsString.truthy. by rewrite bool_decide_eq_false_2.
    + intros Hmodel. rewrite Hmodel. cbn. unfold getDefaultModel.
      rewrite Hconfig, Hdefault. cbn [JsString.str_or]. by rewrite Htruthy.
  - intros Hnone Hunknown. rewrite Hnone.
    destruct (ProvidersMore.createProvider_unknown loader (provider (config a))
                (Some (model (config a))) Hunknown) as (e & -> & _).
    split; [by eexists |]. intros streamText userMessage. cbn [fst].
    unfold chat. by rewrite Hnone.
Qed.

End WithEnvironment.
End StartupMore.

(** * Paths and platform *)

Module PlatformMore.
Import JsString Platform StringFacts.

Lemma drop_append (p s : string) : JsString.drop (String.length p) (p ++ s) = s.
Proof. induction p as [| c p IH]; [by destruct s |]. by rewrite Chat.append_cons. Qed.

Section WithPath.

Context (join : list string -> string).
Context (replace : string -> string -> string -> string).

Implicit Types (rt : Runtime) (filePath workspaceDir : string).

Local Abbreviation normalizePath := (normalizePath join replace).
Local Abbreviation isWithinWorkspace := (isWithinWorkspace join replace).
Local Abbreviation getRelativePath := (getRelativePath join replace).

Lemma normalizePath_plain rt p : plain rt p -> normalizePath rt p = p.
Proof.
  intros [Htilde Hprefix]. unfold Platform.normalizePath. rewrite Htilde.
  destruct Hprefix as [-> | ->]; [done | by rewrite andb_false_r].
Qed.

(** [isWithinWorkspace] compares text, not paths.  For paths that need
    no expansion it holds exactly when the file path starts with the
    characters of the workspace path: a sibling directory whose name
    begins like the workspace and a path that leaves again through [..]
    both count as within. *)
Theorem isWithinWorkspace_prefix rt filePath workspaceDir :
  plain rt filePath ->
  plain rt workspaceDir ->
  (isWithinWorkspace rt filePath workspaceDir = true
   <-> exists rest, filePath = workspaceDir ++ rest).
Proof.
  intros Hfile Hworkspace. unfold Platform.isWithinWorkspace, startsWith.
  rewrite (normalizePath_plain rt _ Hfile), (normalizePath_plain rt _ Hworkspace).
  apply prefix_iff.
Qed.

(** [getRelativePath] for paths that need no expansion: below the
    workspace it gives back what follows the workspace path, less one
    leading slash or backslash, so [workspace/rest] comes back as [rest];
    for a path that does not start with the workspace path it gives the
    path as it came. *)
Theorem getRelativePath_spec rt filePath workspaceDir :
  plain rt filePath ->
  plain rt workspaceDir ->
  (forall rest, filePath = workspaceDir ++ rest ->
     getRelativePath rt filePath workspaceDir = stripLeadingSeparator rest)
  /\ (forall rest, filePath = workspaceDir ++ "/" ++ rest ->
        getRelativePath rt filePath workspaceDir = rest)
  /\ ((forall rest, filePath <> workspaceDir ++ rest) ->
      getRelativePath rt filePath workspaceDir = filePath).
Proof.
  intros Hfile Hworkspace.
  assert (forall rest, filePath = workspaceDir ++ rest ->
            getRelativePath rt filePath workspaceDir = stripLeadingSeparator rest) as Hbelow.
  { intros rest Hrest. unfold Platform.getRelativePath, startsWith.
    rewrite (normalizePath_plain rt _ Hfile), (normalizePath_plain rt _ Hworkspace).
    assert (String.prefix workspaceDir filePath = true) as ->
      by (apply prefix_iff; by exists rest).
    by rewrite Hrest, drop_append. }
  split_and!.
  - done.
  - intros rest Hrest. by rewrite (Hbelow _ Hrest).
  - intros Houtside. unfold Platform.getRelativePath, startsWith.
    rewrite (normalizePath_plain rt _ Hfile), (normalizePath_plain rt _ Hworkspace).
    destruct (String.prefix workspaceDir filePath) eqn:Hprefix; [| done].
    apply prefix_iff in Hprefix as [rest Hrest]. by destruct (Houtside rest).
Qed.

End WithPath.

(** The platform is reported as [android] exactly when Termux is
    detected, whatever [os.platform()] says; the Termux prefix exists
    exactly then; a non-empty [TERMUX_VERSION] is enough to be detected;
    and off Termux the home directory is the one of the [os] module. *)
Theorem termux_detection (rt : Runtime) :
  (getPlatform rt = "android" <-> isTermux rt = true)
  /\ (is_Some (getTermuxPrefix rt) <-> isTermux rt = true)
  /\ (forall version, env rt !! "TERMUX_VERSION" = Some version -> version <> "" ->
        isTermux rt = true)
  /\ (isTermux rt = false -> getHomeDir rt = homedir rt)
  /\ (getPlatform rt ∈ ["android"; "darwin"; "linux"; "win32"; "unknown"]).
Proof.
  split_and!.
  - unfold getPlatform. destruct (isTermux rt); [done |].
    repeat case_bool_decide; done.
  - unfold getTermuxPrefix. destruct (isTermux rt); cbn; [done |].
    split; [by intros [? ?] | done].
  - intros version Hversion Hne. unfold isTermux, envSet. rewrite Hversion.
    assert (truthy version = true) as Htruthy
      by (unfold truthy; by rewrite bool_decide_eq_false_2).
    cbn [str_or]. by rewrite Htruthy.
  - unfold getHomeDir. by intros ->.
  - unfold getPlatform. destruct (isTermux rt); [by left |].
    repeat case_bool_decide; set_solver.
Qed.

Lemma isWithinWorkspace_prefix_witness :
  let rt := {| env := ∅; existsSync := fun _ => false; osPlatform := "linux";
               homedir := "/home/u"; tmpdir := "/tmp" |} in
  Platform.isWithinWorkspace (fun parts => Js.join "/" parts) (fun s _ _ => s) rt
    "/work/../etc/passwd" "/work" = true
  /\ Platform.isWithinWorkspace (fun parts => Js.join "/" parts) (fun s _ _ => s) rt
       "/workspace-of-someone-else/x" "/work" = true.
Proof.
  intros rt. split.
  - apply (isWithinWorkspace_prefix (fun parts => Js.join "/" parts) (fun s _ _ => s) rt
             "/work/../etc/passwd" "/work").
    + split; [reflexivity | left; reflexivity].
    + split; [reflexivity | left; reflexivity].
    + exists "/../etc/passwd". reflexivity.
  - apply (isWithinWorkspace_prefix (fun parts => Js.join "/" parts) (fun s _ _ => s) rt
             "/workspace-of-someone-else/x" "/work").
    + split; [reflexivity | left; reflexivity].
    + split; [reflexivity | left; reflexivity].
    + exists "space-of-someone-else/x". reflexivity.
Defined.

Lemma getRelativePath_spec_witness :
  let rt := {| env := ∅; existsSync := fun _ => false; osPlatform := "linux";
               homedir := "/home/u"; tmpdir := "/tmp" |} in
  Platform.getRelativePath (fun parts => Js.join "/" parts) (fun s _ _ => s) rt
    "/work/src/a.ts" "/work" = "src/a.ts".
Proof.
  intros rt.
  destruct (getRelativePath_spec (fun parts => Js.join "/" parts) (fun s _ _ => s) rt
              "/work/src/a.ts" "/work") as (_ & Hbelow & _).
  - split; [reflexivity | left; reflexivity].
  - split; [reflexivity | left; reflexivity].
  - apply (Hbelow "src/a.ts"). reflexivity.
Defined.

End PlatformMore.
